(** * HomeSage rental application: the application lifecycle and lease issuance

    A shallow embedding of [server/src/controllers/applicationControllers.ts]
    (handlers [listApplications], [createApplication] and
    [updateApplicationStatus]) together with the part of the JavaScript
    [Date] semantics the handlers rely on, and the properties of the
    lifecycle proved about it. *)

From Stdlib Require Import ZArith Lia List String Ascii Bool.
From stdpp Require Import base option list strings pretty gmap.

Local Open Scope Z_scope.

(** ** JavaScript [Date] arithmetic (ECMA-262, "Time Values and Time Range")

    A time value is a number of milliseconds since the epoch, here an integer
    of [Z]; the Invalid Date (time value NaN) is [None] where it can arise.
    The server is taken to run in UTC, so the local time zone adjustment is 0
    and has no daylight saving rule. *)
Module JSDate.

Definition msPerDay : Z := 86400000.

Definition Day (t : Z) : Z := t / msPerDay.
Definition TimeWithinDay (t : Z) : Z := t mod msPerDay.

Definition DaysInYear (y : Z) : Z :=
  if negb (y mod 4 =? 0) then 365
  else if negb (y mod 100 =? 0) then 366
  else if negb (y mod 400 =? 0) then 365
  else 366.

Definition DayFromYear (y : Z) : Z :=
  365 * (y - 1970) + (y - 1969) / 4 - (y - 1901) / 100 + (y - 1601) / 400.

Definition TimeFromYear (y : Z) : Z := msPerDay * DayFromYear y.

(** [YearFromDay d] is the largest [y] with [DayFromYear y <= d]
    (lemma [YearFromDay_spec]).  It is found from the mean length of a
    Gregorian year, 146097 days in 400 years counted from 1601, which is off
    by one year at most. *)
Definition YearFromDay (d : Z) : Z :=
  let n := d - DayFromYear 1601 in
  let k := 400 * n / 146097 in
  if DayFromYear (1601 + k + 1) <=? d then 1601 + k + 1
  else if DayFromYear (1601 + k) <=? d then 1601 + k
  else 1601 + k - 1.

Definition YearFromTime (t : Z) : Z := YearFromDay (Day t).

Definition InLeapYear (t : Z) : Z :=
  if DaysInYear (YearFromTime t) =? 366 then 1 else 0.

Definition DayWithinYear (t : Z) : Z := Day t - DayFromYear (YearFromTime t).

(** Number of days of the year before month [m] (0 = January). *)
Definition monthStart (m leap : Z) : Z :=
  match m with
  | 0 => 0
  | 1 => 31
  | 2 => 59 + leap
  | 3 => 90 + leap
  | 4 => 120 + leap
  | 5 => 151 + leap
  | 6 => 181 + leap
  | 7 => 212 + leap
  | 8 => 243 + leap
  | 9 => 273 + leap
  | 10 => 304 + leap
  | _ => 334 + leap
  end.

Definition MonthFromTime (t : Z) : Z :=
  let d := DayWithinYear t in
  let l := InLeapYear t in
  if d <? 31 then 0
  else if d <? 59 + l then 1
  else if d <? 90 + l then 2
  else if d <? 120 + l then 3
  else if d <? 151 + l then 4
  else if d <? 181 + l then 5
  else if d <? 212 + l then 6
  else if d <? 243 + l then 7
  else if d <? 273 + l then 8
  else if d <? 304 + l then 9
  else if d <? 334 + l then 10
  else 11.

Definition DateFromTime (t : Z) : Z :=
  DayWithinYear t - monthStart (MonthFromTime t) (InLeapYear t) + 1.

Definition leapOfYear (y : Z) : Z := if DaysInYear y =? 366 then 1 else 0.

(** [MakeDay year month date]: the day number of the [date]-th day of month
    [month] of [year]; months outside 0..11 carry into the year and days
    outside the month carry into the following (or preceding) months. *)
Definition MakeDay (year month date : Z) : Z :=
  let ym := year + month / 12 in
  let mn := month mod 12 in
  DayFromYear ym + monthStart mn (leapOfYear ym) + date - 1.

Definition MakeDate (day time : Z) : Z := day * msPerDay + time.

Definition maxTime : Z := 8640000000000000.

Definition TimeClip (t : Z) : option Z :=
  if Z.abs t <=? maxTime then Some t else None.

Definition LocalTZA : Z := 0.
Definition LocalTime (t : Z) : Z := t + LocalTZA.
Definition UTC (t : Z) : Z := t - LocalTZA.

(** The methods of [Date.prototype] the controller calls, on a valid date
    with time value [t]. *)
Definition getFullYear (t : Z) : Z := YearFromTime (LocalTime t).
Definition getMonth (t : Z) : Z := MonthFromTime (LocalTime t).
Definition getDate (t : Z) : Z := DateFromTime (LocalTime t).

Definition setMonth (t month : Z) : option Z :=
  let lt := LocalTime t in
  let newDate := MakeDay (YearFromTime lt) month (DateFromTime lt) in
  TimeClip (UTC (MakeDate newDate (TimeWithinDay lt))).

Definition setFullYear (t year : Z) : option Z :=
  let lt := LocalTime t in
  let newDate := MakeDay year (MonthFromTime lt) (DateFromTime lt) in
  TimeClip (UTC (MakeDate newDate (TimeWithinDay lt))).

(** Length of month [m] (0..11) of year [y]. *)
Definition DaysInMonth (y m : Z) : Z :=
  match m with
  | 1 => 28 + leapOfYear y
  | 3 | 5 | 8 | 10 => 30
  | _ => 31
  end.

End JSDate.

(** ** JavaScript values

    The values the handlers receive in [req.body], [req.query] and
    [req.params].  Numbers are the integers; [JObj str] is an array or an
    object, of which the handlers only ever observe that it is truthy and the
    string [str] that [ToString] yields for it.  Strings are sequences of
    8-bit characters. *)
Inductive jsval : Type :=
  | JUndefined
  | JNull
  | JBool (b : bool)
  | JNum (n : Z)
  | JStr (s : string)
  | JObj (str : string).

(** [!!v] of JavaScript: false on undefined, null, false, 0 and the empty
    string. *)
Definition truthy (v : jsval) : bool :=
  match v with
  | JUndefined | JNull => false
  | JBool b => b
  | JNum n => negb (n =? 0)
  | JStr s => negb (String.eqb s "")
  | JObj _ => true
  end.

(** [a || b]. *)
Definition js_or (a b : jsval) : jsval := if truthy a then a else b.

(** [v === s] for a string literal [s]. *)
Definition js_is (v : jsval) (s : string) : bool :=
  match v with
  | JStr s' => String.eqb s' s
  | _ => false
  end.

(** [arr.includes(v)] for an array of string literals. *)
Definition includes (arr : list string) (v : jsval) : bool := existsb (js_is v) arr.

Definition ToString (v : jsval) : string :=
  match v with
  | JUndefined => "undefined"
  | JNull => "null"
  | JBool true => "true"
  | JBool false => "false"
  | JNum n => pretty n
  | JStr s => s
  | JObj str => str
  end.

(** A request body or query: a JavaScript object read by key; a key that is
    not there reads as [undefined]. *)
Definition field (obj : gmap string jsval) (k : string) : jsval :=
  default JUndefined (obj !! k).

(** ** Regular expressions, as far as [emailRegex] needs them *)
Module Regex.

Inductive regex : Type :=
  | Void
  | Eps
  | Class (p : ascii -> bool)
  | Cat (r1 r2 : regex)
  | Alt (r1 r2 : regex)
  | Star (r : regex).

Definition Plus (r : regex) : regex := Cat r (Star r).
Definition Chr (c : ascii) : regex := Class (Ascii.eqb c).

Fixpoint nullable (r : regex) : bool :=
  match r with
  | Void => false
  | Eps => true
  | Class _ => false
  | Cat r1 r2 => nullable r1 && nullable r2
  | Alt r1 r2 => nullable r1 || nullable r2
  | Star _ => true
  end.

Fixpoint deriv (c : ascii) (r : regex) : regex :=
  match r with
  | Void => Void
  | Eps => Void
  | Class p => if p c then Eps else Void
  | Cat r1 r2 =>
      if nullable r1 then Alt (Cat (deriv c r1) r2) (deriv c r2)
      else Cat (deriv c r1) r2
  | Alt r1 r2 => Alt (deriv c r1) (deriv c r2)
  | Star r1 => Cat (deriv c r1) (Star r1)
  end.

(** [matches r s]: the whole of [s] matches [r] (a pattern between [^] and
    [$] without the multiline flag). *)
Fixpoint matches (r : regex) (s : string) : bool :=
  match s with
  | EmptyString => nullable r
  | String c s' => matches (deriv c r) s'
  end.

(** The class [\s] on 8-bit characters: tab, line feed, vertical tab, form
    feed, carriage return, space and no-break space. *)
Definition isWhiteSpace (c : ascii) : bool :=
  let n := nat_of_ascii c in
  existsb (Nat.eqb n) [9; 10; 11; 12; 13; 32; 160]%nat.

End Regex.

(** [/^[^\s@]+@[^\s@]+\.[^\s@]+$/] *)
Definition emailRegex : Regex.regex :=
  let notSpaceAt := Regex.Class (fun c => negb (Regex.isWhiteSpace c) && negb (Ascii.eqb c "@")) in
  Regex.Cat (Regex.Plus notSpaceAt)
    (Regex.Cat (Regex.Chr "@")
       (Regex.Cat (Regex.Plus notSpaceAt)
          (Regex.Cat (Regex.Chr ".") (Regex.Plus notSpaceAt)))).

(** [emailRegex.test(v)]: the argument is converted to a string first. *)
Definition emailRegex_test (v : jsval) : bool := Regex.matches emailRegex (ToString v).

(** ** The data model (the Prisma schema, as the controller uses it) *)

(** The enum [ApplicationStatus]; its values are the strings of
    [validStatuses]. *)
Inductive ApplicationStatus : Type := Pending | Denied | Approved.

#[global] Instance ApplicationStatus_eq_dec : EqDecision ApplicationStatus.
Proof. solve_decision. Defined.

(** The string of a status. *)
Definition statusString (st : ApplicationStatus) : jsval :=
  match st with
  | Pending => JStr "Pending"
  | Denied => JStr "Denied"
  | Approved => JStr "Approved"
  end.

Definition validStatuses : list string := ["Pending"; "Approved"; "Denied"]%string.

Definition parseStatus (s : string) : option ApplicationStatus :=
  if String.eqb s "Pending" then Some Pending
  else if String.eqb s "Approved" then Some Approved
  else if String.eqb s "Denied" then Some Denied
  else None.

(** Amounts of money are copied from one record to another and never
    computed with. *)
Definition amount : Type := Z.

Record Location : Type := {
  loc_id : Z;
  loc_address : string;
}.

Record Manager : Type := {
  m_cognitoId : string;
  m_name : string;
}.

Record Tenant : Type := {
  t_cognitoId : string;
  t_name : string;
}.

Record Property : Type := {
  p_id : Z;
  p_name : string;
  p_pricePerMonth : amount;
  p_securityDeposit : amount;
  p_managerCognitoId : string;
  p_locationId : Z;
  p_tenants : gset string;
}.

Record Lease : Type := {
  l_id : Z;
  l_startDate : Z;
  l_endDate : Z;
  l_rent : amount;
  l_deposit : amount;
  l_propertyId : Z;
  l_tenantCognitoId : string;
}.

(** A value as handed to the database for an optional column: a JavaScript
    value, or a [Date] (with its time value, [None] for the Invalid Date). *)
Inductive dataval : Type :=
  | DVal (v : jsval)
  | DDate (t : option Z).

Record Application : Type := {
  a_id : Z;
  a_applicationDate : Z;
  a_status : ApplicationStatus;
  a_name : string;
  a_email : string;
  a_phoneNumber : string;
  a_optional : list (string * dataval);
  a_propertyId : Z;
  a_tenantCognitoId : string;
  a_leaseId : option Z;
}.

Definition set_status (st : ApplicationStatus) (a : Application) : Application :=
  {| a_id := a_id a; a_applicationDate := a_applicationDate a; a_status := st;
     a_name := a_name a; a_email := a_email a; a_phoneNumber := a_phoneNumber a;
     a_optional := a_optional a; a_propertyId := a_propertyId a;
     a_tenantCognitoId := a_tenantCognitoId a; a_leaseId := a_leaseId a |}.

Definition set_leaseId (l : option Z) (a : Application) : Application :=
  {| a_id := a_id a; a_applicationDate := a_applicationDate a; a_status := a_status a;
     a_name := a_name a; a_email := a_email a; a_phoneNumber := a_phoneNumber a;
     a_optional := a_optional a; a_propertyId := a_propertyId a;
     a_tenantCognitoId := a_tenantCognitoId a; a_leaseId := l |}.

Definition add_tenant (cid : string) (p : Property) : Property :=
  {| p_id := p_id p; p_name := p_name p; p_pricePerMonth := p_pricePerMonth p;
     p_securityDeposit := p_securityDeposit p;
     p_managerCognitoId := p_managerCognitoId p; p_locationId := p_locationId p;
     p_tenants := {[cid]} ∪ p_tenants p |}.

(** The persistent store: one list of rows per table, in the order the
    database returns them when a query fixes none (here: the order of
    insertion), and the two sequences that issue the autoincrement keys. *)
Record Store : Type := {
  s_applications : list Application;
  s_leases : list Lease;
  s_properties : list Property;
  s_tenants : list Tenant;
  s_managers : list Manager;
  s_locations : list Location;
  s_nextApplicationId : Z;
  s_nextLeaseId : Z;
}.

Definition with_applications (f : list Application -> list Application) (s : Store) : Store :=
  {| s_applications := f (s_applications s); s_leases := s_leases s;
     s_properties := s_properties s; s_tenants := s_tenants s;
     s_managers := s_managers s; s_locations := s_locations s;
     s_nextApplicationId := s_nextApplicationId s; s_nextLeaseId := s_nextLeaseId s |}.

Definition with_properties (f : list Property -> list Property) (s : Store) : Store :=
  {| s_applications := s_applications s; s_leases := s_leases s;
     s_properties := f (s_properties s); s_tenants := s_tenants s;
     s_managers := s_managers s; s_locations := s_locations s;
     s_nextApplicationId := s_nextApplicationId s; s_nextLeaseId := s_nextLeaseId s |}.

Definition insert_application (a : Application) (s : Store) : Store :=
  {| s_applications := s_applications s ++ [a]; s_leases := s_leases s;
     s_properties := s_properties s; s_tenants := s_tenants s;
     s_managers := s_managers s; s_locations := s_locations s;
     s_nextApplicationId := s_nextApplicationId s + 1; s_nextLeaseId := s_nextLeaseId s |}.

Definition insert_lease (l : Lease) (s : Store) : Store :=
  {| s_applications := s_applications s; s_leases := s_leases s ++ [l];
     s_properties := s_properties s; s_tenants := s_tenants s;
     s_managers := s_managers s; s_locations := s_locations s;
     s_nextApplicationId := s_nextApplicationId s; s_nextLeaseId := s_nextLeaseId s + 1 |}.

Definition find_application (s : Store) (id : Z) : option Application :=
  List.find (fun a => bool_decide (a_id a = id)) (s_applications s).
Definition find_lease (s : Store) (id : Z) : option Lease :=
  List.find (fun l => bool_decide (l_id l = id)) (s_leases s).
Definition find_property (s : Store) (id : Z) : option Property :=
  List.find (fun p => bool_decide (p_id p = id)) (s_properties s).
Definition find_tenant (s : Store) (cid : string) : option Tenant :=
  List.find (fun t => bool_decide (t_cognitoId t = cid)) (s_tenants s).
Definition find_manager (s : Store) (cid : string) : option Manager :=
  List.find (fun m => bool_decide (m_cognitoId m = cid)) (s_managers s).
Definition find_location (s : Store) (id : Z) : option Location :=
  List.find (fun l => bool_decide (loc_id l = id)) (s_locations s).

(** ** Outcomes of a request

    The failures the handlers signal, each with the HTTP status and the
    message of the source.  [ServerError] is the [catch] branch: an exception
    of the database client (a validation error, a missing record, a broken
    constraint). *)
Inductive failure : Type :=
  | MissingField
  | InvalidEmail
  | PropertyNotFound
  | TenantNotFound
  | DuplicateApproved
  | DuplicatePending
  | InvalidStatus
  | ApplicationNotFound
  | CannotModifyApproved
  | LeaseAlreadyExists
  | ActiveLeaseExists
  | ServerError.

Definition statusCode (f : failure) : Z :=
  match f with
  | MissingField | InvalidEmail | InvalidStatus | CannotModifyApproved => 400
  | PropertyNotFound | TenantNotFound | ApplicationNotFound => 404
  | DuplicateApproved | DuplicatePending | LeaseAlreadyExists | ActiveLeaseExists => 409
  | ServerError => 500
  end.

Definition message (f : failure) : string :=
  match f with
  | MissingField => "Missing required fields"
  | InvalidEmail => "Invalid email format"
  | PropertyNotFound => "Property not found"
  | TenantNotFound => "Tenant not found"
  | DuplicateApproved => "You have already been approved for this property"
  | DuplicatePending => "You already have a pending application for this property"
  | InvalidStatus => "Invalid status. Must be one of: Pending, Approved, Denied"
  | ApplicationNotFound => "Application not found."
  | CannotModifyApproved => "Cannot change status of an already approved application"
  | LeaseAlreadyExists => "A lease already exists for this application"
  | ActiveLeaseExists => "Tenant already has an active lease for this property"
  | ServerError => "Error"
  end.

Inductive result (A : Type) : Type :=
  | Ok (a : A)
  | Fail (f : failure).
Arguments Ok {A} a.
Arguments Fail {A} f.

(** ** The handler monad: the store, the log of store accesses, failure *)

Inductive table : Type :=
  | TApplication | TLease | TProperty | TTenant | TManager | TLocation.

Inductive access : Type :=
  | Read (t : table)
  | Write (t : table).

Record World : Type := {
  w_store : Store;
  w_log : list access;
}.

Definition M (A : Type) : Type := World -> result A * World.

Definition ret {A : Type} (a : A) : M A := fun w => (Ok a, w).

Definition bind {A B : Type} (m : M A) (k : A -> M B) : M B :=
  fun w =>
    match m w with
    | (Ok a, w') => k a w'
    | (Fail f, w') => (Fail f, w')
    end.

(** [res.status(c).json({message}); return;] and [throw]: both leave the
    handler at once. *)
Definition respond {A : Type} (f : failure) : M A := fun w => (Fail f, w).
Definition throw {A : Type} : M A := respond ServerError.

Declare Scope handler_scope.
Delimit Scope handler_scope with handler.
Notation "x <~ m ;; k" := (bind m (fun x => k))
  (at level 100, m at next level, right associativity) : handler_scope.
Notation "m ;;; k" := (bind m (fun _ => k))
  (at level 100, right associativity) : handler_scope.
Local Open Scope handler_scope.

(** A read of the store that touches the tables [ts]. *)
Definition reading {A : Type} (ts : list table) (f : Store -> result A) : M A :=
  fun w => (f (w_store w),
            {| w_store := w_store w; w_log := w_log w ++ map Read ts |}).

(** A write to table [t]: when [f] fails (a missing record, a broken
    constraint) nothing is written. *)
Definition writing {A : Type} (t : table) (f : Store -> result (A * Store)) : M A :=
  fun w =>
    match f (w_store w) with
    | Ok (a, s') => (Ok a, {| w_store := s'; w_log := w_log w ++ [Write t] |})
    | Fail e => (Fail e, {| w_store := w_store w; w_log := w_log w ++ [Write t] |})
    end.

(** [prisma.$transaction(async (prisma) => body)]: when [body] throws, the
    store is as it was before. *)
Definition transaction {A : Type} (body : M A) : M A :=
  fun w =>
    match body w with
    | (Ok a, w') => (Ok a, w')
    | (Fail e, w') => (Fail e, {| w_store := w_store w; w_log := w_log w' |})
    end.

Fixpoint mapM {A B : Type} (f : A -> M B) (l : list A) : M (list B) :=
  match l with
  | [] => ret []
  | x :: l' => y <~ f x ;; ys <~ mapM f l' ;; ret (y :: ys)
  end.

Definition ok {A : Type} (r : result A) : option A :=
  match r with
  | Ok a => Some a
  | Fail _ => None
  end.

(** ** The database client

    A query the client finds ill-typed throws before the store is touched.
    What the JavaScript runtime and the schema contribute and the controller
    does not define: [Number(id)] as far as the client accepts it for an
    [Int] key ([None] for NaN and for a number that is no integer),
    [Date.parse] ([None] for NaN), and the schema's check of the optional
    columns of an application.

    A handler may read the clock ([new Date()]) more than once while it
    serves one request: [tick now k] is the number of milliseconds that go
    by between reading [k] and reading [k + 1] of the request whose first
    reading is [now].  The clock does not go back while a request is
    served. *)
Record Runtime : Type := {
  Number : string -> option Z;
  Date_parse : string -> option Z;
  schema_accepts : list (string * dataval) -> bool;
  tick : Z -> nat -> nat;
}.

(** The keys of applications and properties are columns of type [Int], 32
    bits wide: no row of the database has a key outside that range, and the
    client refuses a query for one (the query throws).  [uniqueKey n row] is
    what [findUnique] answers for the key [n], [row] being the row the table
    has under that key, if any. *)
Definition isInt (n : Z) : bool := (- 2 ^ 31 <=? n) && (n <? 2 ^ 31).

Definition uniqueKey {A : Type} (n : Z) (row : option A) : result (option A) :=
  match row with
  | Some r => Ok (Some r)
  | None => if isInt n then Ok None else Fail ServerError
  end.

(** An application with the relations a query asked to [include]. *)
Record Joined : Type := {
  j_app : Application;
  j_property : Property;
  j_location : option Location;
  j_manager : option Manager;
  j_tenant : Tenant;
  j_lease : option Lease;
}.

(** The data of [prisma.application.create], as the handler passes it. *)
Record ApplicationCreateInput : Type := {
  c_applicationDate : option Z;
  c_status : jsval;
  c_name : jsval;
  c_email : jsval;
  c_phoneNumber : jsval;
  c_optional : list (string * dataval);
  c_propertyId : jsval;
  c_tenantCognitoId : jsval;
}.

(** The data of [prisma.lease.create]. *)
Record LeaseCreateInput : Type := {
  lc_startDate : option Z;
  lc_endDate : option Z;
  lc_rent : amount;
  lc_deposit : amount;
  lc_propertyId : Z;
  lc_tenantCognitoId : string;
}.

Definition asString (v : jsval) : option string :=
  match v with
  | JStr s => Some s
  | _ => None
  end.

Definition asInt (v : jsval) : option Z :=
  match v with
  | JNum n => Some n
  | _ => None
  end.

Definition asStatus (v : jsval) : option ApplicationStatus := asString v ≫= parseStatus.

Fixpoint mapR {A B : Type} (f : A -> result B) (l : list A) : result (list B) :=
  match l with
  | [] => Ok []
  | x :: l' =>
      match f x with
      | Ok y => match mapR f l' with
                | Ok ys => Ok (y :: ys)
                | Fail e => Fail e
                end
      | Fail e => Fail e
      end
  end.

(** [include: { property: { include: { location, manager } }, tenant, lease }]
    when [deep] and [withLease]; [include: { property, tenant }] when neither.
    The relations to property, location, manager and tenant are required: the
    client throws when the row is not there. *)
Definition join (deep withLease : bool) (s : Store) (a : Application) : result Joined :=
  match find_property s (a_propertyId a), find_tenant s (a_tenantCognitoId a) with
  | Some p, Some t =>
      let lease := if withLease then a_leaseId a ≫= find_lease s else None in
      if deep then
        match find_location s (p_locationId p), find_manager s (p_managerCognitoId p) with
        | Some loc, Some m =>
            Ok {| j_app := a; j_property := p; j_location := Some loc;
                  j_manager := Some m; j_tenant := t; j_lease := lease |}
        | _, _ => Fail ServerError
        end
      else
        Ok {| j_app := a; j_property := p; j_location := None;
              j_manager := None; j_tenant := t; j_lease := lease |}
  | _, _ => Fail ServerError
  end.

Definition joinTables (deep withLease : bool) : list table :=
  [TProperty; TTenant] ++ (if deep then [TLocation; TManager] else [])
  ++ (if withLease then [TLease] else []).

(** A table is kept as the list of its rows.  The queries of the controller
    that may answer with several rows, or with one of several
    ([findMany], [findFirst] on applications), ask for no order, and the
    database gives none; here they answer in the order of the list. *)
Definition application_findMany (where_ : Store -> Application -> bool) (deep withLease : bool)
  : M (list Joined) :=
  reading (TApplication :: joinTables deep withLease)
    (fun s => mapR (join deep withLease s) (List.filter (where_ s) (s_applications s))).

Definition application_findFirst (where_ : Application -> bool) : M (option Application) :=
  reading [TApplication] (fun s => Ok (List.find where_ (s_applications s))).

Definition application_findUnique (id : option Z) (deep withLease : bool) : M (option Joined) :=
  match id with
  | None => throw
  | Some n =>
      reading (TApplication :: joinTables deep withLease)
        (fun s =>
           match uniqueKey n (find_application s n) with
           | Ok None => Ok None
           | Ok (Some a) =>
               match join deep withLease s a with
               | Ok j => Ok (Some j)
               | Fail e => Fail e
               end
           | Fail e => Fail e
           end)
  end.

Definition property_findUnique (id : jsval) : M (option Property) :=
  match asInt id with
  | None => throw
  | Some n => reading [TProperty] (fun s => uniqueKey n (find_property s n))
  end.

Definition tenant_findUnique (cognitoId : jsval) : M (option Tenant) :=
  match asString cognitoId with
  | None => throw
  | Some c => reading [TTenant] (fun s => Ok (find_tenant s c))
  end.

Definition lease_findFirst (where_ : Lease -> bool) : M (option Lease) :=
  reading [TLease] (fun s => Ok (List.find where_ (s_leases s))).

(** [findFirst] with [orderBy: { startDate: "desc" }]. *)
Definition latest (best : option Lease) (l : Lease) : option Lease :=
  match best with
  | None => Some l
  | Some b => if l_startDate b <? l_startDate l then Some l else Some b
  end.

Definition lease_findFirst_latest (where_ : Lease -> bool) : M (option Lease) :=
  reading [TLease] (fun s => Ok (fold_left latest (List.filter where_ (s_leases s)) None)).

Definition lease_create (d : LeaseCreateInput) : M Lease :=
  match lc_startDate d, lc_endDate d with
  | Some sd, Some ed =>
      writing TLease
        (fun s =>
           match find_property s (lc_propertyId d), find_tenant s (lc_tenantCognitoId d) with
           | Some _, Some _ =>
               let l := {| l_id := s_nextLeaseId s; l_startDate := sd; l_endDate := ed;
                           l_rent := lc_rent d; l_deposit := lc_deposit d;
                           l_propertyId := lc_propertyId d;
                           l_tenantCognitoId := lc_tenantCognitoId d |} in
               Ok (l, insert_lease l s)
           | _, _ => Fail ServerError
           end)
  | _, _ => throw
  end.

(** The row updates of [update] (the row with key [id]) and [updateMany]
    (the rows that [where_] selects). *)
Definition connect_tenant (id : Z) (cognitoId : string) (p : Property) : Property :=
  if bool_decide (p_id p = id) then add_tenant cognitoId p else p.

Definition update_row (id : Z) (data : Application -> Application) (a : Application)
  : Application :=
  if bool_decide (a_id a = id) then data a else a.

Definition update_rows (where_ : Application -> bool) (data : Application -> Application)
  (a : Application) : Application :=
  if where_ a then data a else a.

(** [prisma.property.update] with [tenants: { connect: { cognitoId } }]. *)
Definition property_update_connect (id : Z) (cognitoId : string) : M unit :=
  writing TProperty
    (fun s =>
       match find_property s id, find_tenant s cognitoId with
       | Some _, Some _ => Ok (tt, with_properties (map (connect_tenant id cognitoId)) s)
       | _, _ => Fail ServerError
       end).

Definition application_update (id : option Z) (data : option (Application -> Application))
  : M unit :=
  match id, data with
  | Some n, Some f =>
      writing TApplication
        (fun s =>
           match find_application s n with
           | Some _ => Ok (tt, with_applications (map (update_row n f)) s)
           | None => Fail ServerError
           end)
  | _, _ => throw
  end.

Definition application_updateMany (where_ : Application -> bool)
  (data : Application -> Application) : M unit :=
  writing TApplication
    (fun s => Ok (tt, with_applications (map (update_rows where_ data)) s)).

Section Controller.

Variable rt : Runtime.

(** [new Date(v)]. *)
Definition newDate (v : jsval) : option Z :=
  match v with
  | JUndefined => None
  | JNull => Some 0
  | JBool b => Some (if b then 1 else 0)
  | JNum n => JSDate.TimeClip n
  | JStr s => Date_parse rt s
  | JObj str => Date_parse rt str
  end.

(** The client checks the data of a [create] against the schema and builds
    the row, which starts without a lease; [None] is a validation error. *)
Definition decodeApplication (d : ApplicationCreateInput) : option (Z -> Application) :=
  match c_applicationDate d, asStatus (c_status d), asString (c_name d),
        asString (c_email d), asString (c_phoneNumber d),
        asInt (c_propertyId d), asString (c_tenantCognitoId d) with
  | Some date, Some st, Some name, Some email, Some phone, Some pid, Some cid =>
      if schema_accepts rt (c_optional d) then
        Some (fun id =>
                {| a_id := id; a_applicationDate := date;
                   a_status := st; a_name := name; a_email := email;
                   a_phoneNumber := phone; a_optional := c_optional d;
                   a_propertyId := pid; a_tenantCognitoId := cid;
                   a_leaseId := None |})
      else None
  | _, _, _, _, _, _, _ => None
  end.

Definition application_create (d : ApplicationCreateInput) : M Joined :=
  match decodeApplication d with
  | Some row =>
      writing TApplication
        (fun s =>
           let a := row (s_nextApplicationId s) in
           match join true false (insert_application a s) a with
           | Ok j => Ok (j, insert_application a s)
           | Fail e => Fail e
           end)
  | None => throw
  end.

(** The optional columns of an application, in the order of the source, with
    what the handler stores when the body has no (truthy) value for them. *)
Inductive fallback : Type := OrNull | OrFalse | DateOrNull.

Definition optionalFields : list (string * fallback) :=
  [ ("message", OrNull); ("firstName", OrNull); ("lastName", OrNull);
    ("phone", OrNull); ("dateOfBirth", DateOrNull); ("currentAddress", OrNull);
    ("currentCity", OrNull); ("currentState", OrNull); ("currentZip", OrNull);
    ("moveInDate", DateOrNull); ("employmentStatus", OrNull); ("employer", OrNull);
    ("occupation", OrNull); ("annualIncome", OrNull); ("employmentLength", OrNull);
    ("emergencyContactName", OrNull); ("emergencyContactPhone", OrNull);
    ("emergencyContactRelationship", OrNull); ("previousLandlordName", OrNull);
    ("previousLandlordPhone", OrNull); ("numberOfOccupants", OrNull);
    ("hasPets", OrFalse); ("petDetails", OrNull); ("hasVehicles", OrFalse);
    ("vehicleDetails", OrNull); ("hasEvictionHistory", OrFalse);
    ("evictionDetails", OrNull); ("hasCriminalHistory", OrFalse);
    ("criminalDetails", OrNull); ("additionalNotes", OrNull) ]%string.

Definition optionalData (body : gmap string jsval) : list (string * dataval) :=
  map (fun '(k, fb) =>
         (k, match fb with
             | OrNull => DVal (js_or (field body k) JNull)
             | OrFalse => DVal (js_or (field body k) (JBool false))
             | DateOrNull =>
                 if truthy (field body k) then DDate (newDate (field body k))
                 else DVal JNull
             end))
      optionalFields.

(** *** [calculateNextPaymentDate]

    [today] is the reading of the clock the function takes on entry.  The
    loop runs on the time value of [nextPaymentDate]; an Invalid Date never
    compares [<=], so it leaves the loop.  Each turn moves the date on by 28
    days at least, which bounds the number of turns. *)
Fixpoint nextPaymentLoop (fuel : nat) (today : Z) (nextPaymentDate : Z) : option Z :=
  if nextPaymentDate <=? today then
    match fuel with
    | O => Some nextPaymentDate
    | S fuel' =>
        match JSDate.setMonth nextPaymentDate (JSDate.getMonth nextPaymentDate + 1) with
        | Some d => nextPaymentLoop fuel' today d
        | None => None
        end
    end
  else Some nextPaymentDate.

Definition calculateNextPaymentDate (today : Z) (startDate : Z) : option Z :=
  nextPaymentLoop (Z.to_nat ((today - startDate) / (28 * JSDate.msPerDay) + 1))
    today startDate.

(** *** [listApplications] *)

Record LeaseView : Type := {
  lv_lease : Lease;
  lv_nextPaymentDate : option Z;
}.

Record ApplicationView : Type := {
  v_app : Joined;
  v_address : option string;
  v_manager : option Manager;
  v_lease : option LeaseView;
}.

Definition whereAll : Store -> Application -> bool := fun _ _ => true.

Definition whereTenant (cid : string) : Store -> Application -> bool :=
  fun _ a => bool_decide (a_tenantCognitoId a = cid).

Definition whereManager (cid : string) : Store -> Application -> bool :=
  fun s a =>
    match find_property s (a_propertyId a) with
    | Some p => bool_decide (p_managerCognitoId p = cid)
    | None => false
    end.

Definition listApplications (now : Z) (query : gmap string jsval) : M (list ApplicationView) :=
  let userId := field query "userId" in
  let userType := field query "userType" in
  let whereClause :=
    if truthy userId && truthy userType then
      if js_is userType "tenant" then whereTenant (ToString userId)
      else if js_is userType "manager" then whereManager (ToString userId)
      else whereAll
    else whereAll in
  applications <~ application_findMany whereClause true false ;;
  mapM (fun app =>
          lease <~ lease_findFirst_latest
                     (fun l => bool_decide (l_tenantCognitoId l = a_tenantCognitoId (j_app app))
                               && bool_decide (l_propertyId l = a_propertyId (j_app app))) ;;
          ret {| v_app := app;
                 v_address := loc_address <$> j_location app;
                 v_manager := j_manager app;
                 v_lease := (fun l => {| lv_lease := l;
                                         lv_nextPaymentDate :=
                                           calculateNextPaymentDate now (l_startDate l) |})
                            <$> lease |})
       applications.

(** *** [createApplication] *)

(** The [data] of the call of [prisma.application.create]. *)
Definition createData (now : Z) (body : gmap string jsval) : ApplicationCreateInput :=
  let applicationDate := field body "applicationDate" in
  {| c_applicationDate :=
       if truthy applicationDate then newDate applicationDate else Some now;
     c_status := js_or (field body "status") (JStr "Pending");
     c_name := field body "name";
     c_email := field body "email";
     c_phoneNumber := field body "phoneNumber";
     c_optional := optionalData body;
     c_propertyId := field body "propertyId";
     c_tenantCognitoId := field body "tenantCognitoId" |}.

Definition createApplication (now : Z) (body : gmap string jsval) : M Joined :=
  let applicationDate := field body "applicationDate" in
  let status := field body "status" in
  let propertyId := field body "propertyId" in
  let tenantCognitoId := field body "tenantCognitoId" in
  let name := field body "name" in
  let email := field body "email" in
  let phoneNumber := field body "phoneNumber" in
  if negb (truthy propertyId) || negb (truthy tenantCognitoId) || negb (truthy name)
     || negb (truthy email) || negb (truthy phoneNumber)
  then respond MissingField
  else if negb (emailRegex_test email) then respond InvalidEmail
  else
    property <~ property_findUnique propertyId ;;
    match property with
    | None => respond PropertyNotFound
    | Some _ =>
        tenant <~ tenant_findUnique tenantCognitoId ;;
        match tenant with
        | None => respond TenantNotFound
        | Some _ =>
            existingApplication <~
              application_findFirst
                (fun a => bool_decide (Some (a_propertyId a) = asInt propertyId)
                          && bool_decide (Some (a_tenantCognitoId a) = asString tenantCognitoId)
                          && (bool_decide (a_status a = Pending)
                              || bool_decide (a_status a = Approved))) ;;
            match existingApplication with
            | Some existing =>
                if bool_decide (a_status existing = Approved)
                then respond DuplicateApproved
                else respond DuplicatePending
            | None => application_create (createData now body)
            end
        end
    end.

(** *** [updateApplicationStatus] *)

(** [new Date()], evaluated for the [k]-th time after the first reading
    [now] of the request. *)
Fixpoint clock (now : Z) (k : nat) : Z :=
  match k with
  | O => now
  | S k' => clock now k' + Z.of_nat (tick rt now k')
  end.

(** The handler reads the clock four times: for the guard on the leases in
    force ([now]), for [startDate], for the date [setFullYear] is called on,
    and for the year [getFullYear] is asked of. *)
Definition updateApplicationStatus (now : Z) (id : string) (status : jsval)
  : M (option Joined) :=
  if negb (truthy status) || negb (includes validStatuses status)
  then respond InvalidStatus
  else
    application <~ application_findUnique (Number rt id) false true ;;
    match application with
    | None => respond ApplicationNotFound
    | Some application =>
        if bool_decide (a_status (j_app application) = Approved)
           && negb (js_is status "Approved")
        then respond CannotModifyApproved
        else if bool_decide (is_Some (j_lease application)) && js_is status "Approved"
        then respond LeaseAlreadyExists
        else
          (if js_is status "Approved" then
             existingLease <~
               lease_findFirst
                 (fun l => bool_decide (l_propertyId l = a_propertyId (j_app application))
                           && bool_decide (l_tenantCognitoId l
                                           = a_tenantCognitoId (j_app application))
                           && (now <=? l_endDate l)) ;;
             match existingLease with
             | Some _ => respond ActiveLeaseExists
             | None =>
                 transaction
                   (newLease <~
                      lease_create
                        {| lc_startDate := Some (clock now 1);
                           lc_endDate :=
                             JSDate.setFullYear (clock now 2)
                               (JSDate.getFullYear (clock now 3) + 1);
                           lc_rent := p_pricePerMonth (j_property application);
                           lc_deposit := p_securityDeposit (j_property application);
                           lc_propertyId := a_propertyId (j_app application);
                           lc_tenantCognitoId := a_tenantCognitoId (j_app application) |} ;;
                    (property_update_connect (a_propertyId (j_app application))
                       (a_tenantCognitoId (j_app application)) ;;;
                     (application_update (Number rt id)
                        ((fun st a => set_leaseId (Some (l_id newLease)) (set_status st a))
                         <$> asStatus status) ;;;
                      application_updateMany
                        (fun a => bool_decide (a_propertyId a = a_propertyId (j_app application))
                                  && negb (bool_decide (Some (a_id a) = Number rt id))
                                  && bool_decide (a_status a = Pending))
                        (set_status Denied))))
             end
           else application_update (Number rt id) (set_status <$> asStatus status)) ;;;
          (updatedApplication <~ application_findUnique (Number rt id) true true ;;
           ret updatedApplication)
    end.

End Controller.


(** ** The notions the properties are stated with *)

(** *** Calendar dates *)
Module Civil.
Import JSDate.

(** The civil date of instant [t]: year, month (0..11), day of the month. *)
Definition civil (t : Z) : Z * Z * Z :=
  (YearFromTime t, MonthFromTime t, DateFromTime t).

(** "[t] plus [k] months": the same day of the month and time of day, [k]
    months on; a day the month does not have counts into the next month, as
    everywhere in [Date]. *)
Definition addMonths (t k : Z) : Z :=
  MakeDate (MakeDay (YearFromTime t) (MonthFromTime t + k) (DateFromTime t))
    (TimeWithinDay t).

(** One turn of the loop of [calculateNextPaymentDate], without the clip. *)
Definition advanceMonth (t : Z) : Z := addMonths t 1.

(** [t] falls on 29 February. *)
Definition isLeapDay (t : Z) : bool :=
  (MonthFromTime t =? 1) && (DateFromTime t =? 29).

(** The same day, month and time of day in the following year. *)
Definition nextYear (t : Z) : Z :=
  MakeDate (MakeDay (YearFromTime t + 1) (MonthFromTime t) (DateFromTime t))
    (TimeWithinDay t).

End Civil.

Fixpoint iterate {A : Type} (f : A -> A) (k : nat) (x : A) : A :=
  match k with
  | O => x
  | S k' => iterate f k' (f x)
  end.

(** *** Leases in force *)

(** The [where] of the lease query of [updateApplicationStatus]: a lease of
    tenant [cid] on property [pid] that has not ended at [now]. *)
Definition active (now : Z) (pid : Z) (cid : string) (l : Lease) : bool :=
  bool_decide (l_propertyId l = pid) && bool_decide (l_tenantCognitoId l = cid)
  && (now <=? l_endDate l).

Definition active_leases (s : Store) (now : Z) (pid : Z) (cid : string) : list Lease :=
  List.filter (active now pid cid) (s_leases s).

(** P6: no tenant holds two leases in force on one property. *)
Definition single_active_lease (s : Store) (now : Z) : Prop :=
  forall pid cid, (length (active_leases s now pid cid) <= 1)%nat.

(** *** Referential integrity

    What the keys and the sequences of the database guarantee: the rows an
    application and a property refer to exist, the keys in use lie below the
    next key, and no two applications have the same key. *)
Definition wf_application (s : Store) (a : Application) : Prop :=
  is_Some (find_property s (a_propertyId a))
  /\ is_Some (find_tenant s (a_tenantCognitoId a))
  /\ match a_leaseId a with
     | Some l => is_Some (find_lease s l)
     | None => True
     end
  /\ a_id a < s_nextApplicationId s.

Definition wf_property (s : Store) (p : Property) : Prop :=
  is_Some (find_location s (p_locationId p))
  /\ is_Some (find_manager s (p_managerCognitoId p)).

Record wf_store (s : Store) : Prop := {
  wf_applications : Forall (wf_application s) (s_applications s);
  wf_properties : Forall (wf_property s) (s_properties s);
  wf_leases : Forall (fun l => l_id l < s_nextLeaseId s) (s_leases s);
  wf_application_ids : NoDup (map a_id (s_applications s));
}.

(** I1: only an approved application carries a lease. *)
Definition lease_implies_approved (s : Store) : Prop :=
  Forall (fun a => is_Some (a_leaseId a) -> a_status a = Approved) (s_applications s).

(** *** Submissions *)

(** The two checks [createApplication] makes on the body before it turns
    to the store. *)
Definition passes_validation (body : gmap string jsval) : Prop :=
  truthy (field body "propertyId") = true
  /\ truthy (field body "tenantCognitoId") = true
  /\ truthy (field body "name") = true
  /\ truthy (field body "email") = true
  /\ truthy (field body "phoneNumber") = true
  /\ emailRegex_test (field body "email") = true.

(** The first check of [createApplication]: the five required fields are
    there and truthy. *)
Definition required_present (body : gmap string jsval) : bool :=
  truthy (field body "propertyId") && truthy (field body "tenantCognitoId")
  && truthy (field body "name") && truthy (field body "email")
  && truthy (field body "phoneNumber").

(** The applications of tenant [cid] for property [pid]. *)
Definition applications_of (s : Store) (pid : Z) (cid : string) : list Application :=
  List.filter (fun a => bool_decide (a_propertyId a = pid)
                        && bool_decide (a_tenantCognitoId a = cid))
    (s_applications s).

(** *** Queries *)

(** The query that selects nothing: either selector missing (or falsy), or a
    [userType] that is neither "tenant" nor "manager". *)
Definition no_selector (query : gmap string jsval) : Prop :=
  truthy (field query "userId") = false
  \/ truthy (field query "userType") = false
  \/ (js_is (field query "userType") "tenant" = false
      /\ js_is (field query "userType") "manager" = false).

(** A computation that leaves the store as it finds it. *)
Definition readonly {A : Type} (m : M A) : Prop :=
  forall w, w_store (snd (m w)) = w_store w.

(** *** The effect of the lease issuance transaction

    The store after application [a] (key [n]) has been approved and the
    lease starts at [now]:
    the lease issued from property [p] with end date [e], the tenant added
    to the tenants of the property, the application approved and linked to
    the lease, the rival pending applications for the property denied. *)
Definition issued_lease (s : Store) (now e : Z) (p : Property) (a : Application) : Lease :=
  {| l_id := s_nextLeaseId s; l_startDate := now; l_endDate := e;
     l_rent := p_pricePerMonth p; l_deposit := p_securityDeposit p;
     l_propertyId := a_propertyId a; l_tenantCognitoId := a_tenantCognitoId a |}.

Definition approve_row (n lid : Z) : Application -> Application :=
  update_row n (fun x => set_leaseId (Some lid) (set_status Approved x)).

Definition deny_rival (n pid : Z) : Application -> Application :=
  update_rows (fun x => bool_decide (a_propertyId x = pid)
                        && negb (bool_decide (a_id x = n))
                        && bool_decide (a_status x = Pending))
              (set_status Denied).

Definition issue_lease (now e n : Z) (p : Property) (a : Application) (s : Store) : Store :=
  with_applications (map (deny_rival n (a_propertyId a)))
    (with_applications (map (approve_row n (s_nextLeaseId s)))
       (with_properties (map (connect_tenant (a_propertyId a) (a_tenantCognitoId a)))
          (insert_lease (issued_lease s now e p a) s))).

(** *** The exposed operations and the states they reach *)
Inductive request : Type :=
  | ListApplications (query : gmap string jsval)
  | CreateApplication (body : gmap string jsval)
  | UpdateApplicationStatus (id : string) (status : jsval).

(** The store after request [r] is served, [now] being the first reading
    the handler takes of the clock. *)
Definition serve (rt : Runtime) (now : Z) (r : request) (s : Store) : Store :=
  let w := {| w_store := s; w_log := [] |} in
  w_store
    match r with
    | ListApplications query => snd (listApplications now query w)
    | CreateApplication body => snd (createApplication rt now body w)
    | UpdateApplicationStatus id status => snd (updateApplicationStatus rt now id status w)
    end.

(** A fresh system: no application and no lease yet. *)
Definition initial (s : Store) : Prop :=
  s_applications s = [] /\ s_leases s = [] /\ wf_store s.

(** What every reachable state satisfies (lemma [reachable_invariant]). *)
Definition invariant (now : Z) (s : Store) : Prop :=
  wf_store s /\ lease_implies_approved s /\ single_active_lease s now.

(** [reachable rt now s]: requests served one after the other, with first
    readings of the clock that never go back, lead from a fresh system to
    store [s], the last of them at [now]. *)
Inductive reachable (rt : Runtime) : Z -> Store -> Prop :=
  | reachable_initial now s : initial s -> reachable rt now s
  | reachable_serve now now' r s :
      reachable rt now s -> now <= now' -> reachable rt now' (serve rt now' r s).

(** ** What the further properties are stated with *)

(** The leases of tenant [cid] on property [pid], as the lease query of
    [listApplications] selects them. *)
Definition leases_of (s : Store) (pid : Z) (cid : string) : list Lease :=
  List.filter (fun l => bool_decide (l_tenantCognitoId l = cid)
                        && bool_decide (l_propertyId l = pid))
    (s_leases s).

Definition is_read (a : access) : bool :=
  match a with
  | Read _ => true
  | Write _ => false
  end.

(** A computation that only reads: it leaves the store as it finds it and
    adds nothing but reads to the log of accesses. *)
Definition reads_only {A : Type} (m : M A) : Prop :=
  forall w, exists l,
    snd (m w) = {| w_store := w_store w; w_log := w_log w ++ l |}
    /\ forallb is_read l = true.

(** *** The strings a regular expression denotes *)
Module RegexSem.
Import Regex.

Inductive denotes : regex -> string -> Prop :=
  | denotes_eps : denotes Eps EmptyString
  | denotes_class p c : p c = true -> denotes (Class p) (String c EmptyString)
  | denotes_cat r1 r2 s1 s2 :
      denotes r1 s1 -> denotes r2 s2 -> denotes (Cat r1 r2) (String.append s1 s2)
  | denotes_alt_l r1 r2 s : denotes r1 s -> denotes (Alt r1 r2) s
  | denotes_alt_r r1 r2 s : denotes r2 s -> denotes (Alt r1 r2) s
  | denotes_star_nil r : denotes (Star r) EmptyString
  | denotes_star_cons r s1 s2 :
      denotes r s1 -> denotes (Star r) s2 -> denotes (Star r) (String.append s1 s2).

Fixpoint allChars (p : ascii -> bool) (s : string) : bool :=
  match s with
  | EmptyString => true
  | String c s' => p c && allChars p s'
  end.

End RegexSem.

(** A part of an e-mail address: a string that is not empty and has no
    white space and no [@]. *)
Definition emailPart (s : string) : bool :=
  negb (String.eqb s "")
  && RegexSem.allChars (fun c => negb (Regex.isWhiteSpace c) && negb (Ascii.eqb c "@")) s.

(** ** The application form of the client (the caller of [createApplication])

    [currentStep] is a state of the component; the handlers of a render
    close over the value of that render, and [handleNext] sets the state
    after it has awaited the validation, so the value a handler starts from
    is one that has been rendered, not always the last.  A handler yields
    the argument of its call of [setCurrentStep], if it makes one. *)
Module ApplicationForm.

Record Step : Type := {
  number : Z;
  title : string;
  fields : list string;
}.

Definition steps : list Step :=
  [ {| number := 1; title := "Personal Information";
       fields := ["firstName"; "lastName"; "email"; "phone"; "dateOfBirth"] |};
    {| number := 2; title := "Current Address";
       fields := ["currentAddress"; "currentCity"; "currentState"; "currentZip";
                  "moveInDate"] |};
    {| number := 3; title := "Employment";
       fields := ["employmentStatus"; "employer"; "occupation"; "annualIncome";
                  "employmentLength"] |};
    {| number := 4; title := "References";
       fields := ["emergencyContactName"; "emergencyContactPhone";
                  "emergencyContactRelationship"; "previousLandlordName";
                  "previousLandlordPhone"] |};
    {| number := 5; title := "Additional Info";
       fields := ["numberOfOccupants"; "hasPets"; "petDetails"; "hasVehicles";
                  "vehicleDetails"] |};
    {| number := 6; title := "Background";
       fields := ["hasEvictionHistory"; "evictionDetails"; "hasCriminalHistory";
                  "criminalDetails"; "additionalNotes"] |} ]%string.

(** [arr[i]]: [undefined] out of range. *)
Definition at_index {A : Type} (arr : list A) (i : Z) : option A :=
  if i <? 0 then None else nth_error arr (Z.to_nat i).

(** [steps[currentStep - 1].fields]; [None] is the TypeError of a property
    read on [undefined]. *)
Definition currentStepFields (currentStep : Z) : option (list string) :=
  fields <$> at_index steps (currentStep - 1).

(** [isValid] is what [form.trigger(currentStepFields)] has answered. *)
Definition handleNext (isValid : bool) (currentStep : Z) : option Z :=
  if isValid && (currentStep <? Z.of_nat (length steps))
  then Some (currentStep + 1)
  else None.

Definition handlePrevious (currentStep : Z) : option Z :=
  if currentStep >? 1 then Some (currentStep - 1) else None.

Inductive event : Type :=
  | Next (isValid : bool)
  | Previous.

Definition handle (e : event) (currentStep : Z) : option Z :=
  match e with
  | Next isValid => handleNext isValid currentStep
  | Previous => handlePrevious currentStep
  end.

(** [renders h vs]: the component has rendered with the values [h] of
    [currentStep], the last one first, and the validation has passed for the
    steps [vs].  It mounts with [useState(1)]; then a handler of one of the
    renders runs. *)
Inductive renders : list Z -> list Z -> Prop :=
  | renders_mount : renders [1] []
  | renders_event h vs c e :
      renders h vs -> In c h ->
      renders (match handle e c with Some c' => c' :: h | None => h end)
              (match e with Next true => c :: vs | _ => vs end).

End ApplicationForm.

(** ** A small instance: two properties, two tenants, an empty application
    table; the runtime reads decimal numerals. *)
Module Sample.

Fixpoint digits (acc : Z) (s : string) : option Z :=
  match s with
  | EmptyString => Some acc
  | String c s' =>
      let n := Z.of_nat (nat_of_ascii c) in
      if (48 <=? n) && (n <=? 57) then digits (10 * acc + (n - 48)) s' else None
  end.

Definition rt : Runtime :=
  {| Number := fun s => match s with EmptyString => Some 0 | _ => digits 0 s end;
     Date_parse := fun _ => None;
     schema_accepts := fun _ => true;
     tick := fun _ _ => 0%nat |}.

(** The same runtime with a clock that moves on by one millisecond from
    each reading to the next. *)
Definition ticking : Runtime :=
  {| Number := Number rt;
     Date_parse := Date_parse rt;
     schema_accepts := schema_accepts rt;
     tick := fun _ _ => 1%nat |}.

Definition loft : Property :=
  {| p_id := 1; p_name := "Loft"; p_pricePerMonth := 1500;
     p_securityDeposit := 3000; p_managerCognitoId := "M1";
     p_locationId := 1; p_tenants := ∅ |}.

Definition store0 : Store :=
  {| s_applications := [];
     s_leases := [];
     s_properties :=
       [ loft;
         {| p_id := 2; p_name := "Flat"; p_pricePerMonth := 900;
            p_securityDeposit := 1800; p_managerCognitoId := "M1";
            p_locationId := 2; p_tenants := ∅ |} ];
     s_tenants := [ {| t_cognitoId := "T1"; t_name := "Ada" |};
                    {| t_cognitoId := "T2"; t_name := "Bob" |} ];
     s_managers := [ {| m_cognitoId := "M1"; m_name := "Max" |} ];
     s_locations := [ {| loc_id := 1; loc_address := "1 Main St" |};
                      {| loc_id := 2; loc_address := "2 Side St" |} ];
     s_nextApplicationId := 1;
     s_nextLeaseId := 1 |}.

Definition world0 : World := {| w_store := store0; w_log := [] |}.

(** The body of scenario 1 of the specification, for tenant [cid] and
    property [pid]. *)
Definition submission (pid : Z) (cid : string) : gmap string jsval :=
  list_to_map [ ("propertyId", JNum pid); ("tenantCognitoId", JStr cid);
                ("name", JStr "A"); ("email", JStr "a@b.com");
                ("phoneNumber", JStr "555-0100") ]%string.

(** The same body with a status of the caller's choice. *)
Definition selfApproved (pid : Z) (cid : string) : gmap string jsval :=
  <["status" := JStr "Approved"]> (submission pid cid).

(** 2023-01-31, 2023-03-10, 2023-03-31 and 2023-04-03 at 00:00:00 UTC, and
    2024-02-29 at 12:00:00 UTC. *)
Definition jan31 : Z := 1675123200000.
Definition mar10 : Z := 1678406400000.
Definition mar31 : Z := 1680220800000.
Definition apr3 : Z := 1680480000000.
Definition leapDay : Z := 1709208000000.

(** The row the submission of tenant [cid] for property 1 creates under
    key [id]. *)
Definition application (id : Z) (cid : string) (st : ApplicationStatus) : Application :=
  {| a_id := id; a_applicationDate := jan31; a_status := st;
     a_name := "A"; a_email := "a@b.com"; a_phoneNumber := "555-0100";
     a_optional := optionalData rt (submission 1 cid);
     a_propertyId := 1; a_tenantCognitoId := cid; a_leaseId := None |}.

(** What the handler answers to the submission of T1 on the fresh store. *)
Definition created : Joined :=
  {| j_app := application 1 "T1" Pending;
     j_property := loft;
     j_location := Some {| loc_id := 1; loc_address := "1 Main St" |};
     j_manager := Some {| m_cognitoId := "M1"; m_name := "Max" |};
     j_tenant := {| t_cognitoId := "T1"; t_name := "Ada" |};
     j_lease := None |}.

(** Tenant T1 applies for property 1; then tenant T2 does; the application
    of T1 is approved, or denied. *)
Definition submitted : Store :=
  serve rt jan31 (CreateApplication (submission 1 "T1")) store0.
Definition rivals : Store :=
  serve rt jan31 (CreateApplication (submission 1 "T2")) submitted.
Definition approved : Store :=
  serve rt jan31 (UpdateApplicationStatus "1" (JStr "Approved")) submitted.
Definition denied : Store :=
  serve rt jan31 (UpdateApplicationStatus "1" (JStr "Denied")) submitted.

(** After the denial T1 applies for property 1 once more; that second
    application is approved on 10 March. *)
Definition reapplied : Store :=
  serve rt jan31 (CreateApplication (submission 1 "T1")) denied.
Definition reapproved : Store :=
  serve rt mar10 (UpdateApplicationStatus "2" (JStr "Approved")) reapplied.

End Sample.

(** * Properties *)

(** ** The calendar *)
Module JSDateFacts.
Import JSDate Civil.

Lemma iterate_0 {A : Type} (f : A -> A) x : iterate f 0 x = x.
Proof. reflexivity. Qed.

Lemma iterate_S {A : Type} (f : A -> A) k x : iterate f (S k) x = iterate f k (f x).
Proof. reflexivity. Qed.

Lemma DayFromYear_succ y : DayFromYear (y + 1) = DayFromYear y + DaysInYear y.
Proof.
  unfold DayFromYear, DaysInYear.
  repeat match goal with |- context [?a =? ?b] => destruct (Z.eqb_spec a b); simpl end;
  Z.div_mod_to_equations; lia.
Qed.

Lemma DaysInYear_range y : 365 <= DaysInYear y <= 366.
Proof. unfold DaysInYear. repeat match goal with |- context [?a =? ?b] => destruct (Z.eqb_spec a b); simpl end; lia. Qed.

Lemma DayFromYear_approx y :
  146097 * (y - 1601) - 699 <= 400 * (DayFromYear y - DayFromYear 1601) <= 146097 * (y - 1601) + 396.
Proof.
  change (DayFromYear 1601) with (-134774).
  unfold DayFromYear. Z.div_mod_to_equations. lia.
Qed.

Lemma YearFromDay_spec d :
  DayFromYear (YearFromDay d) <= d < DayFromYear (YearFromDay d + 1).
Proof.
  unfold YearFromDay.
  set (n := d - DayFromYear 1601).
  set (k := 400 * n / 146097).
  assert (Hk : 146097 * k <= 400 * n < 146097 * k + 146097).
  { unfold k. Z.div_mod_to_equations. lia. }
  pose proof (DayFromYear_approx (1601 + k + 1)) as H1.
  pose proof (DayFromYear_approx (1601 + k)) as H0.
  pose proof (DayFromYear_approx (1601 + k - 1)) as Hm.
  pose proof (DayFromYear_approx (1601 + k + 2)) as H2.
  assert (E2 : 1601 + k + 1 + 1 = 1601 + k + 2) by lia.
  assert (E0 : 1601 + k - 1 + 1 = 1601 + k) by lia.
  unfold n in Hk.
  destruct (Z.leb_spec (DayFromYear (1601 + k + 1)) d).
  - rewrite E2. lia.
  - destruct (Z.leb_spec (DayFromYear (1601 + k)) d).
    + lia.
    + rewrite E0. lia.
Qed.

Lemma DayFromYear_mono y y' : y <= y' -> DayFromYear y <= DayFromYear y'.
Proof.
  intros H. replace y' with (y + Z.of_nat (Z.to_nat (y' - y))) by lia.
  induction (Z.to_nat (y' - y)) as [|n IH].
  - replace (y + Z.of_nat 0) with y by lia. lia.
  - replace (y + Z.of_nat (S n)) with (y + Z.of_nat n + 1) by lia.
    rewrite DayFromYear_succ. pose proof (DaysInYear_range (y + Z.of_nat n)). lia.
Qed.

Lemma YearFromDay_unique y d :
  DayFromYear y <= d < DayFromYear (y + 1) -> YearFromDay d = y.
Proof.
  intros [Hl Hu]. pose proof (YearFromDay_spec d) as [Sl Su].
  destruct (Z.lt_trichotomy (YearFromDay d) y) as [Hlt|[->|Hgt]]; [|reflexivity|].
  - pose proof (DayFromYear_mono (YearFromDay d + 1) y ltac:(lia)). lia.
  - pose proof (DayFromYear_mono (y + 1) (YearFromDay d) ltac:(lia)). lia.
Qed.

Lemma leapOfYear_range y : 0 <= leapOfYear y <= 1.
Proof. unfold leapOfYear. destruct (_ =? _); lia. Qed.

Lemma DaysInYear_leap y : DaysInYear y = 365 + leapOfYear y.
Proof. unfold leapOfYear. pose proof (DaysInYear_range y). destruct (Z.eqb_spec (DaysInYear y) 366); lia. Qed.

Lemma DaysInMonth_range y m : 28 <= DaysInMonth y m <= 31.
Proof.
  pose proof (leapOfYear_range y). unfold DaysInMonth.
  destruct m as [|p|p]; try lia.
  do 4 (try destruct p as [p|p|]; try lia).
Qed.

Lemma monthStart_succ y m : 0 <= m < 11 ->
  monthStart (m + 1) (leapOfYear y) = monthStart m (leapOfYear y) + DaysInMonth y m.
Proof.
  intros H. assert (m = 0 \/ m = 1 \/ m = 2 \/ m = 3 \/ m = 4 \/ m = 5 \/ m = 6 \/ m = 7 \/ m = 8 \/ m = 9 \/ m = 10) as C by lia.
  repeat (destruct C as [->|C]); try subst m;
  match goal with |- context [monthStart (?a + 1) _] => let v := eval compute in (a + 1) in change (a + 1) with v end;
  cbn [DaysInMonth monthStart]; lia.
Qed.

Lemma civil_MakeDate y m d tw :
  0 <= m < 12 -> 1 <= d <= DaysInMonth y m -> 0 <= tw < msPerDay ->
  civil (MakeDate (MakeDay y m d) tw) = (y, m, d) /\
  TimeWithinDay (MakeDate (MakeDay y m d) tw) = tw.
Proof.
  intros Hm Hd Ht.
  assert (HD : Day (MakeDate (MakeDay y m d) tw) = MakeDay y m d).
  { unfold Day, MakeDate, msPerDay in *. Z.div_mod_to_equations. lia. }
  assert (HT : TimeWithinDay (MakeDate (MakeDay y m d) tw) = tw).
  { unfold TimeWithinDay, MakeDate, msPerDay in *. Z.div_mod_to_equations. lia. }
  split; [|exact HT].
  assert (Hmd : MakeDay y m d = DayFromYear y + monthStart m (leapOfYear y) + d - 1).
  { unfold MakeDay. rewrite Z.div_small, Z.mod_small by lia. now rewrite Z.add_0_r. }
  pose proof (leapOfYear_range y) as Hl.
  assert (HY : YearFromTime (MakeDate (MakeDay y m d) tw) = y).
  { unfold YearFromTime. rewrite HD, Hmd. apply YearFromDay_unique.
    rewrite DayFromYear_succ, DaysInYear_leap.
    assert (m = 0 \/ m = 1 \/ m = 2 \/ m = 3 \/ m = 4 \/ m = 5 \/ m = 6 \/ m = 7 \/ m = 8 \/ m = 9 \/ m = 10 \/ m = 11) as C by lia.
    repeat (destruct C as [->|C]); try subst m; cbn [DaysInMonth monthStart] in *; lia. }
  assert (HL : InLeapYear (MakeDate (MakeDay y m d) tw) = leapOfYear y).
  { unfold InLeapYear, leapOfYear. now rewrite HY. }
  assert (HW : DayWithinYear (MakeDate (MakeDay y m d) tw) = monthStart m (leapOfYear y) + d - 1).
  { unfold DayWithinYear. rewrite HD, HY, Hmd. lia. }
  assert (HM : MonthFromTime (MakeDate (MakeDay y m d) tw) = m).
  { unfold MonthFromTime. rewrite HW, HL.
    assert (m = 0 \/ m = 1 \/ m = 2 \/ m = 3 \/ m = 4 \/ m = 5 \/ m = 6 \/ m = 7 \/ m = 8 \/ m = 9 \/ m = 10 \/ m = 11) as C by lia.
    repeat (destruct C as [->|C]); try subst m; cbn [DaysInMonth monthStart] in *;
    repeat match goal with |- context [?a <? ?b] => destruct (Z.ltb_spec a b); try lia end. }
  unfold civil. rewrite HY, HM. unfold DateFromTime. rewrite HW, HM, HL. f_equal; lia.
Qed.

Lemma DayWithinYear_range t : 0 <= DayWithinYear t < 365 + InLeapYear t.
Proof.
  unfold DayWithinYear, InLeapYear, YearFromTime.
  pose proof (YearFromDay_spec (Day t)) as [Hl Hu].
  rewrite DayFromYear_succ, DaysInYear_leap in Hu. unfold leapOfYear in Hu. lia.
Qed.

Lemma InLeapYear_leapOfYear t : InLeapYear t = leapOfYear (YearFromTime t).
Proof. reflexivity. Qed.

Lemma TimeWithinDay_range t : 0 <= TimeWithinDay t < msPerDay.
Proof. unfold TimeWithinDay, msPerDay. apply Z.mod_pos_bound. lia. Qed.

Lemma MonthFromTime_range t : 0 <= MonthFromTime t < 12.
Proof.
  unfold MonthFromTime.
  repeat match goal with |- context [?a <? ?b] => destruct (a <? b) end; lia.
Qed.

Lemma DateFromTime_range t :
  1 <= DateFromTime t <= DaysInMonth (YearFromTime t) (MonthFromTime t).
Proof.
  pose proof (DayWithinYear_range t) as Hw.
  rewrite InLeapYear_leapOfYear in Hw.
  pose proof (leapOfYear_range (YearFromTime t)) as Hl.
  unfold DateFromTime, MonthFromTime. rewrite InLeapYear_leapOfYear.
  repeat match goal with |- context [?a <? ?b] => destruct (Z.ltb_spec a b) end;
    cbn [monthStart DaysInMonth]; lia.
Qed.

Lemma MakeDate_civil t :
  MakeDate (MakeDay (YearFromTime t) (MonthFromTime t) (DateFromTime t)) (TimeWithinDay t) = t.
Proof.
  pose proof (MonthFromTime_range t) as Hm.
  unfold MakeDay. rewrite Z.div_small, Z.mod_small, Z.add_0_r by lia.
  unfold DateFromTime. rewrite InLeapYear_leapOfYear.
  unfold DayWithinYear, MakeDate, Day, TimeWithinDay, msPerDay.
  Z.div_mod_to_equations. lia.
Qed.

Lemma MakeDay_date y m d k : MakeDay y m (d + k) = MakeDay y m d + k.
Proof. unfold MakeDay. lia. Qed.

Lemma MakeDay_norm y m d : MakeDay y m d = MakeDay (y + m / 12) (m mod 12) d.
Proof.
  unfold MakeDay. rewrite Z.mod_mod by lia.
  rewrite (Z.div_small (m mod 12)) by (apply Z.mod_pos_bound; lia).
  now rewrite Z.add_0_r.
Qed.

Lemma MakeDay_month_succ y m d :
  MakeDay y (m + 1) d = MakeDay y m d + DaysInMonth (y + m / 12) (m mod 12).
Proof.
  rewrite (MakeDay_norm y m), (MakeDay_norm y (m + 1)).
  assert (Hm : 0 <= m mod 12 < 12) by (apply Z.mod_pos_bound; lia).
  destruct (Z.eq_dec (m mod 12) 11) as [E|E].
  - replace (y + (m + 1) / 12) with (y + m / 12 + 1) by (Z.div_mod_to_equations; lia).
    replace ((m + 1) mod 12) with 0 by (Z.div_mod_to_equations; lia).
    rewrite E. unfold MakeDay.
    change (0 / 12) with 0. change (11 / 12) with 0. change (0 mod 12) with 0.
    change (11 mod 12) with 11. rewrite !Z.add_0_r.
    rewrite DayFromYear_succ, DaysInYear_leap. cbn [monthStart DaysInMonth]. lia.
  - replace (y + (m + 1) / 12) with (y + m / 12) by (Z.div_mod_to_equations; lia).
    replace ((m + 1) mod 12) with (m mod 12 + 1) by (Z.div_mod_to_equations; lia).
    generalize dependent (m mod 12). generalize (y + m / 12). clear. intros q r Hr E.
    unfold MakeDay.
    rewrite (Z.div_small r), (Z.div_small (r + 1)), (Z.mod_small r), (Z.mod_small (r + 1)),
      !Z.add_0_r by lia.
    rewrite monthStart_succ by lia. lia.
Qed.

Lemma leap_not_consecutive y : leapOfYear y = 1 -> leapOfYear (y + 1) = 0.
Proof.
  unfold leapOfYear.
  destruct (Z.eqb_spec (DaysInYear y) 366) as [H|H]; [|discriminate].
  destruct (Z.eqb_spec (DaysInYear (y + 1)) 366) as [H'|H']; [|reflexivity].
  exfalso. revert H H'. unfold DaysInYear.
  repeat match goal with |- context [?a =? ?b] => destruct (Z.eqb_spec a b) end;
    cbn [negb]; intros; try lia; Z.div_mod_to_equations; lia.
Qed.

Lemma addMonths_0 t : addMonths t 0 = t.
Proof. unfold addMonths. rewrite Z.add_0_r. apply MakeDate_civil. Qed.

Lemma addMonths_succ t k :
  addMonths t (k + 1) = addMonths t k
    + DaysInMonth (YearFromTime t + (MonthFromTime t + k) / 12) ((MonthFromTime t + k) mod 12) * msPerDay.
Proof.
  unfold addMonths, MakeDate. rewrite Z.add_assoc, MakeDay_month_succ. lia.
Qed.

Lemma addMonths_lt t k : addMonths t k < addMonths t (k + 1).
Proof.
  rewrite addMonths_succ.
  pose proof (DaysInMonth_range (YearFromTime t + (MonthFromTime t + k) / 12) ((MonthFromTime t + k) mod 12)).
  unfold msPerDay. lia.
Qed.

Lemma addMonths_mono t j k : j < k -> addMonths t j < addMonths t k.
Proof.
  intros H. replace k with (j + 1 + Z.of_nat (Z.to_nat (k - j - 1))) by lia.
  induction (Z.to_nat (k - j - 1)) as [|n IH].
  - rewrite Z.add_0_r. apply addMonths_lt.
  - replace (j + 1 + Z.of_nat (S n)) with (j + 1 + Z.of_nat n + 1) by lia.
    pose proof (addMonths_lt t (j + 1 + Z.of_nat n)). lia.
Qed.

Lemma advanceMonth_step t :
  advanceMonth t = t + DaysInMonth (YearFromTime t) (MonthFromTime t) * msPerDay.
Proof.
  unfold advanceMonth. replace 1 with (0 + 1) by lia. rewrite addMonths_succ, addMonths_0.
  pose proof (MonthFromTime_range t).
  rewrite Z.add_0_r, Z.div_small, Z.mod_small, Z.add_0_r by lia. reflexivity.
Qed.

Lemma advanceMonth_bounds t : t + 28 * msPerDay <= advanceMonth t <= t + 31 * msPerDay.
Proof.
  rewrite advanceMonth_step.
  pose proof (DaysInMonth_range (YearFromTime t) (MonthFromTime t)). unfold msPerDay. lia.
Qed.

Lemma setMonth_advance t :
  setMonth t (getMonth t + 1) = TimeClip (advanceMonth t).
Proof.
  unfold setMonth, getMonth, advanceMonth, addMonths, LocalTime, UTC, LocalTZA.
  rewrite !Z.add_0_r, Z.sub_0_r. reflexivity.
Qed.

Lemma TimeClip_Some t e : TimeClip t = Some e -> e = t.
Proof. unfold TimeClip. destruct (_ <=? _); intros H; [now injection H|discriminate H]. Qed.

Lemma TimeClip_in_range t : - maxTime <= t <= maxTime -> TimeClip t = Some t.
Proof. intros H. unfold TimeClip. destruct (Z.leb_spec (Z.abs t) maxTime); [reflexivity|lia]. Qed.

(** civil date of [addMonths] when the day exists in every month *)
Lemma civil_addMonths t k :
  DateFromTime t <= 28 ->
  civil (addMonths t k)
  = (YearFromTime t + (MonthFromTime t + k) / 12, (MonthFromTime t + k) mod 12, DateFromTime t)
  /\ TimeWithinDay (addMonths t k) = TimeWithinDay t.
Proof.
  intros HD. unfold addMonths. rewrite MakeDay_norm.
  apply civil_MakeDate.
  - apply Z.mod_pos_bound. lia.
  - pose proof (DateFromTime_range t).
    pose proof (DaysInMonth_range (YearFromTime t + (MonthFromTime t + k) / 12) ((MonthFromTime t + k) mod 12)).
    lia.
  - apply TimeWithinDay_range.
Qed.

Lemma addMonths_addMonths t j k :
  DateFromTime t <= 28 -> addMonths (addMonths t j) k = addMonths t (j + k).
Proof.
  intros HD. destruct (civil_addMonths t j HD) as [Hc Ht].
  unfold civil in Hc. injection Hc as HY HM HDt.
  unfold addMonths at 1. rewrite HY, HM, HDt, Ht.
  unfold addMonths. f_equal.
  rewrite MakeDay_norm, (MakeDay_norm _ (MonthFromTime t + (j + k))).
  f_equal.
  - Z.div_mod_to_equations. lia.
  - Z.div_mod_to_equations. lia.
Qed.

Lemma advanceMonths_addMonths k t :
  DateFromTime t <= 28 -> iterate advanceMonth k t = addMonths t (Z.of_nat k).
Proof.
  revert t. induction k as [|k IH]; intros t HD.
  - rewrite iterate_0. now rewrite addMonths_0.
  - rewrite iterate_S, IH.
    + unfold advanceMonth. rewrite addMonths_addMonths by assumption. f_equal. lia.
    + destruct (civil_addMonths t 1 HD) as [Hc _]. unfold civil in Hc.
      unfold advanceMonth. injection Hc as _ _ ->. assumption.
Qed.

Section Loop.
Variable today : Z.
Hypothesis today_range : today + 31 * msPerDay <= maxTime.

Lemma nextPaymentLoop_unfold fuel t :
  nextPaymentLoop fuel today t =
  if t <=? today then
    match fuel with
    | O => Some t
    | S fuel' =>
        match setMonth t (getMonth t + 1) with
        | Some d => nextPaymentLoop fuel' today d
        | None => None
        end
    end
  else Some t.
Proof. destruct fuel; reflexivity. Qed.

Lemma nextPaymentLoop_spec fuel t :
  - maxTime <= t ->
  (t <= today -> (today - t) / (28 * msPerDay) + 1 <= Z.of_nat fuel) ->
  exists k : nat,
    nextPaymentLoop fuel today t = Some (iterate advanceMonth k t)
    /\ today < iterate advanceMonth k t
    /\ forall j : nat, (j < k)%nat -> iterate advanceMonth j t <= today.
Proof.
  revert t. induction fuel as [|fuel IH]; intros t Hlo Hfuel;
    rewrite nextPaymentLoop_unfold; destruct (Z.leb_spec t today) as [Hle|Hgt].
  - exfalso. specialize (Hfuel Hle).
    assert (0 <= (today - t) / (28 * msPerDay)) by (apply Z.div_pos; unfold msPerDay; lia).
    lia.
  - exists O. rewrite iterate_0. split; [reflexivity|]. split; [assumption|]. intros j Hj. lia.
  - pose proof (advanceMonth_bounds t) as Hb.
    rewrite setMonth_advance, TimeClip_in_range by (unfold msPerDay in *; lia).
    destruct (IH (advanceMonth t)) as (k & Hk & Hgt & Hbelow).
    + unfold msPerDay in *. lia.
    + intros Hle'. specialize (Hfuel Hle).
      assert ((today - advanceMonth t) / (28 * msPerDay) + 1 <= (today - t) / (28 * msPerDay)).
      { unfold msPerDay in *. Z.div_mod_to_equations. lia. }
      lia.
    + exists (S k). rewrite iterate_S. split; [assumption|]. split; [assumption|].
      intros [|j] Hj; [rewrite iterate_0; assumption|].
      rewrite iterate_S. apply Hbelow. lia.
  - exists O. rewrite iterate_0. split; [reflexivity|]. split; [assumption|]. intros j Hj. lia.
Qed.

End Loop.

Lemma calculateNextPaymentDate_iterate today start :
  - maxTime <= start -> today + 31 * msPerDay <= maxTime ->
  exists k : nat,
    calculateNextPaymentDate today start = Some (iterate advanceMonth k start)
    /\ today < iterate advanceMonth k start
    /\ forall j : nat, (j < k)%nat -> iterate advanceMonth j start <= today.
Proof.
  intros Hlo Hhi. unfold calculateNextPaymentDate.
  apply nextPaymentLoop_spec; try assumption.
  intros Hle.
  assert (0 <= (today - start) / (28 * msPerDay)) by (apply Z.div_pos; unfold msPerDay; lia).
  lia.
Qed.

Lemma calculateNextPaymentDate_least today start :
  - maxTime <= start -> today + 31 * msPerDay <= maxTime ->
  getDate start <= 28 ->
  exists k : Z,
    0 <= k
    /\ calculateNextPaymentDate today start = Some (addMonths start k)
    /\ today < addMonths start k
    /\ forall j : Z, 0 <= j -> today < addMonths start j -> k <= j.
Proof.
  intros Hlo Hhi HD.
  assert (HD' : DateFromTime start <= 28).
  { revert HD. unfold getDate, LocalTime, LocalTZA. now rewrite Z.add_0_r. }
  destruct (calculateNextPaymentDate_iterate today start Hlo Hhi) as (k & Hk & Hgt & Hbelow).
  exists (Z.of_nat k). rewrite advanceMonths_addMonths in Hk, Hgt by assumption.
  split; [lia|]. split; [assumption|]. split; [assumption|].
  intros j Hj Hlt.
  destruct (Z.le_gt_cases (Z.of_nat k) j) as [|Hjk]; [assumption|exfalso].
  specialize (Hbelow (Z.to_nat j) ltac:(lia)).
  rewrite advanceMonths_addMonths, Z2Nat.id in Hbelow by assumption. lia.
Qed.

Lemma setFullYear_nextYear t :
  setFullYear t (getFullYear t + 1) = TimeClip (nextYear t).
Proof.
  unfold setFullYear, getFullYear, nextYear, LocalTime, UTC, LocalTZA.
  rewrite !Z.add_0_r, Z.sub_0_r. reflexivity.
Qed.

Lemma civil_nextYear t :
  civil (nextYear t)
  = (if isLeapDay t then (YearFromTime t + 1, 2, 1)
     else (YearFromTime t + 1, MonthFromTime t, DateFromTime t))
  /\ TimeWithinDay (nextYear t) = TimeWithinDay t.
Proof.
  pose proof (MonthFromTime_range t) as HM.
  pose proof (DateFromTime_range t) as HD.
  pose proof (TimeWithinDay_range t) as HT.
  pose proof (leapOfYear_range (YearFromTime t)) as HL.
  pose proof (leapOfYear_range (YearFromTime t + 1)) as HL'.
  unfold nextYear, isLeapDay.
  destruct (Z.eqb_spec (MonthFromTime t) 1) as [E1|E1];
    [destruct (Z.eqb_spec (DateFromTime t) 29) as [E2|E2]|]; cbn [andb].
  - rewrite E1, E2 in *. cbn [DaysInMonth] in HD.
    assert (Hl : leapOfYear (YearFromTime t + 1) = 0) by (apply leap_not_consecutive; lia).
    replace (MakeDay (YearFromTime t + 1) 1 29) with (MakeDay (YearFromTime t + 1) 2 1).
    + apply civil_MakeDate; cbn [DaysInMonth]; lia.
    + unfold MakeDay. change (2 / 12) with 0. change (1 / 12) with 0.
      change (2 mod 12) with 2. change (1 mod 12) with 1.
      rewrite !Z.add_0_r, Hl. cbn [monthStart]. lia.
  - apply civil_MakeDate; try lia. rewrite E1 in *. cbn [DaysInMonth] in *. lia.
  - apply civil_MakeDate; try lia.
    replace (DaysInMonth (YearFromTime t + 1) (MonthFromTime t))
      with (DaysInMonth (YearFromTime t) (MonthFromTime t)); [lia|].
    unfold DaysInMonth. destruct (MonthFromTime t) as [|[[|[]|]|[|[]|]|]|]; try reflexivity; lia.
Qed.

Lemma MakeDay_year_succ y m d :
  0 <= m < 12 ->
  MakeDay y m d + 365 <= MakeDay (y + 1) m d <= MakeDay y m d + 366.
Proof.
  intros Hm. pose proof (leapOfYear_range y) as HL.
  pose proof (leapOfYear_range (y + 1)) as HL'.
  assert (Hc : leapOfYear y + leapOfYear (y + 1) <= 1).
  { destruct (Z.eq_dec (leapOfYear y) 1) as [E|E];
      [rewrite (leap_not_consecutive _ E)|]; lia. }
  unfold MakeDay. rewrite Z.div_small, Z.mod_small, !Z.add_0_r by lia.
  rewrite DayFromYear_succ, DaysInYear_leap.
  assert (m = 0 \/ m = 1 \/ m = 2 \/ m = 3 \/ m = 4 \/ m = 5 \/ m = 6 \/ m = 7
          \/ m = 8 \/ m = 9 \/ m = 10 \/ m = 11) as C by lia.
  repeat (destruct C as [->|C]); try subst m; cbn [monthStart]; lia.
Qed.

Lemma nextYear_bounds t :
  t + 365 * msPerDay <= nextYear t <= t + 366 * msPerDay.
Proof.
  pose proof (MonthFromTime_range t) as HM.
  pose proof (MakeDate_civil t) as Ht.
  pose proof (MakeDay_year_succ (YearFromTime t) (MonthFromTime t) (DateFromTime t) HM) as Hy.
  unfold nextYear. revert Ht Hy.
  generalize (MakeDay (YearFromTime t + 1) (MonthFromTime t) (DateFromTime t)).
  generalize (MakeDay (YearFromTime t) (MonthFromTime t) (DateFromTime t)).
  generalize (TimeWithinDay t). clear HM.
  intros tw d d' Ht Hy. unfold MakeDate, msPerDay in *. lia.
Qed.

Lemma setFullYear_in_range t :
  - maxTime <= t -> t + 366 * msPerDay <= maxTime ->
  setFullYear t (getFullYear t + 1) = Some (nextYear t).
Proof.
  intros Hlo Hhi. rewrite setFullYear_nextYear. apply TimeClip_in_range.
  pose proof (nextYear_bounds t). unfold msPerDay in *. lia.
Qed.

End JSDateFacts.

(** ** The store and the database client *)
Section StoreFacts.

#[local] Opaque JSDate.setFullYear JSDate.getFullYear JSDate.setMonth JSDate.getMonth.

Lemma find_map_key {A : Type} (p : A -> bool) (g : A -> A) (l : list A) :
  (forall x, p (g x) = p x) -> List.find p (map g l) = g <$> List.find p l.
Proof.
  intros Hp. induction l as [|x l IH]; [reflexivity|].
  cbn [map List.find]. rewrite Hp. destruct (p x); [reflexivity|exact IH].
Qed.

Lemma find_app_l {A : Type} (p : A -> bool) (l l' : list A) :
  is_Some (List.find p l) -> List.find p (l ++ l') = List.find p l.
Proof.
  induction l as [|x l IH]; cbn [app List.find].
  - intros [? H]. discriminate H.
  - destruct (p x); [reflexivity|exact IH].
Qed.

Lemma find_app_r {A : Type} (p : A -> bool) (l l' : list A) :
  List.find p l = None -> List.find p (l ++ l') = List.find p l'.
Proof.
  induction l as [|x l IH]; cbn [app List.find]; [reflexivity|].
  destruct (p x); [intros H; discriminate H|exact IH].
Qed.

Lemma find_none_Forall {A : Type} (p : A -> bool) (l : list A) :
  Forall (fun x => p x = false) l -> List.find p l = None.
Proof.
  induction 1 as [|x l Hx _ IH]; [reflexivity|]. cbn [List.find]. now rewrite Hx.
Qed.

Lemma find_application_In s n a :
  find_application s n = Some a -> In a (s_applications s) /\ a_id a = n.
Proof.
  intros H. apply List.find_some in H as [Hin Hid].
  split; [assumption|]. now apply bool_decide_eq_true in Hid.
Qed.

Lemma find_property_In s n p :
  find_property s n = Some p -> In p (s_properties s) /\ p_id p = n.
Proof.
  intros H. apply List.find_some in H as [Hin Hid].
  split; [assumption|]. now apply bool_decide_eq_true in Hid.
Qed.

Lemma wf_store_application s a :
  wf_store s -> In a (s_applications s) -> wf_application s a.
Proof. intros [Ha _ _ _] Hin. rewrite List.Forall_forall in Ha. auto. Qed.

Lemma wf_store_property s p :
  wf_store s -> In p (s_properties s) -> wf_property s p.
Proof. intros [_ Hp _ _] Hin. rewrite List.Forall_forall in Hp. auto. Qed.

Lemma find_lease_fresh s :
  wf_store s -> find_lease s (s_nextLeaseId s) = None.
Proof.
  intros [_ _ Hl _]. apply find_none_Forall.
  eapply List.Forall_impl; [|exact Hl]. cbn beta. intros l Hlt.
  apply bool_decide_eq_false. lia.
Qed.

Lemma find_application_fresh s :
  wf_store s -> find_application s (s_nextApplicationId s) = None.
Proof.
  intros [Ha _ _ _]. apply find_none_Forall.
  eapply List.Forall_impl; [|exact Ha]. cbn beta. intros a (_ & _ & _ & Hlt).
  apply bool_decide_eq_false. lia.
Qed.

(** The join of a row of a well-formed store succeeds. *)
Lemma join_ok deep withLease s a :
  wf_store s -> In a (s_applications s) ->
  exists j,
    join deep withLease s a = Ok j
    /\ j_app j = a
    /\ find_property s (a_propertyId a) = Some (j_property j)
    /\ find_tenant s (a_tenantCognitoId a) = Some (j_tenant j)
    /\ j_lease j = (if withLease then a_leaseId a ≫= find_lease s else None).
Proof.
  intros Hwf Hin.
  destruct (wf_store_application s a Hwf Hin) as ([p Hp] & [t Ht] & _ & _).
  destruct (find_property_In _ _ _ Hp) as [Hpin _].
  destruct (wf_store_property s p Hwf Hpin) as ([loc Hloc] & [m Hm]).
  unfold join. rewrite Hp, Ht.
  destruct deep; [rewrite Hloc, Hm|]; eexists; (split; [reflexivity|]); cbn; auto.
Qed.

Lemma set_status_id st a : a_id (set_status st a) = a_id a.
Proof. reflexivity. Qed.

Lemma update_row_id n f a : (forall x, a_id (f x) = a_id x) -> a_id (update_row n f a) = a_id a.
Proof. intros Hf. unfold update_row. destruct (bool_decide _); [apply Hf|reflexivity]. Qed.

Lemma update_rows_id w f a : (forall x, a_id (f x) = a_id x) -> a_id (update_rows w f a) = a_id a.
Proof. intros Hf. unfold update_rows. destruct (w a); [apply Hf|reflexivity]. Qed.

Lemma approve_row_id n lid a : a_id (approve_row n lid a) = a_id a.
Proof. apply update_row_id. reflexivity. Qed.

Lemma deny_rival_id n pid a : a_id (deny_rival n pid a) = a_id a.
Proof. apply update_rows_id. reflexivity. Qed.

Lemma connect_tenant_id pid cid p : p_id (connect_tenant pid cid p) = p_id p.
Proof. unfold connect_tenant. destruct (bool_decide _); reflexivity. Qed.

Lemma find_application_map g s n :
  (forall x, a_id (g x) = a_id x) ->
  find_application (with_applications (map g) s) n = g <$> find_application s n.
Proof.
  intros Hg. unfold find_application, with_applications. cbn [s_applications].
  apply find_map_key. intros x. now rewrite Hg.
Qed.

Lemma find_property_map g s n :
  (forall x, p_id (g x) = p_id x) ->
  find_property (with_properties (map g) s) n = g <$> find_property s n.
Proof.
  intros Hg. unfold find_property, with_properties. cbn [s_properties].
  apply find_map_key. intros x. now rewrite Hg.
Qed.

Lemma find_lease_insert l s k :
  is_Some (find_lease s k) -> find_lease (insert_lease l s) k = find_lease s k.
Proof. intros H. unfold find_lease, insert_lease. cbn [s_leases]. now apply find_app_l. Qed.

Lemma find_lease_insert_new l s :
  wf_store s -> l_id l = s_nextLeaseId s ->
  find_lease (insert_lease l s) (s_nextLeaseId s) = Some l.
Proof.
  intros Hwf Hl. unfold find_lease, insert_lease. cbn [s_leases].
  rewrite find_app_r by (apply find_lease_fresh; assumption).
  cbn [List.find]. rewrite bool_decide_eq_true_2 by assumption. reflexivity.
Qed.

Lemma find_application_insert a s k :
  is_Some (find_application s k) ->
  find_application (insert_application a s) k = find_application s k.
Proof.
  intros H. unfold find_application, insert_application. cbn [s_applications].
  now apply find_app_l.
Qed.

Lemma find_application_insert_new a s :
  wf_store s -> a_id a = s_nextApplicationId s ->
  find_application (insert_application a s) (s_nextApplicationId s) = Some a.
Proof.
  intros Hwf Ha. unfold find_application, insert_application. cbn [s_applications].
  rewrite find_app_r by (apply find_application_fresh; assumption).
  cbn [List.find]. rewrite bool_decide_eq_true_2 by assumption. reflexivity.
Qed.

(** *** Well-formedness is kept by the writes *)

Lemma wf_store_map_applications g s :
  wf_store s ->
  (forall a, a_id (g a) = a_id a) ->
  (forall a, In a (s_applications s) -> wf_application s a -> wf_application s (g a)) ->
  wf_store (with_applications (map g) s).
Proof.
  intros [Ha Hp Hl Hn] Hid Hg. split; [|assumption|assumption|].
  - cbn [with_applications s_applications]. apply List.Forall_forall.
    intros x Hx. apply List.in_map_iff in Hx as (a & <- & Hin).
    rewrite List.Forall_forall in Ha. exact (Hg a Hin (Ha a Hin)).
  - cbn [with_applications s_applications]. rewrite List.map_map.
    erewrite List.map_ext; [exact Hn|]. intros a. apply Hid.
Qed.

Lemma wf_application_set_status s st a :
  wf_application s a -> wf_application s (set_status st a).
Proof. intros H. exact H. Qed.

Lemma wf_store_insert_lease l s :
  wf_store s -> l_id l = s_nextLeaseId s -> wf_store (insert_lease l s).
Proof.
  intros [Ha Hp Hl Hn] Hid. split.
  - eapply List.Forall_impl; [|exact Ha]. intros a (H1 & H2 & H3 & H4).
    split; [exact H1|]. split; [exact H2|]. split; [|exact H4].
    destruct (a_leaseId a) as [k|]; [|exact I].
    rewrite find_lease_insert by assumption. assumption.
  - exact Hp.
  - cbn [insert_lease s_leases s_nextLeaseId]. apply List.Forall_app. split.
    + eapply List.Forall_impl; [|exact Hl]. cbn beta. intros; lia.
    + constructor; [lia|constructor].
  - exact Hn.
Qed.

Lemma wf_store_connect pid cid s :
  wf_store s -> wf_store (with_properties (map (connect_tenant pid cid)) s).
Proof.
  intros [Ha Hp Hl Hn]. split.
  - eapply List.Forall_impl; [|exact Ha]. intros a (H1 & H2 & H3 & H4).
    split; [|split; [exact H2|split; [exact H3|exact H4]]].
    rewrite find_property_map by apply connect_tenant_id.
    destruct H1 as [p ->]. eexists. reflexivity.
  - cbn [with_properties s_properties]. apply List.Forall_forall.
    intros x Hx. apply List.in_map_iff in Hx as (p & <- & Hin).
    rewrite List.Forall_forall in Hp. specialize (Hp p Hin).
    unfold connect_tenant. destruct (bool_decide _); exact Hp.
  - exact Hl.
  - exact Hn.
Qed.

Lemma wf_store_insert_application a s :
  wf_store s -> a_id a = s_nextApplicationId s ->
  is_Some (find_property s (a_propertyId a)) ->
  is_Some (find_tenant s (a_tenantCognitoId a)) ->
  a_leaseId a = None ->
  wf_store (insert_application a s).
Proof.
  intros [Ha Hp Hl Hn] Hid Hprop Hten Hlease. split; [|assumption|assumption|].
  - cbn [insert_application s_applications]. apply List.Forall_app. split.
    + eapply List.Forall_impl; [|exact Ha]. intros x (H1 & H2 & H3 & H4).
      split; [exact H1|]. split; [exact H2|]. split; [exact H3|].
      unfold insert_application; cbn [s_nextApplicationId]. lia.
    + constructor; [|constructor].
      split; [exact Hprop|]. split; [exact Hten|]. rewrite Hlease. split; [exact I|].
      unfold insert_application; cbn [s_nextApplicationId]. lia.
  - cbn [insert_application s_applications]. rewrite List.map_app. cbn [map].
    apply NoDup_app. split; [exact Hn|]. split; [|apply NoDup_singleton].
    intros k Hk Hk'. apply list_elem_of_In in Hk, Hk'.
    destruct Hk' as [<-|[]]. apply List.in_map_iff in Hk as (x & Hx & Hin).
    rewrite List.Forall_forall in Ha. destruct (Ha x Hin) as (_ & _ & _ & Hlt). lia.
Qed.

Lemma find_filter_nil {A : Type} (p : A -> bool) (l : list A) :
  List.filter p l = [] -> List.find p l = None.
Proof.
  induction l as [|x l IH]; [reflexivity|]. cbn [List.filter List.find].
  destruct (p x); [discriminate|exact IH].
Qed.

Lemma find_filter_cons {A : Type} (p : A -> bool) (l : list A) :
  List.filter p l <> [] -> is_Some (List.find p l).
Proof.
  induction l as [|x l IH]; [intros H; now destruct H|]. cbn [List.filter List.find].
  destruct (p x); [eauto|exact IH].
Qed.

End StoreFacts.

(** ** The handlers *)
Section HandlerFacts.

Variable rt : Runtime.

#[local] Opaque JSDate.setFullYear JSDate.getFullYear JSDate.setMonth JSDate.getMonth.

Lemma includes_validStatuses status :
  includes validStatuses status = true ->
  status = JStr "Pending" \/ status = JStr "Approved" \/ status = JStr "Denied".
Proof.
  destruct status as [| |b|n|s|o]; cbn; try discriminate.
  destruct (String.eqb_spec s "Pending") as [-> | ]; [auto|].
  destruct (String.eqb_spec s "Approved") as [-> | ]; [auto|].
  destruct (String.eqb_spec s "Denied") as [-> | ]; [auto|]. discriminate.
Qed.

End HandlerFacts.

(** ** The readings of the clock *)
Section ClockFacts.

Variable rt : Runtime.

Lemma clock_S now k : clock rt now (S k) = clock rt now k + Z.of_nat (tick rt now k).
Proof. reflexivity. Qed.

Lemma clock_mono now j k : (j <= k)%nat -> clock rt now j <= clock rt now k.
Proof.
  induction 1 as [|k _ IH]; [lia|]. rewrite clock_S. lia.
Qed.

Lemma clock_now now k : now <= clock rt now k.
Proof. apply (clock_mono now 0 k). lia. Qed.

(** A clock that has not moved at reading [k] has not moved before. *)
Lemma clock_steady now j k i :
  (i <= j <= k)%nat -> clock rt now k = clock rt now i -> clock rt now j = clock rt now i.
Proof.
  intros [Hij Hjk] H.
  pose proof (clock_mono now i j Hij). pose proof (clock_mono now j k Hjk). lia.
Qed.

(** When the readings the end date is computed from fall in one calendar
    year and a year before the end of the range of [Date], the end date is
    in range. *)
Lemma end_date_in_range now :
  - JSDate.maxTime <= clock rt now 2 ->
  clock rt now 2 + 366 * JSDate.msPerDay <= JSDate.maxTime ->
  JSDate.getFullYear (clock rt now 3) = JSDate.getFullYear (clock rt now 2) ->
  JSDate.setFullYear (clock rt now 2) (JSDate.getFullYear (clock rt now 3) + 1)
  = Some (Civil.nextYear (clock rt now 2)).
Proof.
  intros Hlo Hhi Hy. rewrite Hy. apply JSDateFacts.setFullYear_in_range; assumption.
Qed.

End ClockFacts.

(** ** [updateApplicationStatus], path by path *)
Section UpdateFacts.

Variable rt : Runtime.

#[local] Opaque JSDate.setFullYear JSDate.getFullYear JSDate.setMonth JSDate.getMonth clock.

Lemma bind_run {A B : Type} (m : M A) (k : A -> M B) (w w' : World) (a : A) :
  m w = (Ok a, w') -> bind m k w = k a w'.
Proof. intros H. unfold bind. now rewrite H. Qed.

Lemma bind_fail {A B : Type} (m : M A) (k : A -> M B) (w w' : World) (f : failure) :
  m w = (Fail f, w') -> bind m k w = (Fail f, w').
Proof. intros H. unfold bind. now rewrite H. Qed.

Lemma bind_assoc {A B C : Type} (m : M A) (f : A -> M B) (g : B -> M C) (w : World) :
  bind (bind m f) g w = bind m (fun x => bind (f x) g) w.
Proof. unfold bind. destruct (m w) as [[a|e] w']; reflexivity. Qed.

Lemma transaction_run {A : Type} (body : M A) (w w' : World) (a : A) :
  body w = (Ok a, w') -> transaction body w = (Ok a, w').
Proof. intros H. unfold transaction. now rewrite H. Qed.

Lemma findUnique_run deep wl n s log a j :
  find_application s n = Some a -> join deep wl s a = Ok j ->
  application_findUnique (Some n) deep wl {| w_store := s; w_log := log |}
  = (Ok (Some j),
     {| w_store := s; w_log := log ++ map Read (TApplication :: joinTables deep wl) |}).
Proof.
  intros Hf Hj. unfold application_findUnique, reading. cbn [w_store w_log].
  rewrite Hf. cbn [uniqueKey]. now rewrite Hj.
Qed.

Lemma findUnique_none deep wl n s log :
  find_application s n = None -> isInt n = true ->
  application_findUnique (Some n) deep wl {| w_store := s; w_log := log |}
  = (Ok None,
     {| w_store := s; w_log := log ++ map Read (TApplication :: joinTables deep wl) |}).
Proof.
  intros Hf Hn. unfold application_findUnique, reading. cbn [w_store w_log].
  rewrite Hf. cbn [uniqueKey]. now rewrite Hn.
Qed.

Lemma findUnique_refused deep wl n s log :
  find_application s n = None -> isInt n = false ->
  application_findUnique (Some n) deep wl {| w_store := s; w_log := log |}
  = (Fail ServerError,
     {| w_store := s; w_log := log ++ map Read (TApplication :: joinTables deep wl) |}).
Proof.
  intros Hf Hn. unfold application_findUnique, reading. cbn [w_store w_log].
  rewrite Hf. cbn [uniqueKey]. now rewrite Hn.
Qed.

Lemma lease_findFirst_run p s log :
  lease_findFirst p {| w_store := s; w_log := log |}
  = (Ok (List.find p (s_leases s)), {| w_store := s; w_log := log ++ [Read TLease] |}).
Proof. reflexivity. Qed.

Lemma lease_create_run d sd ed s log p t :
  lc_startDate d = Some sd -> lc_endDate d = Some ed ->
  find_property s (lc_propertyId d) = Some p ->
  find_tenant s (lc_tenantCognitoId d) = Some t ->
  let l := {| l_id := s_nextLeaseId s; l_startDate := sd; l_endDate := ed;
              l_rent := lc_rent d; l_deposit := lc_deposit d;
              l_propertyId := lc_propertyId d;
              l_tenantCognitoId := lc_tenantCognitoId d |} in
  lease_create d {| w_store := s; w_log := log |}
  = (Ok l, {| w_store := insert_lease l s; w_log := log ++ [Write TLease] |}).
Proof.
  intros Hs He Hp Ht l. unfold lease_create, writing. rewrite Hs, He.
  cbn [w_store w_log]. now rewrite Hp, Ht.
Qed.

Lemma property_update_connect_run pid cid s log p t :
  find_property s pid = Some p -> find_tenant s cid = Some t ->
  property_update_connect pid cid {| w_store := s; w_log := log |}
  = (Ok tt, {| w_store := with_properties (map (connect_tenant pid cid)) s;
               w_log := log ++ [Write TProperty] |}).
Proof.
  intros Hp Ht. unfold property_update_connect, writing. cbn [w_store w_log].
  now rewrite Hp, Ht.
Qed.

Lemma application_update_run n f s log a :
  find_application s n = Some a ->
  application_update (Some n) (Some f) {| w_store := s; w_log := log |}
  = (Ok tt, {| w_store := with_applications (map (update_row n f)) s;
               w_log := log ++ [Write TApplication] |}).
Proof.
  intros Hf. unfold application_update, writing. cbn [w_store w_log]. now rewrite Hf.
Qed.

Lemma application_updateMany_run p f s log :
  application_updateMany p f {| w_store := s; w_log := log |}
  = (Ok tt, {| w_store := with_applications (map (update_rows p f)) s;
               w_log := log ++ [Write TApplication] |}).
Proof. reflexivity. Qed.

Lemma statusString_valid st :
  negb (truthy (statusString st)) || negb (includes validStatuses (statusString st)) = false.
Proof. destruct st; reflexivity. Qed.

Lemma asStatus_statusString st : asStatus (statusString st) = Some st.
Proof. destruct st; reflexivity. Qed.

Lemma js_is_Approved st :
  js_is (statusString st) "Approved" = bool_decide (st = Approved).
Proof. destruct st; reflexivity. Qed.

Lemma valid_status_statusString status :
  negb (truthy status) || negb (includes validStatuses status) = false ->
  exists st, status = statusString st.
Proof.
  intros H. apply orb_false_elim in H as [_ H]. apply negb_false_iff in H.
  apply includes_validStatuses in H as [-> | [-> | ->]];
    [exists Pending|exists Approved|exists Denied]; reflexivity.
Qed.

(** Guard 3: an approved application is not set to another status. *)
Lemma update_rejects_approved now id n a st s log :
  wf_store s -> Number rt id = Some n -> find_application s n = Some a ->
  a_status a = Approved -> st <> Approved ->
  exists log',
    updateApplicationStatus rt now id (statusString st) {| w_store := s; w_log := log |}
    = (Fail CannotModifyApproved, {| w_store := s; w_log := log' |}).
Proof.
  intros Hwf HN Hfind Ha Hst.
  destruct (find_application_In _ _ _ Hfind) as [Hin _].
  destruct (join_ok false true s a Hwf Hin) as (j & Hj & Hja & _).
  unfold updateApplicationStatus. rewrite statusString_valid, HN.
  rewrite (bind_run _ _ _ _ _ (findUnique_run _ _ _ _ _ _ _ Hfind Hj)).
  rewrite Hja, js_is_Approved, (bool_decide_eq_true_2 _ Ha), (bool_decide_eq_false_2 _ Hst).
  cbn [andb negb]. eexists. reflexivity.
Qed.

(** Guard 4: an application that has its lease is not approved again. *)
Lemma update_rejects_leased now id n a k l s log :
  wf_store s -> Number rt id = Some n -> find_application s n = Some a ->
  a_leaseId a = Some k -> find_lease s k = Some l ->
  exists log',
    updateApplicationStatus rt now id (JStr "Approved") {| w_store := s; w_log := log |}
    = (Fail LeaseAlreadyExists, {| w_store := s; w_log := log' |}).
Proof.
  intros Hwf HN Hfind Hk Hl.
  destruct (find_application_In _ _ _ Hfind) as [Hin _].
  destruct (join_ok false true s a Hwf Hin) as (j & Hj & Hja & _ & _ & Hjl).
  change (JStr "Approved") with (statusString Approved).
  unfold updateApplicationStatus. rewrite (statusString_valid Approved), HN.
  rewrite (bind_run _ _ _ _ _ (findUnique_run _ _ _ _ _ _ _ Hfind Hj)).
  rewrite (js_is_Approved Approved), Hjl, Hk. cbn [mbind option_bind]. rewrite Hl.
  rewrite (bool_decide_eq_true_2 (Approved = Approved) eq_refl).
  rewrite (bool_decide_eq_true_2 (is_Some (Some l))) by eauto.
  cbn [andb negb]. rewrite andb_false_r. eexists. reflexivity.
Qed.

(** Guard 5: no approval while the tenant has a lease in force on the
    property. *)
Lemma update_rejects_active now id n a s log :
  wf_store s -> Number rt id = Some n -> find_application s n = Some a ->
  a_leaseId a = None ->
  active_leases s now (a_propertyId a) (a_tenantCognitoId a) <> [] ->
  exists log',
    updateApplicationStatus rt now id (JStr "Approved") {| w_store := s; w_log := log |}
    = (Fail ActiveLeaseExists, {| w_store := s; w_log := log' |}).
Proof.
  intros Hwf HN Hfind Hk Hact.
  destruct (find_application_In _ _ _ Hfind) as [Hin _].
  destruct (join_ok false true s a Hwf Hin) as (j & Hj & Hja & _ & _ & Hjl).
  change (JStr "Approved") with (statusString Approved).
  unfold updateApplicationStatus. rewrite (statusString_valid Approved), HN.
  rewrite (bind_run _ _ _ _ _ (findUnique_run _ _ _ _ _ _ _ Hfind Hj)).
  rewrite (js_is_Approved Approved), Hjl, Hk, Hja. cbn [mbind option_bind].
  rewrite (bool_decide_eq_true_2 (Approved = Approved) eq_refl).
  rewrite (bool_decide_eq_false_2 (is_Some None)) by (intros [? H]; discriminate H).
  cbn [andb negb]. rewrite andb_false_r.
  rewrite bind_assoc, (bind_run _ _ _ _ _ (lease_findFirst_run _ _ _)).
  apply find_filter_cons in Hact as [l Hl].
  change (List.find (active now (a_propertyId a) (a_tenantCognitoId a)) (s_leases s) = Some l) in Hl.
  unfold active in Hl. rewrite Hl.
  eexists. reflexivity.
Qed.

Lemma update_row_hit n f a : a_id a = n -> update_row n f a = f a.
Proof. intros H. unfold update_row. now rewrite bool_decide_eq_true_2. Qed.

Lemma wf_store_update_status n st s :
  wf_store s -> wf_store (with_applications (map (update_row n (set_status st))) s).
Proof.
  intros Hwf. apply wf_store_map_applications; [assumption| |].
  - intros a. apply update_row_id. reflexivity.
  - intros a _ Ha. unfold update_row. destruct (bool_decide _); assumption.
Qed.

(** The other statuses: one field of one row is written. *)
Lemma update_status_run now id n a st s log :
  wf_store s -> Number rt id = Some n -> find_application s n = Some a ->
  a_status a <> Approved -> st <> Approved ->
  exists j log',
    updateApplicationStatus rt now id (statusString st) {| w_store := s; w_log := log |}
    = (Ok (Some j),
       {| w_store := with_applications (map (update_row n (set_status st))) s;
          w_log := log' |})
    /\ j_app j = set_status st a.
Proof.
  intros Hwf HN Hfind Ha Hst.
  destruct (find_application_In _ _ _ Hfind) as [Hin Hid].
  destruct (join_ok false true s a Hwf Hin) as (j & Hj & Hja & _).
  pose proof (wf_store_update_status n st s Hwf) as Hwf'.
  assert (Hfind' : find_application (with_applications (map (update_row n (set_status st))) s) n
                   = Some (set_status st a)).
  { rewrite find_application_map by (intros x; apply update_row_id; reflexivity).
    rewrite Hfind. cbn [fmap option_fmap option_map]. now rewrite update_row_hit. }
  destruct (find_application_In _ _ _ Hfind') as [Hin' _].
  destruct (join_ok true true _ _ Hwf' Hin') as (j' & Hj' & Hja' & _).
  unfold updateApplicationStatus. rewrite statusString_valid, HN.
  rewrite (bind_run _ _ _ _ _ (findUnique_run _ _ _ _ _ _ _ Hfind Hj)).
  rewrite Hja, js_is_Approved, (bool_decide_eq_false_2 _ Ha), (bool_decide_eq_false_2 _ Hst).
  cbn [andb negb]. rewrite andb_false_r, asStatus_statusString.
  cbn [fmap option_fmap option_map].
  rewrite (bind_run _ _ _ _ _ (application_update_run _ _ _ _ _ Hfind)).
  rewrite (bind_run _ _ _ _ _ (findUnique_run _ _ _ _ _ _ _ Hfind' Hj')).
  exists j'. eexists. split; [reflexivity|assumption].
Qed.

(** *** The lease issuance transaction *)

Lemma wf_store_issue_lease now e n p a s :
  wf_store s -> find_application s n = Some a ->
  wf_store (issue_lease now e n p a s).
Proof.
  intros Hwf Hfind. unfold issue_lease.
  assert (Hwf1 : wf_store (insert_lease (issued_lease s now e p a) s))
    by (apply wf_store_insert_lease; [assumption|reflexivity]).
  assert (Hwf2 : wf_store (with_properties
                   (map (connect_tenant (a_propertyId a) (a_tenantCognitoId a)))
                   (insert_lease (issued_lease s now e p a) s)))
    by (apply wf_store_connect; assumption).
  apply wf_store_map_applications; [|apply deny_rival_id|].
  - apply wf_store_map_applications; [assumption|apply approve_row_id|].
    intros x _ (H1 & H2 & H3 & H4). unfold approve_row, update_row.
    destruct (bool_decide _); [|repeat split; assumption].
    split; [exact H1|]. split; [exact H2|]. split; [|exact H4].
    cbn [set_leaseId a_leaseId].
    change (is_Some (find_lease (insert_lease (issued_lease s now e p a) s) (s_nextLeaseId s))).
    rewrite find_lease_insert_new by (assumption || reflexivity). eauto.
  - intros x _ Hx. unfold deny_rival, update_rows.
    destruct (_ && _); assumption.
Qed.

Lemma find_application_issue_lease now e n p a s :
  find_application s n = Some a ->
  find_application (issue_lease now e n p a s) n
  = Some (set_leaseId (Some (s_nextLeaseId s)) (set_status Approved a)).
Proof.
  intros Hfind. destruct (find_application_In _ _ _ Hfind) as [_ Hid].
  unfold issue_lease.
  rewrite find_application_map by apply deny_rival_id.
  rewrite find_application_map by apply approve_row_id.
  change (find_application (with_properties _ (insert_lease _ s)) n)
    with (find_application s n).
  rewrite Hfind. cbn [fmap option_fmap option_map]. f_equal.
  unfold approve_row. rewrite update_row_hit by assumption.
  unfold deny_rival, update_rows. cbn [a_id a_propertyId a_status set_leaseId set_status].
  rewrite (bool_decide_eq_true_2 (a_id a = n)) by assumption.
  cbn [negb andb]. now rewrite andb_false_r.
Qed.

Lemma update_approve_run now id n a p e s log :
  wf_store s -> Number rt id = Some n -> find_application s n = Some a ->
  find_property s (a_propertyId a) = Some p ->
  a_leaseId a = None ->
  active_leases s now (a_propertyId a) (a_tenantCognitoId a) = [] ->
  JSDate.setFullYear (clock rt now 2) (JSDate.getFullYear (clock rt now 3) + 1) = Some e ->
  exists j log',
    updateApplicationStatus rt now id (JStr "Approved") {| w_store := s; w_log := log |}
    = (Ok (Some j), {| w_store := issue_lease (clock rt now 1) e n p a s; w_log := log' |})
    /\ j_app j = set_leaseId (Some (s_nextLeaseId s)) (set_status Approved a)
    /\ j_lease j = Some (issued_lease s (clock rt now 1) e p a).
Proof.
  intros Hwf HN Hfind Hp Hk Hact He.
  destruct (find_application_In _ _ _ Hfind) as [Hin Hid].
  destruct (join_ok false true s a Hwf Hin) as (j & Hj & Hja & Hjp & Hjt & Hjl).
  rewrite Hp in Hjp. injection Hjp as Hjp.
  pose proof (wf_store_issue_lease (clock rt now 1) e n p a s Hwf Hfind) as Hwf'.
  pose proof (find_application_issue_lease (clock rt now 1) e n p a s Hfind) as Hfind'.
  destruct (find_application_In _ _ _ Hfind') as [Hin' _].
  destruct (join_ok true true _ _ Hwf' Hin') as (j' & Hj' & Hja' & _ & _ & Hjl').
  change (JStr "Approved") with (statusString Approved).
  unfold updateApplicationStatus. rewrite (statusString_valid Approved), HN.
  rewrite (bind_run _ _ _ _ _ (findUnique_run _ _ _ _ _ _ _ Hfind Hj)).
  rewrite (js_is_Approved Approved), Hjl, Hk, Hja, <- Hjp. cbn [mbind option_bind].
  rewrite (bool_decide_eq_true_2 (Approved = Approved) eq_refl).
  rewrite (bool_decide_eq_false_2 (is_Some None)) by (intros [? H]; discriminate H).
  cbn [andb negb]. rewrite andb_false_r.
  rewrite bind_assoc, (bind_run _ _ _ _ _ (lease_findFirst_run _ _ _)).
  apply find_filter_nil in Hact.
  change (List.find (active now (a_propertyId a) (a_tenantCognitoId a)) (s_leases s) = None) in Hact.
  unfold active in Hact. rewrite Hact.
  rewrite asStatus_statusString, He. cbn [fmap option_fmap option_map].
  erewrite (bind_run _ _ _ _ tt); cycle 1.
  { apply transaction_run.
    erewrite bind_run; cycle 1.
    { apply (lease_create_run _ (clock rt now 1) e _ _ p (j_tenant j));
        [reflexivity|reflexivity|assumption|assumption]. }
    cbn [lc_rent lc_deposit lc_propertyId lc_tenantCognitoId l_id].
    erewrite bind_run; cycle 1.
    { apply (property_update_connect_run _ _ _ _ p (j_tenant j)); assumption. }
    erewrite bind_run; cycle 1.
    { apply (application_update_run _ _ _ _ a). exact Hfind. }
    apply application_updateMany_run. }
  match goal with
  | |- context [bind _ _ {| w_store := ?s'; w_log := _ |}] =>
      replace s' with (issue_lease (clock rt now 1) e n p a s)
  end.
  - rewrite (bind_run _ _ _ _ _ (findUnique_run _ _ _ _ _ _ _ Hfind' Hj')).
    exists j'. eexists. split; [reflexivity|]. split; [assumption|].
    rewrite Hjl'. cbn [a_leaseId set_leaseId mbind option_bind].
    change (find_lease (issue_lease (clock rt now 1) e n p a s) (s_nextLeaseId s))
      with (find_lease (insert_lease (issued_lease s (clock rt now 1) e p a) s) (s_nextLeaseId s)).
    apply find_lease_insert_new; [assumption|reflexivity].
  - unfold issue_lease, with_applications at 1 3. cbn [s_applications]. f_equal.
    apply List.map_ext. intros x. unfold deny_rival, update_rows.
    rewrite (bool_decide_ext (Some (a_id x) = Some n) (a_id x = n)); [reflexivity|].
    split; congruence.
Qed.

End UpdateFacts.

(** ** [createApplication] and [listApplications] *)
Section CreateFacts.

Variable rt : Runtime.

#[local] Opaque JSDate.setFullYear JSDate.getFullYear JSDate.setMonth JSDate.getMonth.

Lemma find_ext_bool {A : Type} (p q : A -> bool) (l : list A) :
  (forall x, p x = q x) -> List.find p l = List.find q l.
Proof.
  intros H. induction l as [|x l IH]; [reflexivity|]. cbn [List.find].
  rewrite H, IH. reflexivity.
Qed.

Lemma join_app deep wl s a j : join deep wl s a = Ok j -> j_app j = a.
Proof.
  unfold join.
  destruct (find_property _ _); [|discriminate].
  destruct (find_tenant _ _); [|discriminate].
  destruct deep;
    [destruct (find_location _ _); [|discriminate];
     destruct (find_manager _ _); [|discriminate]|];
    intros H; injection H as <-; reflexivity.
Qed.

Lemma join_no_lease deep s a j : join deep false s a = Ok j -> j_lease j = None.
Proof.
  unfold join.
  destruct (find_property _ _); [|discriminate].
  destruct (find_tenant _ _); [|discriminate].
  destruct deep;
    [destruct (find_location _ _); [|discriminate];
     destruct (find_manager _ _); [|discriminate]|];
    intros H; injection H as <-; reflexivity.
Qed.

Lemma decodeApplication_row d row id :
  decodeApplication rt d = Some row ->
  a_id (row id) = id
  /\ a_leaseId (row id) = None
  /\ Some (a_status (row id)) = asStatus (c_status d)
  /\ Some (a_propertyId (row id)) = asInt (c_propertyId d)
  /\ Some (a_tenantCognitoId (row id)) = asString (c_tenantCognitoId d).
Proof.
  unfold decodeApplication.
  destruct (c_applicationDate d); [|discriminate].
  destruct (asStatus (c_status d)); [|discriminate].
  destruct (asString (c_name d)); [|discriminate].
  destruct (asString (c_email d)); [|discriminate].
  destruct (asString (c_phoneNumber d)); [|discriminate].
  destruct (asInt (c_propertyId d)); [|discriminate].
  destruct (asString (c_tenantCognitoId d)); [|discriminate].
  destruct (schema_accepts rt (c_optional d)); [|discriminate].
  intros H. injection H as <-. cbn. auto.
Qed.

(** What a submission does to the store, whatever the body: nothing, or one
    row more in the application table. *)
Lemma createApplication_cases now body s log :
  exists r s' log',
    createApplication rt now body {| w_store := s; w_log := log |}
    = (r, {| w_store := s'; w_log := log' |})
    /\ ((s' = s /\ exists f, r = Fail f)
        \/ (exists row j,
              decodeApplication rt (createData rt now body) = Some row
              /\ r = Ok j
              /\ j_app j = row (s_nextApplicationId s)
              /\ j_lease j = None
              /\ s' = insert_application (row (s_nextApplicationId s)) s
              /\ is_Some (find_property s (a_propertyId (j_app j)))
              /\ is_Some (find_tenant s (a_tenantCognitoId (j_app j)))
              /\ List.find (fun a => bool_decide (a_propertyId a = a_propertyId (j_app j))
                                     && bool_decide (a_tenantCognitoId a
                                                     = a_tenantCognitoId (j_app j))
                                     && (bool_decide (a_status a = Pending)
                                         || bool_decide (a_status a = Approved)))
                   (s_applications s) = None)).
Proof.
  unfold createApplication.
  destruct (_ || _); [do 3 eexists; split; [reflexivity|left; eauto]|].
  destruct (negb _); [do 3 eexists; split; [reflexivity|left; eauto]|].
  unfold bind at 1, property_findUnique.
  destruct (asInt (field body "propertyId")) as [pid|] eqn:Hpid;
    [|do 3 eexists; split; [reflexivity|left; eauto]].
  unfold reading at 1. cbn [w_store w_log].
  destruct (find_property s pid) as [p|] eqn:Hp; cbn [uniqueKey];
    [|destruct (isInt pid); do 3 eexists; (split; [reflexivity|left; eauto])].
  unfold bind at 1, tenant_findUnique.
  destruct (asString (field body "tenantCognitoId")) as [cid|] eqn:Hcid;
    [|do 3 eexists; split; [reflexivity|left; eauto]].
  unfold reading at 1. cbn [w_store w_log].
  destruct (find_tenant s cid) as [t|] eqn:Ht;
    [|do 3 eexists; split; [reflexivity|left; eauto]].
  unfold bind at 1, application_findFirst, reading at 1. cbn [w_store w_log].
  destruct (List.find _ (s_applications s)) as [x|] eqn:Hdup.
  { destruct (bool_decide _); do 3 eexists; (split; [reflexivity|left; eauto]). }
  unfold application_create.
  destruct (decodeApplication rt (createData rt now body)) as [row|] eqn:Hrow;
    [|do 3 eexists; split; [reflexivity|left; eauto]].
  unfold writing. cbn [w_store w_log].
  destruct (join true false _ _) as [j|e] eqn:Hj;
    [|do 3 eexists; split; [reflexivity|left; eauto]].
  do 3 eexists. split; [reflexivity|]. right. exists row, j.
  pose proof (join_app _ _ _ _ _ Hj) as Hja.
  pose proof (join_no_lease _ _ _ _ Hj) as Hjl.
  destruct (decodeApplication_row _ _ (s_nextApplicationId s) Hrow) as (_ & _ & _ & Hrp & Hrc).
  cbn [createData c_propertyId c_tenantCognitoId] in Hrp, Hrc.
  rewrite Hpid in Hrp. rewrite Hcid in Hrc. injection Hrp as Hrp. injection Hrc as Hrc.
  rewrite Hja, Hrp, Hrc, Hp, Ht. repeat (split; [eauto; fail|]).
  rewrite <- Hdup. apply find_ext_bool. intros a.
  rewrite (bool_decide_ext (Some (a_propertyId a) = Some pid) (a_propertyId a = pid))
    by (split; congruence).
  rewrite (bool_decide_ext (Some (a_tenantCognitoId a) = Some cid) (a_tenantCognitoId a = cid))
    by (split; congruence).
  reflexivity.
Qed.

Lemma find_some_ex {A : Type} (p : A -> bool) (l : list A) x :
  In x l -> p x = true -> exists y, List.find p l = Some y.
Proof.
  intros Hin Hp. destruct (List.find p l) as [y|] eqn:Hf; [eauto|].
  pose proof (List.find_none _ _ Hf x Hin) as Hn. congruence.
Qed.

Lemma passes_validation_checks body :
  passes_validation body ->
  negb (truthy (field body "propertyId")) || negb (truthy (field body "tenantCognitoId"))
  || negb (truthy (field body "name")) || negb (truthy (field body "email"))
  || negb (truthy (field body "phoneNumber")) = false
  /\ negb (emailRegex_test (field body "email")) = false.
Proof. intros (-> & -> & -> & -> & -> & ->). split; reflexivity. Qed.

Lemma In_applications_of s pid cid x :
  In x (applications_of s pid cid)
  <-> In x (s_applications s) /\ a_propertyId x = pid /\ a_tenantCognitoId x = cid.
Proof.
  unfold applications_of. rewrite List.filter_In, andb_true_iff, !bool_decide_eq_true.
  reflexivity.
Qed.

(** The duplicate guard turns a submission down. *)
Lemma createApplication_duplicate now body pid cid x s log :
  wf_store s -> passes_validation body ->
  field body "propertyId" = JNum pid -> field body "tenantCognitoId" = JStr cid ->
  In x (applications_of s pid cid) -> a_status x <> Denied ->
  exists f log',
    createApplication rt now body {| w_store := s; w_log := log |}
    = (Fail f, {| w_store := s; w_log := log' |})
    /\ ((f = DuplicateApproved
         /\ exists y, In y (applications_of s pid cid) /\ a_status y = Approved)
        \/ (f = DuplicatePending
            /\ exists y, In y (applications_of s pid cid) /\ a_status y = Pending)).
Proof.
  intros Hwf Hval Hpid Hcid Hx Hst.
  apply In_applications_of in Hx as (Hin & Hxp & Hxc).
  destruct (wf_store_application s x Hwf Hin) as ([p Hp] & [t Ht] & _).
  rewrite Hxp in Hp. rewrite Hxc in Ht.
  destruct (passes_validation_checks body Hval) as [Hc1 Hc2].
  unfold createApplication. rewrite Hc1, Hc2, Hpid, Hcid.
  unfold bind at 1, property_findUnique. cbn [asInt]. unfold reading at 1.
  cbn [w_store w_log]. rewrite Hp. cbn [uniqueKey].
  unfold bind at 1, tenant_findUnique. cbn [asString]. unfold reading at 1.
  cbn [w_store w_log]. rewrite Ht.
  unfold bind at 1, application_findFirst, reading at 1. cbn [w_store w_log].
  edestruct (find_some_ex
               (fun a => bool_decide (Some (a_propertyId a) = Some pid)
                         && bool_decide (Some (a_tenantCognitoId a) = Some cid)
                         && (bool_decide (a_status a = Pending)
                             || bool_decide (a_status a = Approved)))
               (s_applications s) x Hin) as [y Hy].
  { rewrite !andb_true_iff, orb_true_iff, !bool_decide_eq_true.
    split; [split; congruence|]. destruct (a_status x); auto. congruence. }
  rewrite Hy. apply List.find_some in Hy as [Hyin Hyp].
  rewrite !andb_true_iff, orb_true_iff, !bool_decide_eq_true in Hyp.
  destruct Hyp as [[Hyp Hyc] Hys].
  assert (Hy' : In y (applications_of s pid cid)).
  { apply In_applications_of. split; [assumption|]. split; congruence. }
  destruct (bool_decide (a_status y = Approved)) eqn:Hb.
  - apply bool_decide_eq_true in Hb. do 2 eexists. split; [reflexivity|]. left. eauto.
  - apply bool_decide_eq_false in Hb. do 2 eexists. split; [reflexivity|]. right.
    split; [reflexivity|]. exists y. split; [assumption|]. destruct Hys; congruence.
Qed.

(** A submission that the guard lets through and the schema accepts adds
    its row, which has no lease. *)
Lemma createApplication_accepted now body pid cid p t row s log :
  wf_store s -> passes_validation body ->
  field body "propertyId" = JNum pid -> field body "tenantCognitoId" = JStr cid ->
  find_property s pid = Some p -> find_tenant s cid = Some t ->
  Forall (fun x => a_status x = Denied) (applications_of s pid cid) ->
  decodeApplication rt (createData rt now body) = Some row ->
  exists j log',
    createApplication rt now body {| w_store := s; w_log := log |}
    = (Ok j, {| w_store := insert_application (row (s_nextApplicationId s)) s;
                w_log := log' |})
    /\ j_app j = row (s_nextApplicationId s).
Proof.
  intros Hwf Hval Hpid Hcid Hp Ht Hden Hrow.
  destruct (passes_validation_checks body Hval) as [Hc1 Hc2].
  destruct (decodeApplication_row _ _ (s_nextApplicationId s) Hrow)
    as (Hrid & Hrl & _ & Hrp & Hrc).
  cbn [createData c_propertyId c_tenantCognitoId] in Hrp, Hrc.
  rewrite Hpid in Hrp. rewrite Hcid in Hrc. cbn [asInt asString] in Hrp, Hrc.
  injection Hrp as Hrp. injection Hrc as Hrc.
  assert (Hwf' : wf_store (insert_application (row (s_nextApplicationId s)) s)).
  { apply wf_store_insert_application; try assumption.
    - rewrite Hrp, Hp. eauto.
    - rewrite Hrc, Ht. eauto. }
  destruct (join_ok true false _ (row (s_nextApplicationId s)) Hwf') as (j & Hj & Hja & _).
  { cbn [insert_application s_applications]. apply List.in_or_app. right. left. reflexivity. }
  unfold createApplication. rewrite Hc1, Hc2, Hpid, Hcid.
  unfold bind at 1, property_findUnique. cbn [asInt]. unfold reading at 1.
  cbn [w_store w_log]. rewrite Hp. cbn [uniqueKey].
  unfold bind at 1, tenant_findUnique. cbn [asString]. unfold reading at 1.
  cbn [w_store w_log]. rewrite Ht.
  unfold bind at 1, application_findFirst, reading at 1. cbn [w_store w_log].
  rewrite find_none_Forall.
  - unfold application_create. rewrite Hrow. unfold writing.
    cbn [w_store w_log]. rewrite Hj. exists j. eexists. split; [reflexivity|assumption].
  - apply List.Forall_forall. intros x Hx.
    destruct (bool_decide (Some (a_propertyId x) = Some pid)) eqn:H1; [|reflexivity].
    destruct (bool_decide (Some (a_tenantCognitoId x) = Some cid)) eqn:H2; [|reflexivity].
    apply bool_decide_eq_true in H1, H2.
    rewrite List.Forall_forall in Hden. rewrite (Hden x).
    + reflexivity.
    + apply In_applications_of. split; [assumption|]. split; congruence.
Qed.

End CreateFacts.

(** ** [listApplications] *)
Section ListFacts.

#[local] Opaque JSDate.setFullYear JSDate.getFullYear JSDate.setMonth JSDate.getMonth.

Lemma readonly_ret {A : Type} (a : A) : readonly (ret a).
Proof. intros w. reflexivity. Qed.

Lemma readonly_reading {A : Type} ts (f : Store -> result A) : readonly (reading ts f).
Proof. intros w. reflexivity. Qed.

Lemma readonly_bind {A B : Type} (m : M A) (k : A -> M B) :
  readonly m -> (forall a, readonly (k a)) -> readonly (bind m k).
Proof.
  intros Hm Hk w. unfold bind. specialize (Hm w).
  destruct (m w) as [[a|e] w']; cbn [snd] in *; [|assumption].
  rewrite Hk. assumption.
Qed.

Lemma readonly_mapM {A B : Type} (f : A -> M B) (l : list A) :
  (forall a, readonly (f a)) -> readonly (mapM f l).
Proof.
  intros Hf. induction l as [|x l IH]; cbn [mapM]; [apply readonly_ret|].
  apply readonly_bind; [apply Hf|]. intros y.
  apply readonly_bind; [apply IH|]. intros ys. apply readonly_ret.
Qed.

Lemma listApplications_readonly now query : readonly (listApplications now query).
Proof.
  unfold listApplications. apply readonly_bind; [apply readonly_reading|].
  intros apps. apply readonly_mapM. intros app.
  apply readonly_bind; [apply readonly_reading|]. intros l. apply readonly_ret.
Qed.

Lemma filter_whereAll s (l : list Application) : List.filter (whereAll s) l = l.
Proof. induction l as [|x l IH]; [reflexivity|]. cbn [List.filter whereAll]. now rewrite IH. Qed.

Lemma mapR_join deep wl s l :
  wf_store s -> (forall a, In a l -> In a (s_applications s)) ->
  exists js,
    mapR (join deep wl s) l = Ok js
    /\ map j_app js = l
    /\ Forall (fun j => find_property s (a_propertyId (j_app j)) = Some (j_property j)
                        /\ find_tenant s (a_tenantCognitoId (j_app j)) = Some (j_tenant j)) js.
Proof.
  intros Hwf. induction l as [|a l IH]; intros Hl.
  - exists []. repeat split. constructor.
  - destruct (join_ok deep wl s a Hwf (Hl a (or_introl eq_refl)))
      as (j & Hj & Hja & Hjp & Hjt & _).
    destruct IH as (js & Hjs & Hmap & Hall); [intros x Hx; apply Hl; right; exact Hx|].
    exists (j :: js). cbn [mapR map]. rewrite Hj, Hjs, Hja, Hmap.
    split; [reflexivity|]. split; [reflexivity|].
    constructor; [|assumption]. rewrite Hja. split; assumption.
Qed.

Lemma mapM_views {A B : Type} (f : A -> M B) (g : A -> B) s (l : list A) :
  (forall a log, exists log',
      f a {| w_store := s; w_log := log |} = (Ok (g a), {| w_store := s; w_log := log' |})) ->
  forall log, exists log',
    mapM f l {| w_store := s; w_log := log |}
    = (Ok (map g l), {| w_store := s; w_log := log' |}).
Proof.
  intros Hf. induction l as [|x l IH]; intros log; cbn [mapM map].
  - exists log. reflexivity.
  - destruct (Hf x log) as [log1 H1]. destruct (IH log1) as [log2 H2].
    exists log2. unfold bind. rewrite H1, H2. reflexivity.
Qed.

End ListFacts.

(** ** The invariants of the reachable states *)
Section Invariants.

Variable rt : Runtime.

#[local] Opaque JSDate.setFullYear JSDate.getFullYear JSDate.setMonth JSDate.getMonth clock.

(** The date of the lease cannot be built: the transaction fails and the
    store is as before. *)
Lemma update_approve_invalid_date now id n a s log :
  wf_store s -> Number rt id = Some n -> find_application s n = Some a ->
  a_leaseId a = None ->
  active_leases s now (a_propertyId a) (a_tenantCognitoId a) = [] ->
  JSDate.setFullYear (clock rt now 2) (JSDate.getFullYear (clock rt now 3) + 1) = None ->
  exists log',
    updateApplicationStatus rt now id (JStr "Approved") {| w_store := s; w_log := log |}
    = (Fail ServerError, {| w_store := s; w_log := log' |}).
Proof.
  intros Hwf HN Hfind Hk Hact He.
  destruct (find_application_In _ _ _ Hfind) as [Hin Hid].
  destruct (join_ok false true s a Hwf Hin) as (j & Hj & Hja & Hjp & Hjt & Hjl).
  change (JStr "Approved") with (statusString Approved).
  unfold updateApplicationStatus. rewrite (statusString_valid Approved), HN.
  rewrite (bind_run _ _ _ _ _ (findUnique_run _ _ _ _ _ _ _ Hfind Hj)).
  rewrite (js_is_Approved Approved), Hjl, Hk, Hja. cbn [mbind option_bind].
  rewrite (bool_decide_eq_true_2 (Approved = Approved) eq_refl).
  rewrite (bool_decide_eq_false_2 (is_Some None)) by (intros [? H]; discriminate H).
  cbn [andb negb]. rewrite andb_false_r.
  rewrite bind_assoc, (bind_run _ _ _ _ _ (lease_findFirst_run _ _ _)).
  apply find_filter_nil in Hact.
  change (List.find (active now (a_propertyId a) (a_tenantCognitoId a)) (s_leases s) = None) in Hact.
  unfold active in Hact. rewrite Hact, He.
  eexists. reflexivity.
Qed.

(** What a status update does to the store, whatever the request: nothing,
    one status written, or one lease issued. *)
Lemma updateApplicationStatus_cases now id status s log :
  wf_store s ->
  exists r s' log',
    updateApplicationStatus rt now id status {| w_store := s; w_log := log |}
    = (r, {| w_store := s'; w_log := log' |})
    /\ (s' = s
        \/ (exists n a st,
              find_application s n = Some a /\ a_status a <> Approved /\ st <> Approved
              /\ s' = with_applications (map (update_row n (set_status st))) s)
        \/ (exists n a p e,
              find_application s n = Some a
              /\ find_property s (a_propertyId a) = Some p
              /\ a_leaseId a = None
              /\ active_leases s now (a_propertyId a) (a_tenantCognitoId a) = []
              /\ JSDate.setFullYear (clock rt now 2) (JSDate.getFullYear (clock rt now 3) + 1) = Some e
              /\ s' = issue_lease (clock rt now 1) e n p a s)).
Proof.
  intros Hwf.
  destruct (negb (truthy status) || negb (includes validStatuses status)) eqn:Hv.
  { unfold updateApplicationStatus. rewrite Hv. do 3 eexists. split; [reflexivity|auto]. }
  destruct (valid_status_statusString _ Hv) as [st ->].
  destruct (Number rt id) as [n|] eqn:HN.
  2:{ unfold updateApplicationStatus. rewrite Hv, HN.
      do 3 eexists. split; [reflexivity|auto]. }
  destruct (find_application s n) as [a|] eqn:Hfind.
  2:{ unfold updateApplicationStatus. rewrite Hv, HN.
      destruct (isInt n) eqn:Hint.
      - rewrite (bind_run _ _ _ _ _ (findUnique_none _ _ _ _ _ Hfind Hint)).
        do 3 eexists. split; [reflexivity|auto].
      - rewrite (bind_fail _ _ _ _ _ (findUnique_refused _ _ _ _ _ Hfind Hint)).
        do 3 eexists. split; [reflexivity|auto]. }
  destruct (find_application_In _ _ _ Hfind) as [Hin _].
  destruct (decide (st = Approved)) as [->|Hst].
  - destruct (a_leaseId a) as [k|] eqn:Hk.
    + destruct (wf_store_application s a Hwf Hin) as (_ & _ & Hl & _).
      rewrite Hk in Hl. destruct Hl as [l Hl].
      destruct (update_rejects_leased rt now id n a k l s log Hwf HN Hfind Hk Hl) as [log' H].
      do 3 eexists. split; [exact H|auto].
    + destruct (active_leases s now (a_propertyId a) (a_tenantCognitoId a)) as [|l0 ls] eqn:Hact.
      * destruct (wf_store_application s a Hwf Hin) as ([p Hp] & _).
        destruct (JSDate.setFullYear (clock rt now 2) (JSDate.getFullYear (clock rt now 3) + 1)) as [e|] eqn:He.
        -- destruct (update_approve_run rt now id n a p e s log Hwf HN Hfind Hp Hk Hact He)
             as (j & log' & H & _).
           do 3 eexists. split; [exact H|]. right. right. exists n, a, p, e. auto 10.
        -- destruct (update_approve_invalid_date now id n a s log Hwf HN Hfind Hk Hact He)
             as [log' H].
           do 3 eexists. split; [exact H|auto].
      * destruct (update_rejects_active rt now id n a s log Hwf HN Hfind Hk) as [log' H].
        { rewrite Hact. discriminate. }
        do 3 eexists. split; [exact H|auto].
  - destruct (decide (a_status a = Approved)) as [Ha|Ha].
    + destruct (update_rejects_approved rt now id n a st s log Hwf HN Hfind Ha Hst) as [log' H].
      do 3 eexists. split; [exact H|auto].
    + destruct (update_status_run rt now id n a st s log Hwf HN Hfind Ha Hst)
        as (j & log' & H & _).
      do 3 eexists. split; [exact H|]. right. left. exists n, a, st. auto.
Qed.

(** *** The lease in force *)

Lemma active_leases_mono s now now' pid cid :
  now <= now' ->
  (length (active_leases s now' pid cid) <= length (active_leases s now pid cid))%nat.
Proof.
  intros Hle. unfold active_leases. induction (s_leases s) as [|l ls IH]; [reflexivity|].
  cbn [List.filter].
  assert (Himp : active now' pid cid l = true -> active now pid cid l = true).
  { unfold active. rewrite !andb_true_iff, !Z.leb_le. intros [H1 H2]. split; [exact H1|lia]. }
  destruct (active now' pid cid l); [rewrite Himp by reflexivity|];
    [|destruct (active now pid cid l)]; cbn [length]; lia.
Qed.

Lemma single_active_lease_mono s now now' :
  now <= now' -> single_active_lease s now -> single_active_lease s now'.
Proof.
  intros Hle H pid cid. pose proof (active_leases_mono s now now' pid cid Hle).
  specialize (H pid cid). lia.
Qed.

Lemma single_active_lease_issue now start e n p a s :
  single_active_lease s now ->
  active_leases s now (a_propertyId a) (a_tenantCognitoId a) = [] ->
  single_active_lease (issue_lease start e n p a s) now.
Proof.
  intros Hs Hact pid cid. unfold active_leases, issue_lease.
  cbn [with_applications with_properties insert_lease s_leases].
  rewrite List.filter_app, List.length_app. cbn [List.filter].
  destruct (active now pid cid (issued_lease s start e p a)) eqn:Hl; cbn [length].
  - unfold active in Hl. cbn [issued_lease l_propertyId l_tenantCognitoId] in Hl.
    rewrite !andb_true_iff, !bool_decide_eq_true in Hl. destruct Hl as [[<- <-] _].
    fold (active_leases s now (a_propertyId a) (a_tenantCognitoId a)).
    rewrite Hact. cbn [length]. lia.
  - specialize (Hs pid cid). unfold active_leases in Hs. lia.
Qed.

(** *** Only approved applications carry a lease *)

Lemma unique_application s n a x :
  wf_store s -> find_application s n = Some a ->
  In x (s_applications s) -> a_id x = n -> x = a.
Proof.
  intros [_ _ _ Hn] Hfind Hx Hid.
  destruct (find_application_In _ _ _ Hfind) as [Ha Haid].
  revert Hn Hx Ha. generalize (s_applications s). intros l.
  induction l as [|y l IH]; cbn [map]; intros Hn Hx Ha; [destruct Hx|].
  apply NoDup_cons in Hn as [Hy Hn].
  assert (Hout : forall z, In z l -> a_id z = a_id y -> False).
  { intros z Hz Hzy. apply Hy. apply list_elem_of_In, List.in_map_iff. eauto. }
  destruct Hx as [->|Hx], Ha as [Ha|Ha]; try congruence.
  - exfalso. apply (Hout a Ha). congruence.
  - subst y. exfalso. apply (Hout x Hx). congruence.
  - apply IH; assumption.
Qed.

Lemma lease_implies_approved_update n a st s :
  wf_store s -> lease_implies_approved s ->
  find_application s n = Some a -> a_status a <> Approved ->
  lease_implies_approved (with_applications (map (update_row n (set_status st))) s).
Proof.
  intros Hwf HI Hfind Ha. unfold lease_implies_approved in *.
  cbn [with_applications s_applications]. apply List.Forall_forall.
  intros y Hy. apply List.in_map_iff in Hy as (x & <- & Hx).
  rewrite List.Forall_forall in HI. specialize (HI x Hx).
  unfold update_row. destruct (bool_decide (a_id x = n)) eqn:Hb; [|exact HI].
  apply bool_decide_eq_true in Hb.
  rewrite (unique_application s n a x Hwf Hfind Hx Hb) in *.
  cbn [set_status a_leaseId a_status]. intros Hl. exfalso. apply Ha, HI, Hl.
Qed.

Lemma lease_implies_approved_issue now e n p a s :
  lease_implies_approved s -> lease_implies_approved (issue_lease now e n p a s).
Proof.
  intros HI. unfold lease_implies_approved, issue_lease in *.
  cbn [with_applications with_properties insert_lease s_applications].
  rewrite List.map_map. apply List.Forall_forall.
  intros y Hy. apply List.in_map_iff in Hy as (x & <- & Hx).
  rewrite List.Forall_forall in HI. specialize (HI x Hx).
  unfold approve_row, update_row. destruct (bool_decide (a_id x = n)) eqn:Hb.
  - unfold deny_rival, update_rows. cbn [set_leaseId set_status a_status a_id a_propertyId].
    destruct (_ && _ && bool_decide (Approved = Pending)) eqn:Hc; [|reflexivity].
    rewrite !andb_true_iff, bool_decide_eq_true in Hc. destruct Hc as [_ Hc]. discriminate Hc.
  - unfold deny_rival, update_rows.
    destruct (_ && _ && bool_decide (a_status x = Pending)) eqn:Hc; [|exact HI].
    rewrite !andb_true_iff, !bool_decide_eq_true in Hc. destruct Hc as [_ Hc].
    cbn [set_status a_leaseId a_status]. intros Hl. specialize (HI Hl). congruence.
Qed.

Lemma lease_implies_approved_insert a s :
  lease_implies_approved s -> a_leaseId a = None ->
  lease_implies_approved (insert_application a s).
Proof.
  intros HI Ha. unfold lease_implies_approved in *.
  cbn [insert_application s_applications]. apply List.Forall_app. split; [exact HI|].
  constructor; [|constructor]. rewrite Ha. intros [? H]. discriminate H.
Qed.

(** *** Every reachable state is well-formed, links leases to approved
    applications only, and has one lease in force at most *)
Lemma invariant_initial now s : initial s -> invariant now s.
Proof.
  intros (Ha & Hl & Hwf). split; [assumption|]. split.
  - unfold lease_implies_approved. rewrite Ha. constructor.
  - intros pid cid. unfold active_leases. rewrite Hl. cbn. lia.
Qed.

Lemma invariant_serve now now' r s :
  now <= now' -> invariant now s -> invariant now' (serve rt now' r s).
Proof.
  intros Hle (Hwf & HI & Hs).
  apply (single_active_lease_mono s now now' Hle) in Hs.
  destruct r as [query|body|id status]; unfold serve.
  - rewrite listApplications_readonly. cbn [w_store]. split; [assumption|split; assumption].
  - destruct (createApplication_cases rt now' body s [])
      as (r & s' & log' & -> & [[-> _]|(row & j & Hrow & _ & Hja & _ & -> & Hp & Ht & _)]);
      cbn [snd w_store]; [split; [assumption|split; assumption]|].
    destruct (decodeApplication_row rt _ _ (s_nextApplicationId s) Hrow) as (Hid & Hl & _).
    rewrite Hja in Hp, Ht. split; [|split].
    + apply wf_store_insert_application; assumption.
    + apply lease_implies_approved_insert; assumption.
    + exact Hs.
  - destruct (updateApplicationStatus_cases now' id status s [] Hwf)
      as (r & s' & log' & -> & [->|[(n & a & st & Hfind & Ha & Hst & ->)
                                    |(n & a & p & e & Hfind & Hp & Hk & Hact & _ & ->)]]);
      cbn [snd w_store].
    + split; [assumption|split; assumption].
    + split; [|split].
      * apply wf_store_update_status. assumption.
      * apply lease_implies_approved_update with a; assumption.
      * exact Hs.
    + split; [|split].
      * apply wf_store_issue_lease; assumption.
      * apply lease_implies_approved_issue. assumption.
      * apply single_active_lease_issue; assumption.
Qed.

Lemma reachable_invariant now s : reachable rt now s -> invariant now s.
Proof.
  induction 1 as [now s Hinit|now now' r s _ IH Hle].
  - apply invariant_initial. assumption.
  - apply invariant_serve with now; assumption.
Qed.

End Invariants.

(** * The claims *)
Section Claims.

Variable rt : Runtime.

#[local] Opaque JSDate.setFullYear JSDate.getFullYear JSDate.setMonth JSDate.getMonth clock.

(** C1 (as the code has it).  Every submission that [createApplication]
    accepts creates an application without a lease and creates no lease: the
    lease table is the same and the store has exactly the new row more.  The
    status of the new application is the status the body supplies, and
    Pending when the body supplies none (or a falsy one): the handler stores
    [status || "Pending"]. *)
Theorem submission_creates_no_lease now body s log j :
  fst (createApplication rt now body {| w_store := s; w_log := log |}) = Ok j ->
  let s' := w_store (snd (createApplication rt now body {| w_store := s; w_log := log |})) in
  a_leaseId (j_app j) = None
  /\ j_lease j = None
  /\ s_leases s' = s_leases s
  /\ s' = insert_application (j_app j) s
  /\ Some (a_status (j_app j)) = asStatus (js_or (field body "status") (JStr "Pending"))
  /\ (truthy (field body "status") = false -> a_status (j_app j) = Pending).
Proof.
  destruct (createApplication_cases rt now body s log)
    as (r & s' & log' & -> & [[_ [f ->]]|(row & j' & Hrow & -> & Hja & Hjl & -> & _)]);
    cbn [fst snd w_store]; intros Hj; [discriminate Hj|].
  injection Hj as <-.
  destruct (decodeApplication_row rt _ _ (s_nextApplicationId s) Hrow) as (_ & Hl & Hst & _).
  rewrite <- Hja in Hl, Hst. cbn [createData c_status] in Hst.
  split; [assumption|]. split; [assumption|]. split; [reflexivity|].
  split; [now rewrite Hja|]. split; [assumption|].
  intros Hf. unfold js_or in Hst. rewrite Hf in Hst. cbn in Hst. congruence.
Qed.

(** C9.  Setting an application that is not approved to Denied or to Pending
    writes the status of that one application and nothing else: the lease
    table, the properties with their sets of tenants and the other tables
    are the same, every application keeps its lease link, every other
    application is the same row as before, and the handler answers with the
    updated application. *)
Theorem deny_or_reopen_writes_one_status now id n a st s log :
  wf_store s -> Number rt id = Some n -> find_application s n = Some a ->
  a_status a <> Approved -> st = Denied \/ st = Pending ->
  let r := updateApplicationStatus rt now id (statusString st)
             {| w_store := s; w_log := log |} in
  let s' := w_store (snd r) in
  s_leases s' = s_leases s
  /\ s_nextLeaseId s' = s_nextLeaseId s
  /\ s_properties s' = s_properties s
  /\ s_tenants s' = s_tenants s
  /\ s_applications s' = map (update_row n (set_status st)) (s_applications s)
  /\ (forall x, a_leaseId (update_row n (set_status st) x) = a_leaseId x)
  /\ (forall x, a_id x <> n -> update_row n (set_status st) x = x)
  /\ (exists j, fst r = Ok (Some j) /\ j_app j = set_status st a).
Proof.
  intros Hwf HN Hfind Ha Hst.
  assert (Hst' : st <> Approved) by (destruct Hst; subst st; discriminate).
  destruct (update_status_run rt now id n a st s log Hwf HN Hfind Ha Hst')
    as (j & log' & H & Hj).
  cbv zeta. rewrite H. cbn [fst snd w_store].
  do 5 (split; [reflexivity|]). split; [|split].
  - intros x. unfold update_row. destruct (bool_decide _); reflexivity.
  - intros x Hx. unfold update_row. now rewrite bool_decide_eq_false_2.
  - exists j. split; [reflexivity|assumption].
Qed.

(** C3 (as the code has it).  An approved application stays approved: a
    request to set it to Pending or to Denied fails with
    CannotModifyApproved, and a request to approve it again, when it has
    its lease, fails with LeaseAlreadyExists; neither changes the store. *)
Theorem approved_is_terminal now id n a s log :
  wf_store s -> Number rt id = Some n -> find_application s n = Some a ->
  a_status a = Approved ->
  (forall st, st <> Approved ->
     let r := updateApplicationStatus rt now id (statusString st)
                {| w_store := s; w_log := log |} in
     fst r = Fail CannotModifyApproved /\ w_store (snd r) = s)
  /\ (is_Some (a_leaseId a) ->
      let r := updateApplicationStatus rt now id (JStr "Approved")
                 {| w_store := s; w_log := log |} in
      fst r = Fail LeaseAlreadyExists /\ w_store (snd r) = s).
Proof.
  intros Hwf HN Hfind Ha. split.
  - intros st Hst.
    destruct (update_rejects_approved rt now id n a st s log Hwf HN Hfind Ha Hst) as [log' H].
    cbv zeta. rewrite H. split; reflexivity.
  - intros [k Hk].
    destruct (find_application_In _ _ _ Hfind) as [Hin _].
    destruct (wf_store_application s a Hwf Hin) as (_ & _ & Hl & _).
    rewrite Hk in Hl. destruct Hl as [l Hl].
    destruct (update_rejects_leased rt now id n a k l s log Hwf HN Hfind Hk Hl) as [log' H].
    cbv zeta. rewrite H. split; reflexivity.
Qed.

(** C5 (as the code has it).  A submission that passes validation for a
    tenant and a property is turned down with a conflict while an
    application of that tenant for that property is pending or approved:
    with DuplicateApproved only if one is approved, with DuplicatePending
    only if one is pending, and the store is unchanged.  When all of them
    are denied (or there is none), the submission is accepted, provided the
    property and the tenant exist and the schema accepts the data: one
    application is added, with the status the body supplies, Pending when
    it supplies none. *)
Theorem duplicate_guard now body pid cid s log :
  wf_store s -> passes_validation body ->
  field body "propertyId" = JNum pid -> field body "tenantCognitoId" = JStr cid ->
  let r := createApplication rt now body {| w_store := s; w_log := log |} in
  ((exists x, In x (applications_of s pid cid) /\ a_status x <> Denied) ->
   w_store (snd r) = s
   /\ ((fst r = Fail DuplicateApproved
        /\ exists y, In y (applications_of s pid cid) /\ a_status y = Approved)
       \/ (fst r = Fail DuplicatePending
           /\ exists y, In y (applications_of s pid cid) /\ a_status y = Pending)))
  /\ (Forall (fun x => a_status x = Denied) (applications_of s pid cid) ->
      is_Some (find_property s pid) -> is_Some (find_tenant s cid) ->
      is_Some (decodeApplication rt (createData rt now body)) ->
      exists j,
        fst r = Ok j
        /\ w_store (snd r) = insert_application (j_app j) s
        /\ a_id (j_app j) = s_nextApplicationId s
        /\ a_propertyId (j_app j) = pid
        /\ a_tenantCognitoId (j_app j) = cid
        /\ Some (a_status (j_app j)) = asStatus (js_or (field body "status") (JStr "Pending"))
        /\ (truthy (field body "status") = false -> a_status (j_app j) = Pending)).
Proof.
  intros Hwf Hval Hpid Hcid. cbv zeta. split.
  - intros (x & Hx & Hst).
    destruct (createApplication_duplicate rt now body pid cid x s log
                Hwf Hval Hpid Hcid Hx Hst) as (f & log' & H & Hf).
    rewrite H. cbn [fst snd w_store]. split; [reflexivity|].
    destruct Hf as [[-> Hy]|[-> Hy]]; [left|right]; (split; [reflexivity|assumption]).
  - intros Hden [p Hp] [t Ht] [row Hrow].
    destruct (createApplication_accepted rt now body pid cid p t row s log
                Hwf Hval Hpid Hcid Hp Ht Hden Hrow) as (j & log' & H & Hja).
    rewrite H. cbn [fst snd w_store]. exists j.
    destruct (decodeApplication_row rt _ _ (s_nextApplicationId s) Hrow)
      as (Hid & _ & Hst & Hrp & Hrc).
    cbn [createData c_status c_propertyId c_tenantCognitoId] in Hst, Hrp, Hrc.
    rewrite Hpid in Hrp. rewrite Hcid in Hrc. cbn [asInt asString] in Hrp, Hrc.
    rewrite <- Hja in *.
    split; [reflexivity|]. split; [reflexivity|]. split; [assumption|].
    split; [congruence|]. split; [congruence|]. split; [assumption|].
    intros Hf. unfold js_or in Hst. rewrite Hf in Hst. cbn in Hst. congruence.
Qed.

(** C4.  Approving a pending application, in one step of the store: one
    lease is added for its tenant and property; the application becomes
    Approved and points at that lease; the tenant is added to the tenants of
    the property and no other property changes; every other application for
    the property that was pending becomes Denied; every other row, those
    already denied or approved among them, is the row it was.  The
    hypotheses are the guards of the handler (no lease in force for the
    tenant on the property, an end date in the range of [Date], which is
    what [setFullYear] makes of the readings of the clock; see lemma
    [end_date_in_range]) and the invariants of the store. *)
Theorem approval_issues_lease_and_denies_rivals now id n a p s log :
  wf_store s -> lease_implies_approved s ->
  Number rt id = Some n -> find_application s n = Some a ->
  a_status a = Pending ->
  find_property s (a_propertyId a) = Some p ->
  active_leases s now (a_propertyId a) (a_tenantCognitoId a) = [] ->
  is_Some (JSDate.setFullYear (clock rt now 2) (JSDate.getFullYear (clock rt now 3) + 1)) ->
  let r := updateApplicationStatus rt now id (JStr "Approved")
             {| w_store := s; w_log := log |} in
  let s' := w_store (snd r) in
  exists l,
    s_leases s' = s_leases s ++ [l]
    /\ find_lease s' (l_id l) = Some l
    /\ l_propertyId l = a_propertyId a
    /\ l_tenantCognitoId l = a_tenantCognitoId a
    /\ s_applications s'
       = map (fun x =>
                if bool_decide (a_id x = n)
                then set_leaseId (Some (l_id l)) (set_status Approved x)
                else if bool_decide (a_propertyId x = a_propertyId a)
                        && bool_decide (a_status x = Pending)
                     then set_status Denied x
                     else x)
           (s_applications s)
    /\ s_properties s'
       = map (fun q =>
                if bool_decide (p_id q = a_propertyId a)
                then add_tenant (a_tenantCognitoId a) q
                else q)
           (s_properties s)
    /\ (exists q, find_property s' (a_propertyId a) = Some q
                  /\ a_tenantCognitoId a ∈ p_tenants q)
    /\ (exists j, fst r = Ok (Some j)
                  /\ j_app j = set_leaseId (Some (l_id l)) (set_status Approved a)
                  /\ j_lease j = Some l).
Proof.
  intros Hwf HI HN Hfind Ha Hp Hact [e He].
  destruct (find_application_In _ _ _ Hfind) as [Hin Hid].
  assert (Hk : a_leaseId a = None).
  { unfold lease_implies_approved in HI. rewrite List.Forall_forall in HI.
    specialize (HI a Hin). destruct (a_leaseId a); [|reflexivity].
    rewrite HI in Ha by eauto. discriminate Ha. }
  destruct (update_approve_run rt now id n a p e s log Hwf HN Hfind Hp Hk Hact He)
    as (j & log' & H & Hja & Hjl).
  cbv zeta. rewrite H. cbn [fst snd w_store].
  exists (issued_lease s (clock rt now 1) e p a).
  split; [reflexivity|]. split.
  { change (find_lease (issue_lease (clock rt now 1) e n p a s) (s_nextLeaseId s))
      with (find_lease (insert_lease (issued_lease s (clock rt now 1) e p a) s)
              (s_nextLeaseId s)).
    apply find_lease_insert_new; [assumption|reflexivity]. }
  split; [reflexivity|]. split; [reflexivity|]. split.
  { unfold issue_lease. cbn [with_applications with_properties insert_lease s_applications].
    rewrite List.map_map. apply List.map_ext. intros x.
    unfold approve_row, update_row, deny_rival, update_rows. cbn [issued_lease l_id].
    destruct (bool_decide (a_id x = n)) eqn:Hb.
    - cbn [set_leaseId set_status a_id a_propertyId a_status]. rewrite Hb.
      cbn [negb]. now rewrite andb_false_r.
    - rewrite Hb. cbn [negb]. now rewrite andb_true_r. }
  split; [reflexivity|]. split.
  { unfold issue_lease.
    change (find_property (with_applications _ (with_applications _ ?s0)) ?k)
      with (find_property s0 k).
    rewrite find_property_map by apply connect_tenant_id.
    change (find_property (insert_lease _ s) (a_propertyId a))
      with (find_property s (a_propertyId a)).
    rewrite Hp. cbn [fmap option_fmap option_map]. eexists. split; [reflexivity|].
    destruct (find_property_In _ _ _ Hp) as [_ Hpid].
    unfold connect_tenant. rewrite bool_decide_eq_true_2 by assumption.
    cbn [add_tenant p_tenants]. set_solver. }
  exists j. split; [reflexivity|]. split; assumption.
Qed.

(** C6 (as the code has it).  Every lease a status update creates is the
    one lease the update adds, and it has the terms of the approval: rent
    and deposit are the [pricePerMonth] and the [securityDeposit] of the
    property of the application as the handler read them.  The handler reads
    the clock anew for each date.  The start date is the reading it takes
    when it creates the lease, at or after the time [now] of the guard.  The
    end date comes from two later readings: when they fall in the same
    calendar year it is one calendar year after the first of them, that is
    the same time of day on the same day of the same month of the following
    year (1 March when that reading falls on 29 February, which the
    following year does not have).  So the end date is the start date plus
    one calendar year whenever the clock has not moved on between the
    readings. *)
Theorem issued_lease_terms now id status s log :
  wf_store s ->
  let s' := w_store (snd (updateApplicationStatus rt now id status
                            {| w_store := s; w_log := log |})) in
  forall l, In l (s_leases s') -> ~ In l (s_leases s) ->
    s_leases s' = s_leases s ++ [l]
    /\ (exists n a p,
          find_application s n = Some a
          /\ find_property s (a_propertyId a) = Some p
          /\ l_propertyId l = a_propertyId a
          /\ l_tenantCognitoId l = a_tenantCognitoId a
          /\ l_rent l = p_pricePerMonth p
          /\ l_deposit l = p_securityDeposit p)
    /\ l_startDate l = clock rt now 1
    /\ now <= l_startDate l <= clock rt now 2
    /\ (JSDate.getFullYear (clock rt now 3) = JSDate.getFullYear (clock rt now 2) ->
        l_endDate l = Civil.nextYear (clock rt now 2)
        /\ Civil.civil (l_endDate l)
           = (if Civil.isLeapDay (clock rt now 2)
              then (JSDate.YearFromTime (clock rt now 2) + 1, 2, 1)
              else (JSDate.YearFromTime (clock rt now 2) + 1,
                    JSDate.MonthFromTime (clock rt now 2),
                    JSDate.DateFromTime (clock rt now 2)))
        /\ JSDate.TimeWithinDay (l_endDate l) = JSDate.TimeWithinDay (clock rt now 2))
    /\ (clock rt now 3 = clock rt now 1 -> l_endDate l = Civil.nextYear (l_startDate l)).
Proof.
  intros Hwf.
  destruct (updateApplicationStatus_cases rt now id status s log Hwf)
    as (r & s' & log' & H & [->|[(n & a & st & _ & _ & _ & ->)
                                 |(n & a & p & e & Hfind & Hp & _ & _ & He & ->)]]);
    cbv zeta; rewrite H; cbn [snd w_store]; intros l Hl Hnew;
    [contradiction|contradiction|].
  assert (Hl' : l = issued_lease s (clock rt now 1) e p a).
  { unfold issue_lease in Hl.
    cbn [with_applications with_properties insert_lease s_leases] in Hl.
    apply List.in_app_or in Hl as [Hl|[Hl|[]]]; [contradiction|now symmetry]. }
  subst l.
  assert (Hyear : JSDate.getFullYear (clock rt now 3) = JSDate.getFullYear (clock rt now 2) ->
                  e = Civil.nextYear (clock rt now 2)).
  { intros Hy. rewrite Hy, JSDateFacts.setFullYear_nextYear in He.
    now apply JSDateFacts.TimeClip_Some in He. }
  cbn [issued_lease l_endDate l_startDate l_rent l_deposit l_propertyId l_tenantCognitoId].
  split; [reflexivity|]. split; [exists n, a, p; auto 10|]. split; [reflexivity|].
  split; [split; [apply clock_now|apply clock_mono; lia]|]. split.
  - intros Hy. rewrite (Hyear Hy).
    destruct (JSDateFacts.civil_nextYear (clock rt now 2)) as [Hc Ht].
    split; [reflexivity|]. split; [exact Hc|exact Ht].
  - intros Hsteady.
    assert (H2 : clock rt now 2 = clock rt now 1)
      by (apply (clock_steady rt now 2 3 1); [lia|exact Hsteady]).
    rewrite Hyear by now rewrite Hsteady, H2. now rewrite H2.
Qed.

(** C2 (as the code has it).  In every state the exposed operations reach,
    at every time from then on, no tenant has two leases in force on one
    property.  In such a state an approval is turned down while a lease of
    the tenant on the property is in force, with LeaseAlreadyExists when the
    application itself has a lease already and with ActiveLeaseExists when it
    has none, and the store is unchanged; when no such lease is in force and
    the application has no lease, the approval adds exactly one lease, which
    is for that tenant and that property. *)
Theorem single_active_lease_preserved now s :
  reachable rt now s ->
  (forall t, now <= t -> single_active_lease s t)
  /\ forall now' id n a log,
       now <= now' -> Number rt id = Some n -> find_application s n = Some a ->
       let r := updateApplicationStatus rt now' id (JStr "Approved")
                  {| w_store := s; w_log := log |} in
       (active_leases s now' (a_propertyId a) (a_tenantCognitoId a) <> [] ->
        w_store (snd r) = s
        /\ fst r = Fail (match a_leaseId a with
                         | Some _ => LeaseAlreadyExists
                         | None => ActiveLeaseExists
                         end))
       /\ (active_leases s now' (a_propertyId a) (a_tenantCognitoId a) = [] ->
           a_leaseId a = None ->
           is_Some (JSDate.setFullYear (clock rt now' 2)
                      (JSDate.getFullYear (clock rt now' 3) + 1)) ->
           exists l,
             s_leases (w_store (snd r)) = s_leases s ++ [l]
             /\ l_propertyId l = a_propertyId a
             /\ l_tenantCognitoId l = a_tenantCognitoId a
             /\ single_active_lease (w_store (snd r)) now').
Proof.
  intros Hreach. destruct (reachable_invariant rt now s Hreach) as (Hwf & HI & Hs).
  split; [intros t Ht; apply single_active_lease_mono with now; assumption|].
  intros now' id n a log Hle HN Hfind. cbv zeta.
  destruct (find_application_In _ _ _ Hfind) as [Hin _].
  destruct (wf_store_application s a Hwf Hin) as ([p Hp] & _ & Hl & _).
  split.
  - intros Hact. destruct (a_leaseId a) as [k|] eqn:Hk.
    + destruct Hl as [l Hl].
      destruct (update_rejects_leased rt now' id n a k l s log Hwf HN Hfind Hk Hl) as [log' H].
      rewrite H. split; reflexivity.
    + destruct (update_rejects_active rt now' id n a s log Hwf HN Hfind Hk Hact) as [log' H].
      rewrite H. split; reflexivity.
  - intros Hact Hk [e He].
    destruct (update_approve_run rt now' id n a p e s log Hwf HN Hfind Hp Hk Hact He)
      as (j & log' & H & _).
    rewrite H. cbn [snd w_store].
    exists (issued_lease s (clock rt now' 1) e p a).
    split; [reflexivity|]. split; [reflexivity|]. split; [reflexivity|].
    apply single_active_lease_issue; [|assumption].
    apply single_active_lease_mono with now; assumption.
Qed.

(** C8.  A status that is not exactly one of the strings "Pending",
    "Approved" and "Denied" (any other string, any value that is no string,
    no status at all) makes [updateApplicationStatus] answer InvalidStatus
    with the world as it was: the store is the same and the log of store
    accesses has no new entry, so nothing was read or written. *)
Theorem invalid_status_no_store_access now id status w :
  (forall s, status = JStr s -> ~ In s validStatuses) ->
  updateApplicationStatus rt now id status w = (Fail InvalidStatus, w).
Proof.
  intros Hbad. unfold updateApplicationStatus.
  destruct (truthy status) eqn:Ht; cbn [negb orb]; [|reflexivity].
  destruct (includes validStatuses status) eqn:Hi; cbn [negb]; [|reflexivity].
  exfalso. apply includes_validStatuses in Hi.
  destruct Hi as [-> | [-> | ->]]; eapply Hbad; try reflexivity; cbn; auto.
Qed.


(** C7 (as the code has it).  [calculateNextPaymentDate] depends on the
    start date and on the reading of the clock only.  Its result is the
    first date after [today] in the sequence that starts with the start
    date and moves one month on at each step, where a day of the month that
    the next month does not have counts into the month after.  When the day
    of the month of the start date is 28 at most, that is the smallest date
    [startDate + k months], [k >= 0], strictly greater than [today]. *)
Theorem next_payment_date_first_after today start :
  - JSDate.maxTime <= start -> today + 31 * JSDate.msPerDay <= JSDate.maxTime ->
  (exists k : nat,
     calculateNextPaymentDate today start = Some (iterate Civil.advanceMonth k start)
     /\ today < iterate Civil.advanceMonth k start
     /\ forall j : nat, (j < k)%nat -> iterate Civil.advanceMonth j start <= today)
  /\ (JSDate.getDate start <= 28 ->
      exists k : Z,
        0 <= k
        /\ calculateNextPaymentDate today start = Some (Civil.addMonths start k)
        /\ today < Civil.addMonths start k
        /\ forall j : Z, 0 <= j -> today < Civil.addMonths start j -> k <= j).
Proof.
  intros Hlo Hhi. split.
  - apply JSDateFacts.calculateNextPaymentDate_iterate; assumption.
  - intros HD. apply JSDateFacts.calculateNextPaymentDate_least; assumption.
Qed.

(** C10.  When [userId] or [userType] is absent, or [userType] is neither
    "tenant" nor "manager", [listApplications] filters nothing: it answers
    with one view per application of the store, in the order of the table,
    each with the property and the tenant it refers to, and leaves the store
    as it was; it does not fail and the collection is empty only when the
    table is. *)
Theorem listApplications_without_selector now query s log :
  wf_store s -> no_selector query ->
  exists views log',
    listApplications now query {| w_store := s; w_log := log |}
    = (Ok views, {| w_store := s; w_log := log' |})
    /\ map (fun v => j_app (v_app v)) views = s_applications s
    /\ Forall (fun v =>
                 find_property s (a_propertyId (j_app (v_app v)))
                 = Some (j_property (v_app v))
                 /\ find_tenant s (a_tenantCognitoId (j_app (v_app v)))
                    = Some (j_tenant (v_app v)))
         views.
Proof.
  intros Hwf Hsel.
  destruct (mapR_join true false s (s_applications s) Hwf (fun a H => H))
    as (js & Hjs & Hmap & Hall).
  unfold listApplications.
  replace (if truthy (field query "userId") && truthy (field query "userType")
           then if js_is (field query "userType") "tenant"
                then whereTenant (ToString (field query "userId"))
                else if js_is (field query "userType") "manager"
                     then whereManager (ToString (field query "userId"))
                     else whereAll
           else whereAll) with whereAll.
  2:{ destruct Hsel as [-> | [-> | [-> ->]]];
        [reflexivity|now rewrite andb_false_r|now destruct (_ && _)]. }
  unfold bind at 1, application_findMany, reading at 1. cbn [w_store w_log].
  rewrite filter_whereAll, Hjs.
  match goal with
  | |- context [mapM ?f js ?w] =>
      destruct (mapM_views f
                  (fun app =>
                     {| v_app := app;
                        v_address := loc_address <$> j_location app;
                        v_manager := j_manager app;
                        v_lease :=
                          (fun l => {| lv_lease := l;
                                       lv_nextPaymentDate :=
                                         calculateNextPaymentDate now (l_startDate l) |})
                          <$> fold_left latest
                                (List.filter
                                   (fun l => bool_decide (l_tenantCognitoId l
                                                          = a_tenantCognitoId (j_app app))
                                             && bool_decide (l_propertyId l
                                                             = a_propertyId (j_app app)))
                                   (s_leases s)) None |})
                  s js) with (w_log w) as [log' Hviews]
  end.
  { intros app log0. eexists. reflexivity. }
  cbn [w_log] in Hviews. rewrite Hviews.
  do 2 eexists. split; [reflexivity|]. split.
  - rewrite List.map_map. cbn [v_app]. exact Hmap.
  - apply List.Forall_map. cbn [v_app]. exact Hall.
Qed.


End Claims.

(** * The claims on the sample instance *)

(** A concrete store is well-formed by computation. *)
Ltac forall_by_computation tac :=
  match goal with
  | |- Forall ?P ?l => let l' := eval vm_compute in l in change (Forall P l')
  end;
  repeat (apply List.Forall_cons; [tac|]); apply List.Forall_nil.

Ltac wf_by_computation :=
  split;
  [ forall_by_computation ltac:(repeat split; vm_compute; eauto)
  | forall_by_computation ltac:(repeat split; vm_compute; eauto)
  | forall_by_computation ltac:(vm_compute; reflexivity)
  | apply (bool_decide_unpack _); vm_compute; exact I ].

Lemma submission_creates_no_lease_witness :
  fst (createApplication Sample.rt Sample.jan31 (Sample.submission 1 "T1") Sample.world0)
  = Ok Sample.created
  /\ a_status (j_app Sample.created) = Pending
  /\ s_leases (w_store (snd (createApplication Sample.rt Sample.jan31
                               (Sample.submission 1 "T1") Sample.world0))) = [].
Proof.
  assert (H : fst (createApplication Sample.rt Sample.jan31 (Sample.submission 1 "T1")
                     Sample.world0) = Ok Sample.created) by (vm_compute; reflexivity).
  split; [exact H|].
  destruct (submission_creates_no_lease Sample.rt Sample.jan31 (Sample.submission 1 "T1")
              Sample.store0 [] Sample.created H) as (_ & _ & Hl & _ & _ & Hp).
  split; [apply Hp; reflexivity|exact Hl].
Defined.

(** The caller of [createApplication] chooses the status: a body with
    [status: "Approved"] creates an approved application. *)
Lemma submission_with_status_is_not_pending :
  (fun j => a_status (j_app j))
    <$> ok (fst (createApplication Sample.rt Sample.jan31 (Sample.selfApproved 1 "T1")
                   Sample.world0))
  = Some Approved.
Proof. vm_compute. reflexivity. Qed.

Lemma deny_or_reopen_writes_one_status_witness :
  wf_store Sample.submitted
  /\ find_application Sample.submitted 1 = Some (Sample.application 1 "T1" Pending)
  /\ s_leases (w_store (snd (updateApplicationStatus Sample.rt Sample.mar10 "1"
                               (JStr "Denied")
                               {| w_store := Sample.submitted; w_log := [] |})))
     = s_leases Sample.submitted.
Proof.
  assert (Hwf : wf_store Sample.submitted) by wf_by_computation.
  assert (Hfind : find_application Sample.submitted 1
                  = Some (Sample.application 1 "T1" Pending)) by (vm_compute; reflexivity).
  split; [exact Hwf|]. split; [exact Hfind|].
  assert (HN : Number Sample.rt "1" = Some 1) by (vm_compute; reflexivity).
  assert (Hst : a_status (Sample.application 1 "T1" Pending) <> Approved) by discriminate.
  exact (proj1 (deny_or_reopen_writes_one_status Sample.rt Sample.mar10 "1" 1
                  (Sample.application 1 "T1" Pending) Denied Sample.submitted []
                  Hwf HN Hfind Hst (or_introl eq_refl))).
Defined.

Lemma approved_is_terminal_witness :
  wf_store Sample.approved
  /\ (a_status <$> find_application Sample.approved 1) = Some Approved
  /\ fst (updateApplicationStatus Sample.rt Sample.mar10 "1" (JStr "Pending")
            {| w_store := Sample.approved; w_log := [] |})
     = Fail CannotModifyApproved.
Proof.
  assert (Hwf : wf_store Sample.approved) by wf_by_computation.
  assert (Hfind : find_application Sample.approved 1
                  = Some (set_leaseId (Some 1)
                            (set_status Approved (Sample.application 1 "T1" Pending))))
    by (vm_compute; reflexivity).
  split; [exact Hwf|]. split; [rewrite Hfind; reflexivity|].
  assert (HN : Number Sample.rt "1" = Some 1) by (vm_compute; reflexivity).
  assert (Hst : Pending <> Approved) by discriminate.
  exact (proj1 (proj1 (approved_is_terminal Sample.rt Sample.mar10 "1" 1 _
                         Sample.approved [] Hwf HN Hfind eq_refl) Pending Hst)).
Defined.

(** Approving an approved application once more is turned down, but with
    LeaseAlreadyExists, not with CannotModifyApproved. *)
Lemma approving_twice_is_not_CannotModifyApproved :
  (a_status <$> find_application Sample.approved 1) = Some Approved
  /\ fst (updateApplicationStatus Sample.rt Sample.mar10 "1" (JStr "Approved")
            {| w_store := Sample.approved; w_log := [] |})
     = Fail LeaseAlreadyExists.
Proof. split; vm_compute; reflexivity. Qed.

Lemma duplicate_guard_witness :
  wf_store Sample.submitted
  /\ passes_validation (Sample.submission 1 "T1")
  /\ fst (createApplication Sample.rt Sample.mar10 (Sample.submission 1 "T1")
            {| w_store := Sample.submitted; w_log := [] |})
     = Fail DuplicatePending.
Proof.
  assert (Hwf : wf_store Sample.submitted) by wf_by_computation.
  assert (Hval : passes_validation (Sample.submission 1 "T1"))
    by (repeat split; vm_compute; reflexivity).
  split; [exact Hwf|]. split; [exact Hval|].
  assert (Hpid : field (Sample.submission 1 "T1") "propertyId" = JNum 1)
    by (vm_compute; reflexivity).
  assert (Hcid : field (Sample.submission 1 "T1") "tenantCognitoId" = JStr "T1")
    by (vm_compute; reflexivity).
  destruct (duplicate_guard Sample.rt Sample.mar10 (Sample.submission 1 "T1") 1 "T1"
              Sample.submitted [] Hwf Hval Hpid Hcid) as [Hdup _].
  destruct Hdup as (_ & [[_ (y & Hy & Hst)]|[H _]]).
  - exists (Sample.application 1 "T1" Pending). split; [vm_compute; auto|discriminate].
  - exfalso. vm_compute in Hy. destruct Hy as [<-|[]]. discriminate Hst.
  - exact H.
Defined.

(** After a denial the same tenant applies again and chooses the status:
    the application that is created is approved, not pending. *)
Lemma resubmission_with_status_is_not_pending :
  map a_status (applications_of Sample.denied 1 "T1") = [Denied]
  /\ (fun j => a_status (j_app j))
       <$> ok (fst (createApplication Sample.rt Sample.mar10 (Sample.selfApproved 1 "T1")
                      {| w_store := Sample.denied; w_log := [] |}))
     = Some Approved.
Proof. split; vm_compute; reflexivity. Qed.

Lemma approval_issues_lease_and_denies_rivals_witness :
  wf_store Sample.rivals
  /\ map a_status (s_applications Sample.rivals) = [Pending; Pending]
  /\ map a_status
       (s_applications
          (w_store (snd (updateApplicationStatus Sample.rt Sample.mar10 "1" (JStr "Approved")
                           {| w_store := Sample.rivals; w_log := [] |}))))
     = [Approved; Denied].
Proof.
  assert (Hwf : wf_store Sample.rivals) by wf_by_computation.
  assert (HI : lease_implies_approved Sample.rivals)
    by (unfold lease_implies_approved;
        forall_by_computation ltac:(intros [? H]; discriminate H)).
  assert (HN : Number Sample.rt "1" = Some 1) by (vm_compute; reflexivity).
  assert (Hfind : find_application Sample.rivals 1
                  = Some (Sample.application 1 "T1" Pending)) by (vm_compute; reflexivity).
  assert (Hst : a_status (Sample.application 1 "T1" Pending) = Pending) by reflexivity.
  assert (Hp : find_property Sample.rivals
                 (a_propertyId (Sample.application 1 "T1" Pending)) = Some Sample.loft)
    by (vm_compute; reflexivity).
  assert (Hact : active_leases Sample.rivals Sample.mar10
                   (a_propertyId (Sample.application 1 "T1" Pending))
                   (a_tenantCognitoId (Sample.application 1 "T1" Pending)) = [])
    by (vm_compute; reflexivity).
  assert (He : is_Some (JSDate.setFullYear (clock Sample.rt Sample.mar10 2)
                          (JSDate.getFullYear (clock Sample.rt Sample.mar10 3) + 1)))
    by (vm_compute; eexists; reflexivity).
  split; [exact Hwf|]. split; [vm_compute; reflexivity|].
  destruct (approval_issues_lease_and_denies_rivals Sample.rt Sample.mar10 "1" 1
              (Sample.application 1 "T1" Pending) Sample.loft Sample.rivals []
              Hwf HI HN Hfind Hst Hp Hact He)
    as (l & _ & _ & _ & _ & Happs & _).
  rewrite Happs. vm_compute. reflexivity.
Defined.

Lemma issued_lease_terms_witness :
  wf_store Sample.submitted
  /\ exists l,
       s_leases (w_store (snd (updateApplicationStatus Sample.rt Sample.leapDay "1"
                                 (JStr "Approved")
                                 {| w_store := Sample.submitted; w_log := [] |})))
       = [l]
       /\ ~ In l (s_leases Sample.submitted)
       /\ l_startDate l = Sample.leapDay
       /\ Civil.civil (l_endDate l) = (2025, 2, 1).
Proof.
  assert (Hwf : wf_store Sample.submitted) by wf_by_computation.
  assert (HL : exists l,
             s_leases (w_store (snd (updateApplicationStatus Sample.rt Sample.leapDay "1"
                                       (JStr "Approved")
                                       {| w_store := Sample.submitted; w_log := [] |})))
             = [l]) by (vm_compute; eexists; reflexivity).
  destruct HL as [l HL].
  assert (Hold : ~ In l (s_leases Sample.submitted)) by (vm_compute; intros []).
  assert (Hin : In l (s_leases (w_store (snd (updateApplicationStatus Sample.rt
                                                Sample.leapDay "1" (JStr "Approved")
                                                {| w_store := Sample.submitted;
                                                   w_log := [] |})))))
    by (rewrite HL; left; reflexivity).
  assert (Hy : JSDate.getFullYear (clock Sample.rt Sample.leapDay 3)
               = JSDate.getFullYear (clock Sample.rt Sample.leapDay 2))
    by (vm_compute; reflexivity).
  split; [exact Hwf|]. exists l. split; [exact HL|]. split; [exact Hold|].
  destruct (issued_lease_terms Sample.rt Sample.leapDay "1" (JStr "Approved")
              Sample.submitted [] Hwf l Hin Hold) as (_ & _ & Hsd & _ & Hend & _).
  split; [rewrite Hsd; vm_compute; reflexivity|].
  destruct (Hend Hy) as (_ & Hc & _). rewrite Hc. vm_compute. reflexivity.
Defined.

(** With a clock that moves on by a millisecond from reading to reading,
    the lease of an approval at 31 January 2023, 00:00:00.000 starts at
    00:00:00.001 and ends at 00:00:00.002 on 31 January 2024: neither the
    start date is the time of the approval nor the end date the start date
    plus one year. *)
Lemma lease_end_is_not_start_plus_one_year :
  map (fun l => (l_startDate l, l_endDate l))
    (s_leases (w_store (snd (updateApplicationStatus Sample.ticking Sample.jan31 "1"
                               (JStr "Approved")
                               {| w_store := Sample.submitted; w_log := [] |}))))
  = [(Sample.jan31 + 1, Civil.nextYear (Sample.jan31 + 1) + 1)]
  /\ Civil.nextYear (Sample.jan31 + 1) = Sample.jan31 + 1 + 365 * JSDate.msPerDay
  /\ Civil.civil (Civil.nextYear (Sample.jan31 + 1)) = (2024, 0, 31).
Proof. split; [|split]; vm_compute; reflexivity. Qed.

Lemma single_active_lease_preserved_witness :
  reachable Sample.rt Sample.jan31 Sample.approved
  /\ single_active_lease Sample.approved Sample.mar10.
Proof.
  assert (Hinit : initial Sample.store0).
  { split; [reflexivity|]. split; [reflexivity|]. wf_by_computation. }
  assert (Hle : Sample.jan31 <= Sample.jan31) by (vm_compute; discriminate).
  assert (Hle' : Sample.jan31 <= Sample.mar10) by (vm_compute; discriminate).
  assert (H : reachable Sample.rt Sample.jan31 Sample.approved).
  { unfold Sample.approved, Sample.submitted.
    apply reachable_serve with Sample.jan31; [|exact Hle].
    apply reachable_serve with Sample.jan31; [|exact Hle].
    apply reachable_initial. exact Hinit. }
  split; [exact H|].
  exact (proj1 (single_active_lease_preserved Sample.rt Sample.jan31 Sample.approved H)
           Sample.mar10 Hle').
Defined.

(** A lease of the tenant on the property is in force, and the approval is
    turned down, yet not with ActiveLeaseExists: the application has its
    lease, and the guard on that comes first. *)
Lemma active_lease_answered_LeaseAlreadyExists :
  length (active_leases Sample.approved Sample.mar10 1 "T1") = 1%nat
  /\ (a_tenantCognitoId <$> find_application Sample.approved 1) = Some "T1"%string
  /\ fst (updateApplicationStatus Sample.rt Sample.mar10 "1" (JStr "Approved")
            {| w_store := Sample.approved; w_log := [] |})
     = Fail LeaseAlreadyExists.
Proof. repeat split; vm_compute; reflexivity. Qed.

Lemma invalid_status_no_store_access_witness :
  (forall s, JStr "pending" = JStr s -> ~ In s validStatuses)
  /\ updateApplicationStatus Sample.rt Sample.mar10 "1" (JStr "pending")
       {| w_store := Sample.submitted; w_log := [] |}
     = (Fail InvalidStatus, {| w_store := Sample.submitted; w_log := [] |}).
Proof.
  assert (H : forall s, JStr "pending" = JStr s -> ~ In s validStatuses).
  { intros s Hs. injection Hs as <-. cbn. intros [H|[H|[H|[]]]]; discriminate H. }
  split; [exact H|].
  exact (invalid_status_no_store_access Sample.rt Sample.mar10 "1" (JStr "pending")
           {| w_store := Sample.submitted; w_log := [] |} H).
Defined.

Lemma next_payment_date_first_after_witness :
  - JSDate.maxTime <= Sample.jan31
  /\ Sample.mar10 + 31 * JSDate.msPerDay <= JSDate.maxTime
  /\ exists k : nat,
       calculateNextPaymentDate Sample.mar10 Sample.jan31
       = Some (iterate Civil.advanceMonth k Sample.jan31).
Proof.
  assert (Hlo : - JSDate.maxTime <= Sample.jan31) by (vm_compute; discriminate).
  assert (Hhi : Sample.mar10 + 31 * JSDate.msPerDay <= JSDate.maxTime)
    by (vm_compute; discriminate).
  split; [exact Hlo|]. split; [exact Hhi|].
  destruct (proj1 (next_payment_date_first_after Sample.mar10 Sample.jan31 Hlo Hhi))
    as (k & Hk & _).
  exists k. exact Hk.
Defined.

(** A lease that starts on 31 January, seen on 10 March: the loop goes
    31 January, 3 March, 3 April and answers 3 April, while 31 January plus
    two months, 31 March, is a date of the form [startDate + k months] after
    10 March and before that. *)
Lemma next_payment_date_not_least :
  calculateNextPaymentDate Sample.mar10 Sample.jan31 = Some Sample.apr3
  /\ Civil.addMonths Sample.jan31 2 = Sample.mar31
  /\ Sample.mar10 < Sample.mar31 < Sample.apr3.
Proof. split; [|split; [|split]]; vm_compute; reflexivity. Qed.

Lemma listApplications_without_selector_witness :
  wf_store Sample.rivals
  /\ no_selector ∅
  /\ exists views log',
       listApplications Sample.mar10 ∅ {| w_store := Sample.rivals; w_log := [] |}
       = (Ok views, {| w_store := Sample.rivals; w_log := log' |})
       /\ length views = 2%nat.
Proof.
  assert (Hwf : wf_store Sample.rivals) by wf_by_computation.
  assert (Hsel : no_selector ∅) by (left; vm_compute; reflexivity).
  split; [exact Hwf|]. split; [exact Hsel|].
  destruct (listApplications_without_selector Sample.mar10 ∅ Sample.rivals [] Hwf Hsel)
    as (views & log' & H & Hmap & _).
  exists views, log'. split; [exact H|].
  rewrite <- (List.length_map (fun v => j_app (v_app v))), Hmap. vm_compute. reflexivity.
Defined.

(** * Further properties of the controller *)
Section Outcomes.

Variable rt : Runtime.

#[local] Opaque JSDate.setFullYear JSDate.getFullYear JSDate.setMonth JSDate.getMonth clock.

(** What [updateApplicationStatus] answers and does, whatever the request:
    it fails and the store is as before, or it writes one status, or it
    issues one lease; in the last two cases it answers with the updated
    application. *)
Lemma updateApplicationStatus_outcome now id status s log :
  wf_store s ->
  exists r s' log',
    updateApplicationStatus rt now id status {| w_store := s; w_log := log |}
    = (r, {| w_store := s'; w_log := log' |})
    /\ ((s' = s /\ exists f, r = Fail f)
        \/ (exists n a st j,
              Number rt id = Some n /\ status = statusString st
              /\ find_application s n = Some a
              /\ a_status a <> Approved /\ st <> Approved
              /\ s' = with_applications (map (update_row n (set_status st))) s
              /\ r = Ok (Some j) /\ j_app j = set_status st a)
        \/ (exists n a p e j,
              Number rt id = Some n /\ status = JStr "Approved"
              /\ find_application s n = Some a
              /\ find_property s (a_propertyId a) = Some p
              /\ a_leaseId a = None
              /\ active_leases s now (a_propertyId a) (a_tenantCognitoId a) = []
              /\ JSDate.setFullYear (clock rt now 2) (JSDate.getFullYear (clock rt now 3) + 1) = Some e
              /\ s' = issue_lease (clock rt now 1) e n p a s
              /\ r = Ok (Some j)
              /\ j_app j = set_leaseId (Some (s_nextLeaseId s)) (set_status Approved a)
              /\ j_lease j = Some (issued_lease s (clock rt now 1) e p a))).
Proof.
  intros Hwf.
  destruct (negb (truthy status) || negb (includes validStatuses status)) eqn:Hv.
  { unfold updateApplicationStatus. rewrite Hv. do 3 eexists.
    split; [reflexivity|]. left. eauto. }
  destruct (valid_status_statusString _ Hv) as [st ->].
  destruct (Number rt id) as [n|] eqn:HN.
  2:{ unfold updateApplicationStatus. rewrite Hv, HN.
      do 3 eexists. split; [reflexivity|]. left. eauto. }
  destruct (find_application s n) as [a|] eqn:Hfind.
  2:{ unfold updateApplicationStatus. rewrite Hv, HN.
      destruct (isInt n) eqn:Hint.
      - rewrite (bind_run _ _ _ _ _ (findUnique_none _ _ _ _ _ Hfind Hint)).
        do 3 eexists. split; [reflexivity|]. left. eauto.
      - rewrite (bind_fail _ _ _ _ _ (findUnique_refused _ _ _ _ _ Hfind Hint)).
        do 3 eexists. split; [reflexivity|]. left. eauto. }
  destruct (find_application_In _ _ _ Hfind) as [Hin _].
  destruct (decide (st = Approved)) as [->|Hst].
  - destruct (a_leaseId a) as [k|] eqn:Hk.
    + destruct (wf_store_application s a Hwf Hin) as (_ & _ & Hl & _).
      rewrite Hk in Hl. destruct Hl as [l Hl].
      destruct (update_rejects_leased rt now id n a k l s log Hwf HN Hfind Hk Hl) as [log' H].
      do 3 eexists. split; [exact H|]. left. eauto.
    + destruct (active_leases s now (a_propertyId a) (a_tenantCognitoId a)) as [|l0 ls] eqn:Hact.
      * destruct (wf_store_application s a Hwf Hin) as ([p Hp] & _).
        destruct (JSDate.setFullYear (clock rt now 2) (JSDate.getFullYear (clock rt now 3) + 1)) as [e|] eqn:He.
        -- destruct (update_approve_run rt now id n a p e s log Hwf HN Hfind Hp Hk Hact He)
             as (j & log' & H & Hja & Hjl).
           do 3 eexists. split; [exact H|]. right. right. exists n, a, p, e, j.
           repeat (split; [assumption || reflexivity|]). assumption.
        -- destruct (update_approve_invalid_date rt now id n a s log Hwf HN Hfind Hk Hact He)
             as [log' H].
           do 3 eexists. split; [exact H|]. left. eauto.
      * destruct (update_rejects_active rt now id n a s log Hwf HN Hfind Hk) as [log' H].
        { rewrite Hact. discriminate. }
        do 3 eexists. split; [exact H|]. left. eauto.
  - destruct (decide (a_status a = Approved)) as [Ha|Ha].
    + destruct (update_rejects_approved rt now id n a st s log Hwf HN Hfind Ha Hst) as [log' H].
      do 3 eexists. split; [exact H|]. left. eauto.
    + destruct (update_status_run rt now id n a st s log Hwf HN Hfind Ha Hst)
        as (j & log' & H & Hj).
      do 3 eexists. split; [exact H|]. right. left. exists n, a, st, j.
      repeat (split; [assumption || reflexivity|]). assumption.
Qed.

End Outcomes.

Section Extras.

Variable rt : Runtime.

#[local] Opaque JSDate.setFullYear JSDate.getFullYear JSDate.setMonth JSDate.getMonth clock.

(** ** Input errors of [createApplication] *)

Lemma required_present_check body :
  negb (truthy (field body "propertyId")) || negb (truthy (field body "tenantCognitoId"))
  || negb (truthy (field body "name")) || negb (truthy (field body "email"))
  || negb (truthy (field body "phoneNumber"))
  = negb (required_present body).
Proof.
  unfold required_present.
  destruct (truthy (field body "propertyId")), (truthy (field body "tenantCognitoId")),
    (truthy (field body "name")), (truthy (field body "email")),
    (truthy (field body "phoneNumber")); reflexivity.
Qed.

Lemma join_fail deep wl s a e : join deep wl s a = Fail e -> e = ServerError.
Proof.
  unfold join.
  destruct (find_property _ _); [|intros H; now injection H].
  destruct (find_tenant _ _); [|intros H; now injection H].
  destruct deep; [|discriminate].
  destruct (find_location _ _); [|intros H; now injection H].
  destruct (find_manager _ _); [discriminate|intros H; now injection H].
Qed.

(** The failures of [createApplication], in the order of its guards. *)
Lemma createApplication_failure now body w f w' :
  createApplication rt now body w = (Fail f, w') ->
  (required_present body = false /\ f = MissingField /\ w' = w)
  \/ (required_present body = true
      /\ ((emailRegex_test (field body "email") = false /\ f = InvalidEmail /\ w' = w)
          \/ (emailRegex_test (field body "email") = true
              /\ (f = PropertyNotFound \/ f = TenantNotFound \/ f = DuplicateApproved
                  \/ f = DuplicatePending \/ f = ServerError)))).
Proof.
  unfold createApplication. rewrite required_present_check.
  destruct (required_present body); cbn [negb];
    [|intros H; injection H as <- <-; left; auto].
  destruct (emailRegex_test (field body "email")); cbn [negb];
    [|intros H; injection H as <- <-; right; split; [reflexivity|left; auto]].
  intros H. right. split; [reflexivity|]. right. split; [reflexivity|]. revert H.
  unfold bind at 1, property_findUnique.
  destruct (asInt _); [|intros H; injection H as <- _; auto 10].
  unfold reading at 1. cbn [w_store w_log].
  destruct (find_property _ _); cbn [uniqueKey];
    [|destruct (isInt _); intros H; injection H as <- _; auto 10].
  unfold bind at 1, tenant_findUnique.
  destruct (asString _); [|intros H; injection H as <- _; auto 10].
  unfold reading at 1. cbn [w_store w_log].
  destruct (find_tenant _ _); [|intros H; injection H as <- _; auto 10].
  unfold bind at 1, application_findFirst, reading at 1. cbn [w_store w_log].
  destruct (List.find _ _).
  { destruct (bool_decide _); intros H; injection H as <- _; auto 10. }
  unfold application_create.
  destruct (decodeApplication _ _); [|intros H; injection H as <- _; auto 10].
  unfold writing. cbn [w_store w_log].
  destruct (join _ _ _ _) as [j|e] eqn:Hj; [discriminate|].
  intros H. injection H as <- _. apply join_fail in Hj. auto 10.
Qed.

(** X1.  [createApplication] answers MissingField exactly when one of
    [propertyId], [tenantCognitoId], [name], [email], [phoneNumber] is
    missing or falsy (so also for a property key 0 or an empty name); it
    then has not touched the store: the world, log of accesses included, is
    the same. *)
Theorem createApplication_missing_field_iff now body w :
  (fst (createApplication rt now body w) = Fail MissingField
   <-> required_present body = false)
  /\ (required_present body = false -> snd (createApplication rt now body w) = w).
Proof.
  split; [split|].
  - destruct (createApplication rt now body w) as [[j|f] w'] eqn:Hrun; cbn [fst];
      [discriminate|].
    intros H. injection H as ->.
    destruct (createApplication_failure _ _ _ _ _ Hrun)
      as [(H & _)|(_ & [(_ & H & _)|(_ & [H|[H|[H|[H|H]]]])])];
      [exact H|discriminate H..].
  - intros H. unfold createApplication. rewrite required_present_check, H. reflexivity.
  - intros H. unfold createApplication. rewrite required_present_check, H. reflexivity.
Qed.

(** X2.  With the required fields present, [createApplication] answers
    InvalidEmail exactly when the e-mail does not match
    [/^[^\s@]+@[^\s@]+\.[^\s@]+$/], and then has not touched the store. *)
Theorem createApplication_invalid_email_iff now body w :
  required_present body = true ->
  (fst (createApplication rt now body w) = Fail InvalidEmail
   <-> emailRegex_test (field body "email") = false)
  /\ (emailRegex_test (field body "email") = false ->
      snd (createApplication rt now body w) = w).
Proof.
  intros Hreq. split; [split|].
  - destruct (createApplication rt now body w) as [[j|f] w'] eqn:Hrun; cbn [fst];
      [discriminate|].
    intros H. injection H as ->.
    destruct (createApplication_failure _ _ _ _ _ Hrun)
      as [(_ & H & _)|(_ & [(H & _)|(_ & [H|[H|[H|[H|H]]]])])];
      [discriminate H|exact H|discriminate H..].
  - intros H. unfold createApplication. rewrite required_present_check, Hreq, H. reflexivity.
  - intros H. unfold createApplication. rewrite required_present_check, Hreq, H. reflexivity.
Qed.

(** X3.  A valid submission for a property key that no property has is
    answered PropertyNotFound when the key is in the range of the 32-bit key
    column, and ServerError (the query throws) when it is outside; one for a
    known property and an unknown tenant is answered TenantNotFound.  None
    of the three writes anything. *)
Theorem createApplication_unknown_entity now body pid cid s log :
  passes_validation body ->
  field body "propertyId" = JNum pid -> field body "tenantCognitoId" = JStr cid ->
  let r := createApplication rt now body {| w_store := s; w_log := log |} in
  (find_property s pid = None -> isInt pid = true ->
   fst r = Fail PropertyNotFound /\ w_store (snd r) = s)
  /\ (find_property s pid = None -> isInt pid = false ->
      fst r = Fail ServerError /\ w_store (snd r) = s)
  /\ (is_Some (find_property s pid) -> find_tenant s cid = None ->
      fst r = Fail TenantNotFound /\ w_store (snd r) = s).
Proof.
  intros Hval Hpid Hcid. cbv zeta.
  destruct (passes_validation_checks body Hval) as [Hc1 Hc2].
  assert (Hlookup : forall f,
             find_property s pid = None ->
             (if isInt pid then @Ok (option Property) None else Fail ServerError)
             = match f with
               | PropertyNotFound => Ok None
               | _ => Fail ServerError
               end ->
             (f = PropertyNotFound \/ f = ServerError) ->
             createApplication rt now body {| w_store := s; w_log := log |}
             = (Fail f, {| w_store := s; w_log := log ++ [Read TProperty] |})).
  { intros f Hp Hint Hf. unfold createApplication. rewrite Hc1, Hc2, Hpid, Hcid.
    unfold bind at 1, property_findUnique. cbn [asInt]. unfold reading at 1.
    cbn [w_store w_log]. rewrite Hp. cbn [uniqueKey]. rewrite Hint.
    destruct Hf as [-> | ->]; reflexivity. }
  split; [|split].
  - intros Hp Hint. rewrite (Hlookup PropertyNotFound Hp); [split; reflexivity| |auto].
    now rewrite Hint.
  - intros Hp Hint. rewrite (Hlookup ServerError Hp); [split; reflexivity| |auto].
    now rewrite Hint.
  - intros [p Hp] Ht.
    assert (H : createApplication rt now body {| w_store := s; w_log := log |}
                = (Fail TenantNotFound,
                   {| w_store := s; w_log := (log ++ [Read TProperty]) ++ [Read TTenant] |})).
    { unfold createApplication. rewrite Hc1, Hc2, Hpid, Hcid.
      unfold bind at 1, property_findUnique. cbn [asInt]. unfold reading at 1.
      cbn [w_store w_log]. rewrite Hp. cbn [uniqueKey].
      unfold bind at 1, tenant_findUnique. cbn [asString]. unfold reading at 1.
      cbn [w_store w_log]. rewrite Ht. reflexivity. }
    rewrite H. split; reflexivity.
Qed.

(** X4.  Whatever the body, [createApplication] leaves every table but the
    application table alone (it never creates a lease, on no path), keeps
    the rows of the application table and adds one row at most; when it
    answers with a failure the store is exactly as before. *)
Theorem createApplication_frame now body s log :
  let r := createApplication rt now body {| w_store := s; w_log := log |} in
  let s' := w_store (snd r) in
  s_leases s' = s_leases s
  /\ s_nextLeaseId s' = s_nextLeaseId s
  /\ s_properties s' = s_properties s
  /\ s_tenants s' = s_tenants s
  /\ s_managers s' = s_managers s
  /\ s_locations s' = s_locations s
  /\ (s_applications s' = s_applications s
      \/ exists a, s_applications s' = s_applications s ++ [a]
                   /\ a_id a = s_nextApplicationId s /\ a_leaseId a = None)
  /\ (forall f, fst r = Fail f -> s' = s).
Proof.
  destruct (createApplication_cases rt now body s log)
    as (r & s' & log' & -> & [[-> [f ->]]|(row & j & Hrow & -> & _ & _ & -> & _)]);
    cbv zeta; cbn [fst snd w_store].
  - do 6 (split; [reflexivity|]). split; [left; reflexivity|reflexivity].
  - destruct (decodeApplication_row rt _ _ (s_nextApplicationId s) Hrow) as (Hid & Hl & _).
    do 6 (split; [reflexivity|]). split; [right; eauto|discriminate].
Qed.

(** X5.  Submission and lookup: on a store with referential integrity, the
    application an accepted submission answers with is the one a lookup by
    its key finds afterwards; the key is the next of the sequence, which
    moves on by one; and the store still has referential integrity. *)
Theorem createApplication_then_find now body s log j :
  wf_store s ->
  fst (createApplication rt now body {| w_store := s; w_log := log |}) = Ok j ->
  let s' := w_store (snd (createApplication rt now body {| w_store := s; w_log := log |})) in
  a_id (j_app j) = s_nextApplicationId s
  /\ find_application s' (a_id (j_app j)) = Some (j_app j)
  /\ find_application s (a_id (j_app j)) = None
  /\ s_nextApplicationId s' = s_nextApplicationId s + 1
  /\ wf_store s'.
Proof.
  intros Hwf.
  destruct (createApplication_cases rt now body s log)
    as (r & s' & log' & -> & [[_ [f ->]]|(row & j' & Hrow & -> & Hja & _ & -> & Hp & Ht & _)]);
    cbv zeta; cbn [fst snd w_store]; intros Hj; [discriminate Hj|].
  injection Hj as <-.
  destruct (decodeApplication_row rt _ _ (s_nextApplicationId s) Hrow) as (Hid & Hl & _).
  rewrite <- Hja in *. split; [exact Hid|]. rewrite Hid.
  split; [apply find_application_insert_new; assumption|].
  split; [apply find_application_fresh; assumption|].
  split; [reflexivity|].
  apply wf_store_insert_application; assumption.
Qed.

(** ** [updateApplicationStatus]: failures, atomicity, invariants *)

(** X6.  A valid status for a key no application has is answered
    ApplicationNotFound when the key is in the range of the 32-bit key
    column, and ServerError (the query throws) when it is outside; the
    store is unchanged either way. *)
Theorem updateApplicationStatus_unknown_id now id n st s log :
  Number rt id = Some n -> find_application s n = None ->
  let r := updateApplicationStatus rt now id (statusString st)
             {| w_store := s; w_log := log |} in
  fst r = Fail (if isInt n then ApplicationNotFound else ServerError)
  /\ w_store (snd r) = s.
Proof.
  intros HN Hfind. cbv zeta. unfold updateApplicationStatus.
  rewrite statusString_valid, HN.
  destruct (isInt n) eqn:Hint.
  - rewrite (bind_run _ _ _ _ _ (findUnique_none _ _ _ _ _ Hfind Hint)).
    split; reflexivity.
  - rewrite (bind_fail _ _ _ _ _ (findUnique_refused _ _ _ _ _ Hfind Hint)).
    split; reflexivity.
Qed.

(** X7.  All or nothing: on a store with referential integrity, a status
    update that answers with a failure (a guard, an unknown key, a date the
    lease cannot have, whatever) leaves the store exactly as it was; one
    that succeeds answers with the application in the status that was asked
    for. *)
Theorem updateApplicationStatus_all_or_nothing now id status s log :
  wf_store s ->
  let r := updateApplicationStatus rt now id status {| w_store := s; w_log := log |} in
  (forall f, fst r = Fail f -> w_store (snd r) = s)
  /\ (forall o, fst r = Ok o ->
      exists j, o = Some j /\ Some (a_status (j_app j)) = asStatus status
                /\ find_application (w_store (snd r)) (a_id (j_app j)) = Some (j_app j)).
Proof.
  intros Hwf.
  destruct (updateApplicationStatus_outcome rt now id status s log Hwf)
    as (r & s' & log' & -> & [(-> & f & ->)
         |[(n & a & st & j & HN & -> & Hfind & Ha & Hst & -> & -> & Hj)
          |(n & a & p & e & j & HN & -> & Hfind & Hp & Hk & Hact & He & -> & -> & Hj & Hl)]]);
    cbv zeta; cbn [fst snd w_store].
  - split; [reflexivity|discriminate].
  - split; [discriminate|]. intros o Ho. injection Ho as <-. exists j.
    split; [reflexivity|]. rewrite Hj, asStatus_statusString. split; [reflexivity|].
    destruct (find_application_In _ _ _ Hfind) as [_ Hid].
    cbn [set_status a_id]. rewrite <- Hid at 1.
    rewrite find_application_map by (intros x; apply update_row_id; reflexivity).
    rewrite Hid, Hfind. cbn [fmap option_fmap option_map]. now rewrite update_row_hit.
  - split; [discriminate|]. intros o Ho. injection Ho as <-. exists j.
    split; [reflexivity|]. rewrite Hj. split; [reflexivity|].
    destruct (find_application_In _ _ _ Hfind) as [_ Hid].
    cbn [set_leaseId set_status a_id]. rewrite Hid.
    apply find_application_issue_lease. assumption.
Qed.

(** X8.  Every request keeps the referential integrity of the store: the
    rows that applications and properties refer to exist, application keys
    are unique and below the next key of the sequence. *)
Theorem serve_keeps_integrity now r s :
  wf_store s -> wf_store (serve rt now r s).
Proof.
  intros Hwf. destruct r as [query|body|id status]; unfold serve.
  - rewrite listApplications_readonly. exact Hwf.
  - destruct (createApplication_cases rt now body s [])
      as (r & s' & log' & -> & [[-> _]|(row & j & Hrow & _ & Hja & _ & -> & Hp & Ht & _)]);
      cbn [snd w_store]; [exact Hwf|].
    destruct (decodeApplication_row rt _ _ (s_nextApplicationId s) Hrow) as (Hid & Hl & _).
    rewrite Hja in Hp, Ht. apply wf_store_insert_application; assumption.
  - destruct (updateApplicationStatus_cases rt now id status s [] Hwf)
      as (r & s' & log' & -> & [->|[(n & a & st & Hfind & Ha & Hst & ->)
                                    |(n & a & p & e & Hfind & Hp & Hk & Hact & _ & ->)]]);
      cbn [snd w_store].
    + exact Hwf.
    + apply wf_store_update_status. assumption.
    + apply wf_store_issue_lease; assumption.
Qed.

(** X9.  Invariant I1 of the data model: in every state the exposed
    operations reach, an application that has a lease is approved, and the
    lease it points at is in the lease table. *)
Theorem reachable_lease_implies_approved now s a :
  reachable rt now s -> In a (s_applications s) ->
  forall k, a_leaseId a = Some k ->
  a_status a = Approved /\ is_Some (find_lease s k).
Proof.
  intros Hreach Hin k Hk.
  destruct (reachable_invariant rt now s Hreach) as (Hwf & HI & _).
  unfold lease_implies_approved in HI. rewrite List.Forall_forall in HI.
  split; [apply HI; [assumption|rewrite Hk; eauto]|].
  destruct (wf_store_application s a Hwf Hin) as (_ & _ & Hl & _).
  now rewrite Hk in Hl.
Qed.

(** What a request does to the lists that stand for the tables: the leases
    and the applications stay where they are and a new row goes to the end;
    the properties stay where they are. *)
Lemma serve_rows_in_place now r s :
  wf_store s ->
  let s' := serve rt now r s in
  s_leases s `prefix_of` s_leases s'
  /\ (length (s_leases s') <= S (length (s_leases s)))%nat
  /\ map (fun a => (a_id a, a_propertyId a, a_tenantCognitoId a, a_applicationDate a))
       (s_applications s)
     `prefix_of`
     map (fun a => (a_id a, a_propertyId a, a_tenantCognitoId a, a_applicationDate a))
       (s_applications s')
  /\ Forall2 (fun p p' => p_id p' = p_id p /\ p_pricePerMonth p' = p_pricePerMonth p
                          /\ p_securityDeposit p' = p_securityDeposit p
                          /\ p_tenants p ⊆ p_tenants p')
       (s_properties s) (s_properties s').
Proof.
  intros Hwf. cbv zeta.
  assert (Hsame : forall l : list Property,
             Forall2 (fun p p' => p_id p' = p_id p /\ p_pricePerMonth p' = p_pricePerMonth p
                                  /\ p_securityDeposit p' = p_securityDeposit p
                                  /\ p_tenants p ⊆ p_tenants p') l l).
  { intros l. induction l; constructor; auto. }
  destruct r as [query|body|id status]; unfold serve.
  - rewrite listApplications_readonly. cbn [w_store].
    split; [reflexivity|]. split; [lia|]. split; [reflexivity|apply Hsame].
  - destruct (createApplication_cases rt now body s [])
      as (r & s' & log' & -> & [[-> _]|(row & j & _ & _ & _ & _ & -> & _)]);
      cbn [snd w_store].
    + split; [reflexivity|]. split; [lia|]. split; [reflexivity|apply Hsame].
    + cbn [insert_application s_leases s_applications s_properties].
      split; [reflexivity|]. split; [lia|].
      split; [rewrite List.map_app; apply prefix_app_r; reflexivity|apply Hsame].
  - destruct (updateApplicationStatus_cases rt now id status s [] Hwf)
      as (r & s' & log' & -> & [->|[(n & a & st & Hfind & Ha & Hst & ->)
                                    |(n & a & p & e & Hfind & Hp & Hk & Hact & _ & ->)]]);
      cbn [snd w_store].
    + split; [reflexivity|]. split; [lia|]. split; [reflexivity|apply Hsame].
    + cbn [with_applications s_leases s_applications s_properties].
      split; [reflexivity|]. split; [lia|]. split; [|apply Hsame].
      rewrite List.map_map. erewrite List.map_ext; [reflexivity|].
      intros x. unfold update_row. destruct (bool_decide _); reflexivity.
    + unfold issue_lease.
      cbn [with_applications with_properties insert_lease s_leases s_applications s_properties].
      split; [apply prefix_app_r; reflexivity|].
      split; [rewrite List.length_app; cbn [length]; lia|]. split.
      * rewrite !List.map_map. erewrite List.map_ext; [reflexivity|].
        intros x. unfold deny_rival, update_rows, approve_row, update_row.
        destruct (bool_decide (a_id x = n)); cbn [set_leaseId set_status a_id a_propertyId
          a_tenantCognitoId a_applicationDate];
          destruct (_ && _ && _); reflexivity.
      * generalize (s_properties s). intros l. induction l as [|q l IH]; constructor; [|exact IH].
        unfold connect_tenant. destruct (bool_decide _); cbn [add_tenant p_id p_pricePerMonth
          p_securityDeposit p_tenants]; repeat split; set_solver.
Qed.

(** X10.  Nothing is ever deleted.  Taking each table as the collection of
    its rows, in no particular order: every request keeps every lease it
    finds, unchanged, and adds one at most; it keeps every application, with
    its key, property, tenant and date; and it keeps every property, with
    its key, price, deposit and every tenant it had, and adds none. *)
Theorem serve_keeps_rows now r s :
  wf_store s ->
  let s' := serve rt now r s in
  s_leases s ⊆+ s_leases s'
  /\ (length (s_leases s') <= S (length (s_leases s)))%nat
  /\ map (fun a => (a_id a, a_propertyId a, a_tenantCognitoId a, a_applicationDate a))
       (s_applications s)
     ⊆+ map (fun a => (a_id a, a_propertyId a, a_tenantCognitoId a, a_applicationDate a))
          (s_applications s')
  /\ length (s_properties s') = length (s_properties s)
  /\ forall p, In p (s_properties s) ->
       exists p', In p' (s_properties s')
                  /\ p_id p' = p_id p /\ p_pricePerMonth p' = p_pricePerMonth p
                  /\ p_securityDeposit p' = p_securityDeposit p
                  /\ p_tenants p ⊆ p_tenants p'.
Proof.
  intros Hwf. cbv zeta.
  destruct (serve_rows_in_place now r s Hwf) as ([kl Hl] & Hlen & [ka Ha] & Hp).
  rewrite Hl, Ha.
  split; [apply submseteq_inserts_r; reflexivity|].
  split; [rewrite <- Hl; exact Hlen|].
  split; [apply submseteq_inserts_r; reflexivity|].
  revert Hp. generalize (s_properties s), (s_properties (serve rt now r s)).
  induction 1 as [|p p' ps ps' Hpp _ [IHlen IH]]; [split; [reflexivity|intros p []]|].
  split; [cbn [length]; now rewrite IHlen|].
  intros q [<-|Hq].
  - exists p'. split; [left; reflexivity|exact Hpp].
  - destruct (IH q Hq) as (q' & Hq' & Hqq). exists q'. split; [right; exact Hq'|exact Hqq].
Qed.

(** ** How the operations compose *)

Lemma statusString_Approved st : statusString st = JStr "Approved" -> st = Approved.
Proof. destruct st; [discriminate|discriminate|reflexivity]. Qed.

(** A successful approval is the lease issuance transaction. *)
Lemma approval_outcome now id s log j :
  wf_store s ->
  fst (updateApplicationStatus rt now id (JStr "Approved") {| w_store := s; w_log := log |})
  = Ok (Some j) ->
  exists n a p e,
    Number rt id = Some n
    /\ find_application s n = Some a
    /\ find_property s (a_propertyId a) = Some p
    /\ a_leaseId a = None
    /\ w_store (snd (updateApplicationStatus rt now id (JStr "Approved")
                       {| w_store := s; w_log := log |}))
       = issue_lease (clock rt now 1) e n p a s
    /\ j_app j = set_leaseId (Some (s_nextLeaseId s)) (set_status Approved a)
    /\ j_lease j = Some (issued_lease s (clock rt now 1) e p a).
Proof.
  intros Hwf.
  destruct (updateApplicationStatus_outcome rt now id (JStr "Approved") s log Hwf)
    as (r & s' & log' & -> & [(-> & f & ->)
         |[(n & a & st & j' & HN & Hs & Hfind & Ha & Hst & -> & -> & Hj)
          |(n & a & p & e & j' & HN & _ & Hfind & Hp & Hk & Hact & He & -> & -> & Hj & Hl)]]);
    cbn [fst snd w_store]; intros H.
  - discriminate H.
  - exfalso. apply Hst. apply statusString_Approved. now rewrite <- Hs.
  - injection H as <-. exists n, a, p, e. auto 10.
Qed.

(** X11.  No second lease by approving twice: once an approval has
    succeeded, every later request to approve the same application is
    answered LeaseAlreadyExists and changes nothing. *)
Theorem approve_twice_rejected now id s log j t log2 :
  wf_store s ->
  let r1 := updateApplicationStatus rt now id (JStr "Approved")
              {| w_store := s; w_log := log |} in
  fst r1 = Ok (Some j) ->
  let r2 := updateApplicationStatus rt t id (JStr "Approved")
              {| w_store := w_store (snd r1); w_log := log2 |} in
  fst r2 = Fail LeaseAlreadyExists /\ w_store (snd r2) = w_store (snd r1).
Proof.
  intros Hwf r1 H1. subst r1.
  destruct (approval_outcome now id s log j Hwf H1)
    as (n & a & p & e & HN & Hfind & Hp & Hk & Hs' & Hja & Hjl).
  cbv zeta. rewrite Hs'.
  pose proof (wf_store_issue_lease (clock rt now 1) e n p a s Hwf Hfind) as Hwf'.
  pose proof (find_application_issue_lease (clock rt now 1) e n p a s Hfind) as Hfind'.
  assert (Hl : find_lease (issue_lease (clock rt now 1) e n p a s) (s_nextLeaseId s)
               = Some (issued_lease s (clock rt now 1) e p a)).
  { change (find_lease (issue_lease (clock rt now 1) e n p a s) (s_nextLeaseId s))
      with (find_lease (insert_lease (issued_lease s (clock rt now 1) e p a) s) (s_nextLeaseId s)).
    apply find_lease_insert_new; [assumption|reflexivity]. }
  destruct (update_rejects_leased rt t id n _ _ _ _ log2 Hwf' HN Hfind' eq_refl Hl)
    as [log' H].
  rewrite H. split; reflexivity.
Qed.

(** The applications for the property of an approved application, after the
    approval: none is pending. *)
Lemma issue_lease_none_pending now e n p a s y :
  In y (s_applications (issue_lease (clock rt now 1) e n p a s)) ->
  a_propertyId y = a_propertyId a -> a_status y <> Pending.
Proof.
  unfold issue_lease.
  cbn [with_applications with_properties insert_lease s_applications].
  rewrite List.map_map. intros Hy. apply List.in_map_iff in Hy as (x & <- & _).
  unfold approve_row, update_row, deny_rival, update_rows.
  destruct (bool_decide (a_id x = n)) eqn:Hb.
  - cbn [set_leaseId set_status a_id a_propertyId a_status]. rewrite Hb.
    cbn [negb]. rewrite andb_false_r. cbn [andb set_leaseId set_status a_status].
    discriminate.
  - rewrite Hb. cbn [negb]. rewrite andb_true_r.
    destruct (bool_decide (a_propertyId x = a_propertyId a)) eqn:Hp;
      destruct (bool_decide (a_status x = Pending)) eqn:Hs; cbn [andb set_status
        a_status a_propertyId].
    + discriminate.
    + intros _. now apply bool_decide_eq_false in Hs.
    + intros Hq. apply bool_decide_eq_false in Hp. contradiction.
    + intros _. now apply bool_decide_eq_false in Hs.
Qed.

(** X12.  After an approval the tenant cannot apply for the property again:
    a submission of that tenant for that property that passes validation is
    answered DuplicateApproved (never DuplicatePending: the approval has
    denied what was pending for the property), and changes nothing. *)
Theorem resubmission_after_approval now id s log j t body log2 :
  wf_store s ->
  let r1 := updateApplicationStatus rt now id (JStr "Approved")
              {| w_store := s; w_log := log |} in
  fst r1 = Ok (Some j) ->
  passes_validation body ->
  field body "propertyId" = JNum (a_propertyId (j_app j)) ->
  field body "tenantCognitoId" = JStr (a_tenantCognitoId (j_app j)) ->
  let r2 := createApplication rt t body {| w_store := w_store (snd r1); w_log := log2 |} in
  fst r2 = Fail DuplicateApproved /\ w_store (snd r2) = w_store (snd r1).
Proof.
  intros Hwf r1 H1 Hval Hpid Hcid. subst r1.
  destruct (approval_outcome now id s log j Hwf H1)
    as (n & a & p & e & HN & Hfind & Hp & Hk & Hs' & Hja & Hjl).
  cbv zeta. rewrite Hs'.
  pose proof (wf_store_issue_lease (clock rt now 1) e n p a s Hwf Hfind) as Hwf'.
  pose proof (find_application_issue_lease (clock rt now 1) e n p a s Hfind) as Hfind'.
  destruct (find_application_In _ _ _ Hfind') as [Hin' _].
  rewrite <- Hja in Hin'.
  destruct (createApplication_duplicate rt t body _ _ (j_app j) _ log2
              Hwf' Hval Hpid Hcid) as (f & log' & H & Hf).
  { apply In_applications_of. auto. }
  { rewrite Hja. discriminate. }
  rewrite H. cbn [fst snd w_store].
  destruct Hf as [[-> _]|[_ (y & Hy & Hst)]]; [split; reflexivity|exfalso].
  apply In_applications_of in Hy as (Hy & Hyp & _).
  apply (issue_lease_none_pending now e n p a s y Hy); [|assumption].
  rewrite Hyp, Hja. reflexivity.
Qed.

(** X13.  While the lease an approval has issued is in force, no other
    application of the same tenant for the same property can be approved:
    the request is answered ActiveLeaseExists and changes nothing. *)
Theorem rival_of_same_tenant_rejected now id s log j l t id2 m b log2 :
  wf_store s ->
  let r1 := updateApplicationStatus rt now id (JStr "Approved")
              {| w_store := s; w_log := log |} in
  fst r1 = Ok (Some j) -> j_lease j = Some l -> t <= l_endDate l ->
  Number rt id2 = Some m -> find_application s m = Some b ->
  a_id b <> a_id (j_app j) ->
  a_propertyId b = a_propertyId (j_app j) ->
  a_tenantCognitoId b = a_tenantCognitoId (j_app j) ->
  a_leaseId b = None ->
  let r2 := updateApplicationStatus rt t id2 (JStr "Approved")
              {| w_store := w_store (snd r1); w_log := log2 |} in
  fst r2 = Fail ActiveLeaseExists /\ w_store (snd r2) = w_store (snd r1).
Proof.
  intros Hwf r1 H1 Hjl' Ht HM Hb Hne Hbp Hbc Hbl. subst r1.
  destruct (approval_outcome now id s log j Hwf H1)
    as (n & a & p & e & HN & Hfind & Hp & Hk & Hs' & Hja & Hjl).
  cbv zeta. rewrite Hs'.
  rewrite Hjl in Hjl'. injection Hjl' as <-. cbn [issued_lease l_endDate] in Ht.
  rewrite Hja in Hne, Hbp, Hbc. cbn [set_leaseId set_status a_id a_propertyId
    a_tenantCognitoId] in Hne, Hbp, Hbc.
  destruct (find_application_In _ _ _ Hfind) as [_ Hid].
  destruct (find_application_In _ _ _ Hb) as [_ Hbid].
  pose proof (wf_store_issue_lease (clock rt now 1) e n p a s Hwf Hfind) as Hwf'.
  assert (Hb' : find_application (issue_lease (clock rt now 1) e n p a s) m
                = Some (deny_rival n (a_propertyId a) b)).
  { unfold issue_lease.
    rewrite find_application_map by apply deny_rival_id.
    rewrite find_application_map by apply approve_row_id.
    change (find_application (with_properties _ (insert_lease _ s)) m)
      with (find_application s m).
    rewrite Hb. cbn [fmap option_fmap option_map]. f_equal. f_equal.
    unfold approve_row, update_row. rewrite bool_decide_eq_false_2; [reflexivity|congruence]. }
  assert (Hq : forall x, a_propertyId (deny_rival n (a_propertyId a) x) = a_propertyId x
                         /\ a_tenantCognitoId (deny_rival n (a_propertyId a) x)
                            = a_tenantCognitoId x
                         /\ a_leaseId (deny_rival n (a_propertyId a) x) = a_leaseId x).
  { intros x. unfold deny_rival, update_rows. destruct (_ && _ && _); auto. }
  destruct (Hq b) as (Hq1 & Hq2 & Hq3).
  destruct (update_rejects_active rt t id2 m _ _ log2 Hwf' HM Hb') as [log' H].
  { rewrite Hq3. exact Hbl. }
  { rewrite Hq1, Hq2, Hbp, Hbc. unfold active_leases, issue_lease.
    cbn [with_applications with_properties insert_lease s_leases].
    rewrite List.filter_app. cbn [List.filter]. unfold active at 2.
    cbn [issued_lease l_propertyId l_tenantCognitoId l_endDate].
    rewrite !bool_decide_eq_true_2 by reflexivity.
    destruct (Z.leb_spec t e) as [_|Hgt]; [|lia]. cbn [andb].
    intros Hnil. apply List.app_eq_nil in Hnil as [_ Hnil]. discriminate Hnil. }
  rewrite H. split; reflexivity.
Qed.

(** X14.  Apply again after a denial: when an application that is not
    approved has been set to Denied and the tenant has no other application
    for the property that is pending or approved, a new submission of the
    tenant for the property that passes validation and that the schema
    accepts is accepted. *)
Theorem resubmission_after_denial now id n a s log t body log2 :
  wf_store s -> Number rt id = Some n -> find_application s n = Some a ->
  a_status a <> Approved ->
  (forall x, In x (applications_of s (a_propertyId a) (a_tenantCognitoId a)) ->
             a_id x <> n -> a_status x = Denied) ->
  passes_validation body ->
  field body "propertyId" = JNum (a_propertyId a) ->
  field body "tenantCognitoId" = JStr (a_tenantCognitoId a) ->
  is_Some (decodeApplication rt (createData rt t body)) ->
  let r1 := updateApplicationStatus rt now id (JStr "Denied")
              {| w_store := s; w_log := log |} in
  let r2 := createApplication rt t body {| w_store := w_store (snd r1); w_log := log2 |} in
  exists j, fst r2 = Ok j
            /\ a_propertyId (j_app j) = a_propertyId a
            /\ a_tenantCognitoId (j_app j) = a_tenantCognitoId a
            /\ a_leaseId (j_app j) = None.
Proof.
  intros Hwf HN Hfind Ha Hothers Hval Hpid Hcid [row Hrow].
  assert (Hst : Denied <> Approved) by discriminate.
  destruct (update_status_run rt now id n a Denied s log Hwf HN Hfind Ha Hst)
    as (j1 & log' & H1 & _).
  cbv zeta. change (JStr "Denied") with (statusString Denied). rewrite H1.
  cbn [snd w_store].
  pose proof (wf_store_update_status n Denied s Hwf) as Hwf'.
  destruct (find_application_In _ _ _ Hfind) as [Hin _].
  destruct (wf_store_application s a Hwf Hin) as ([p Hp] & [tn Htn] & _).
  destruct (createApplication_accepted rt t body _ _ p tn row _ log2
              Hwf' Hval Hpid Hcid Hp Htn) as (j & log2' & H2 & Hja); [|exact Hrow|].
  { apply List.Forall_forall. intros y Hy.
    apply In_applications_of in Hy as (Hy & Hyp & Hyc).
    cbn [with_applications s_applications] in Hy.
    apply List.in_map_iff in Hy as (x & <- & Hx).
    unfold update_row in *. destruct (bool_decide (a_id x = n)) eqn:Hb; [reflexivity|].
    apply bool_decide_eq_false in Hb. apply Hothers; [|assumption].
    apply In_applications_of. auto. }
  rewrite H2. cbn [fst]. exists j.
  destruct (decodeApplication_row rt _ _
              (s_nextApplicationId (with_applications (map (update_row n (set_status Denied))) s))
              Hrow) as (_ & Hl & _ & Hrp & Hrc).
  cbn [createData c_propertyId c_tenantCognitoId] in Hrp, Hrc.
  rewrite Hpid in Hrp. rewrite Hcid in Hrc. cbn [asInt asString] in Hrp, Hrc.
  rewrite <- Hja in *. split; [reflexivity|]. split; [congruence|]. split; [congruence|assumption].
Qed.

End Extras.

(** ** [listApplications]: selectors, lease views, accesses *)
Section ListExtras.

#[local] Opaque JSDate.setFullYear JSDate.getFullYear JSDate.setMonth JSDate.getMonth clock.

(** The answer of [listApplications] for the filter [wh] it has chosen. *)
Lemma listApplications_views now query s log wh :
  wf_store s ->
  (if truthy (field query "userId") && truthy (field query "userType")
   then if js_is (field query "userType") "tenant"
        then whereTenant (ToString (field query "userId"))
        else if js_is (field query "userType") "manager"
             then whereManager (ToString (field query "userId"))
             else whereAll
   else whereAll) = wh ->
  exists views log',
    listApplications now query {| w_store := s; w_log := log |}
    = (Ok views, {| w_store := s; w_log := log' |})
    /\ map (fun v => j_app (v_app v)) views = List.filter (wh s) (s_applications s)
    /\ Forall (fun v =>
                 v_lease v
                 = (fun l => {| lv_lease := l;
                                lv_nextPaymentDate :=
                                  calculateNextPaymentDate now (l_startDate l) |})
                   <$> fold_left latest
                         (leases_of s (a_propertyId (j_app (v_app v)))
                            (a_tenantCognitoId (j_app (v_app v)))) None)
         views.
Proof.
  intros Hwf Hwh.
  destruct (mapR_join true false s (List.filter (wh s) (s_applications s)) Hwf)
    as (js & Hjs & Hmap & _).
  { intros a Ha. apply List.filter_In in Ha as [Ha _]. exact Ha. }
  unfold listApplications. rewrite Hwh.
  unfold bind at 1, application_findMany, reading at 1. cbn [w_store w_log].
  rewrite Hjs.
  match goal with
  | |- context [mapM ?f js ?w] =>
      destruct (mapM_views f
                  (fun app =>
                     {| v_app := app;
                        v_address := loc_address <$> j_location app;
                        v_manager := j_manager app;
                        v_lease :=
                          (fun l => {| lv_lease := l;
                                       lv_nextPaymentDate :=
                                         calculateNextPaymentDate now (l_startDate l) |})
                          <$> fold_left latest
                                (leases_of s (a_propertyId (j_app app))
                                   (a_tenantCognitoId (j_app app))) None |})
                  s js) with (w_log w) as [log' Hviews]
  end.
  { intros app log0. eexists. reflexivity. }
  cbn [w_log] in Hviews. rewrite Hviews.
  do 2 eexists. split; [reflexivity|]. split.
  - rewrite List.map_map. cbn [v_app]. exact Hmap.
  - apply List.Forall_map. cbn [v_app v_lease]. apply List.Forall_forall. reflexivity.
Qed.

(** X15.  With a [userId] and [userType=tenant], [listApplications] answers
    with the applications of that tenant, all of them, each once, and no
    other ([userId] is compared as a string); nothing is said about their
    order, for which the query does not ask. *)
Theorem listApplications_of_tenant now query s log :
  wf_store s ->
  truthy (field query "userId") = true -> field query "userType" = JStr "tenant" ->
  exists views log',
    listApplications now query {| w_store := s; w_log := log |}
    = (Ok views, {| w_store := s; w_log := log' |})
    /\ map (fun v => j_app (v_app v)) views
       ≡ₚ List.filter (fun a => bool_decide (a_tenantCognitoId a
                                             = ToString (field query "userId")))
            (s_applications s).
Proof.
  intros Hwf Hid Hty.
  destruct (listApplications_views now query s log
              (whereTenant (ToString (field query "userId"))) Hwf)
    as (views & log' & H & Hmap & _).
  { rewrite Hid, Hty. reflexivity. }
  exists views, log'. split; [exact H|]. rewrite Hmap. reflexivity.
Qed.

(** X16.  With a [userId] and [userType=manager], [listApplications]
    answers with the applications for the properties that manager manages,
    all of them, each once, and no other; nothing is said about their
    order. *)
Theorem listApplications_of_manager now query s log :
  wf_store s ->
  truthy (field query "userId") = true -> field query "userType" = JStr "manager" ->
  exists views log',
    listApplications now query {| w_store := s; w_log := log |}
    = (Ok views, {| w_store := s; w_log := log' |})
    /\ map (fun v => j_app (v_app v)) views
       ≡ₚ List.filter (whereManager (ToString (field query "userId")) s) (s_applications s)
    /\ forall a,
         In a (map (fun v => j_app (v_app v)) views)
         <-> In a (s_applications s)
             /\ exists p, find_property s (a_propertyId a) = Some p
                          /\ p_managerCognitoId p = ToString (field query "userId").
Proof.
  intros Hwf Hid Hty.
  destruct (listApplications_views now query s log
              (whereManager (ToString (field query "userId"))) Hwf)
    as (views & log' & H & Hmap & _).
  { rewrite Hid, Hty. reflexivity. }
  exists views, log'. split; [exact H|]. split; [rewrite Hmap; reflexivity|].
  intros a. rewrite Hmap, List.filter_In. unfold whereManager.
  split; intros [Ha Hm]; (split; [exact Ha|]).
  - destruct (find_property s (a_propertyId a)) as [p|]; [|discriminate Hm].
    exists p. split; [reflexivity|]. now apply bool_decide_eq_true in Hm.
  - destruct Hm as (p & -> & Hp). now apply bool_decide_eq_true.
Qed.

(** The lease [findFirst] with [orderBy: { startDate: "desc" }] picks. *)
Lemma fold_latest (L : list Lease) (b : option Lease) :
  match fold_left latest L b with
  | None => L = [] /\ b = None
  | Some m =>
      (In m L \/ b = Some m)
      /\ (forall l, In l L -> l_startDate l <= l_startDate m)
      /\ (forall b0, b = Some b0 -> l_startDate b0 <= l_startDate m)
  end.
Proof.
  revert b. induction L as [|x L IH]; intros b; cbn [fold_left].
  - destruct b as [m|]; [|auto]. split; [auto|]. split; [intros l []|].
    intros b0 Hb. injection Hb as ->. lia.
  - specialize (IH (latest b x)).
    destruct (fold_left latest L (latest b x)) as [m|].
    + destruct IH as (Hin & Hmax & Hb).
      assert (Hx : l_startDate x <= l_startDate m
                   /\ forall b0, b = Some b0 -> l_startDate b0 <= l_startDate m).
      { unfold latest in Hb. destruct b as [b0|].
        - destruct (Z.ltb_spec (l_startDate b0) (l_startDate x)) as [Hlt|Hge].
          + specialize (Hb x eq_refl). split; [exact Hb|].
            intros b1 Hb1. injection Hb1 as <-. lia.
          + specialize (Hb b0 eq_refl). split; [lia|].
            intros b1 Hb1. injection Hb1 as <-. exact Hb.
        - split; [exact (Hb x eq_refl)|]. intros b0 Hb0. discriminate Hb0. }
      destruct Hx as [Hx Hb']. split; [|split].
      * destruct Hin as [Hin|Hin]; [left; right; exact Hin|].
        unfold latest in Hin. destruct b as [b0|].
        -- destruct (l_startDate b0 <? l_startDate x); injection Hin as <-;
             [left; left; reflexivity|right; reflexivity].
        -- injection Hin as <-. left. left. reflexivity.
      * intros l [<-|Hl]; [exact Hx|apply Hmax; exact Hl].
      * exact Hb'.
    + destruct IH as [_ Hb]. unfold latest in Hb.
      destruct b as [b0|]; [destruct (_ <? _)|]; discriminate Hb.
Qed.


Lemma reads_only_ret {A : Type} (a : A) : reads_only (ret a).
Proof.
  intros w. exists []. rewrite List.app_nil_r. destruct w. split; reflexivity.
Qed.

Lemma reads_only_reading {A : Type} ts (f : Store -> result A) : reads_only (reading ts f).
Proof.
  intros w. exists (map Read ts). split; [reflexivity|].
  induction ts as [|t ts IH]; [reflexivity|exact IH].
Qed.

Lemma reads_only_bind {A B : Type} (m : M A) (k : A -> M B) :
  reads_only m -> (forall a, reads_only (k a)) -> reads_only (bind m k).
Proof.
  intros Hm Hk w. unfold bind. destruct (Hm w) as (l & Hl & Hr).
  destruct (m w) as [[a|e] w1]; cbn [snd] in *; [|eauto].
  destruct (Hk a w1) as (l2 & Hl2 & Hr2). subst w1. cbn [w_store w_log] in Hl2.
  exists (l ++ l2). rewrite Hl2, List.app_assoc. split; [reflexivity|].
  rewrite List.forallb_app, Hr, Hr2. reflexivity.
Qed.

Lemma reads_only_mapM {A B : Type} (f : A -> M B) (l : list A) :
  (forall a, reads_only (f a)) -> reads_only (mapM f l).
Proof.
  intros Hf. induction l as [|x l IH]; cbn [mapM]; [apply reads_only_ret|].
  apply reads_only_bind; [apply Hf|]. intros y.
  apply reads_only_bind; [apply IH|]. intros ys. apply reads_only_ret.
Qed.

(** X18.  [listApplications] only reads: whatever the query and the store
    (a store that breaks referential integrity, on which it fails,
    included), it leaves the store as it was, and every access to the
    database it makes is a read. *)
Theorem listApplications_only_reads now query : reads_only (listApplications now query).
Proof.
  unfold listApplications. apply reads_only_bind; [apply reads_only_reading|].
  intros apps. apply reads_only_mapM. intros app.
  apply reads_only_bind; [apply reads_only_reading|]. intros l. apply reads_only_ret.
Qed.

End ListExtras.

(** ** [calculateNextPaymentDate]: where the result lies *)
Section CalendarExtras.

Import JSDate Civil.

Lemma iterate_S_r {A : Type} (f : A -> A) k x : iterate f (S k) x = f (iterate f k x).
Proof.
  revert x. induction k as [|k IH]; intros x; [reflexivity|].
  rewrite JSDateFacts.iterate_S, IH, <- JSDateFacts.iterate_S. reflexivity.
Qed.

Lemma TimeWithinDay_advanceMonth t : TimeWithinDay (advanceMonth t) = TimeWithinDay t.
Proof. rewrite JSDateFacts.advanceMonth_step. unfold TimeWithinDay. apply Z_mod_plus_full. Qed.

Lemma iterate_advanceMonth k t :
  t <= iterate advanceMonth k t
  /\ TimeWithinDay (iterate advanceMonth k t) = TimeWithinDay t.
Proof.
  induction k as [|k [IH1 IH2]].
  - rewrite JSDateFacts.iterate_0. split; [lia|reflexivity].
  - rewrite iterate_S_r. revert IH1 IH2. generalize (iterate advanceMonth k t). intros x H1 H2.
    rewrite TimeWithinDay_advanceMonth. split; [|exact H2].
    pose proof (JSDateFacts.advanceMonth_bounds x) as Hb. revert Hb.
    generalize (advanceMonth x). unfold msPerDay. intros; lia.
Qed.

(** X19.  The next payment date lies after today and not before the start
    of the lease; it is the start date itself for a lease that starts after
    today, and at most 31 days after today otherwise; it has the time of
    day of the start date and, when that is the 28th at most, its day of
    the month. *)
Theorem next_payment_date_window today start :
  - maxTime <= start -> today + 31 * msPerDay <= maxTime ->
  exists d,
    calculateNextPaymentDate today start = Some d
    /\ today < d /\ start <= d
    /\ (today < start -> d = start)
    /\ (start <= today -> d <= today + 31 * msPerDay)
    /\ TimeWithinDay d = TimeWithinDay start
    /\ (getDate start <= 28 -> getDate d = getDate start).
Proof.
  intros Hlo Hhi.
  destruct (JSDateFacts.calculateNextPaymentDate_iterate today start Hlo Hhi)
    as (k & Hk & Hgt & Hbelow).
  exists (iterate advanceMonth k start).
  destruct (iterate_advanceMonth k start) as [Hge Htime].
  split; [exact Hk|]. split; [exact Hgt|]. split; [exact Hge|].
  split; [|split; [|split; [exact Htime|]]].
  - intros Hlt. destruct k as [|k]; [apply JSDateFacts.iterate_0|exfalso].
    specialize (Hbelow 0%nat ltac:(lia)). rewrite JSDateFacts.iterate_0 in Hbelow. lia.
  - intros Hle. destruct k as [|k].
    + rewrite JSDateFacts.iterate_0. unfold msPerDay. lia.
    + specialize (Hbelow k ltac:(lia)). rewrite iterate_S_r. revert Hbelow.
      generalize (iterate advanceMonth k start). intros x Hx.
      pose proof (JSDateFacts.advanceMonth_bounds x) as Hb. revert Hb.
      generalize (advanceMonth x). unfold msPerDay. intros; lia.
  - unfold getDate, LocalTime, LocalTZA. rewrite !Z.add_0_r. intros HD.
    rewrite JSDateFacts.advanceMonths_addMonths by exact HD.
    destruct (JSDateFacts.civil_addMonths start (Z.of_nat k) HD) as [Hc _].
    unfold civil in Hc. injection Hc as _ _ Hc. exact Hc.
Qed.

End CalendarExtras.

Section MoreExtras.

Variable rt : Runtime.

#[local] Opaque JSDate.setFullYear JSDate.getFullYear JSDate.setMonth JSDate.getMonth clock.

Lemma set_status_back a :
  set_status (a_status a) (set_status Denied a) = a.
Proof. destruct a. reflexivity. Qed.

(** X20.  Deny and reopen: denying a pending application and then setting
    it back to Pending gives back the very store there was before, and the
    second request answers with the application as it was. *)
Theorem deny_then_reopen_restores now id n a s log t log2 :
  wf_store s -> Number rt id = Some n -> find_application s n = Some a ->
  a_status a = Pending ->
  let r1 := updateApplicationStatus rt now id (JStr "Denied")
              {| w_store := s; w_log := log |} in
  let r2 := updateApplicationStatus rt t id (JStr "Pending")
              {| w_store := w_store (snd r1); w_log := log2 |} in
  (exists j, fst r2 = Ok (Some j) /\ j_app j = a) /\ w_store (snd r2) = s.
Proof.
  intros Hwf HN Hfind Hst.
  assert (Ha : a_status a <> Approved) by (rewrite Hst; discriminate).
  assert (HD : Denied <> Approved) by discriminate.
  assert (HP : Pending <> Approved) by discriminate.
  destruct (update_status_run rt now id n a Denied s log Hwf HN Hfind Ha HD)
    as (j1 & log' & H1 & _).
  cbv zeta. change (JStr "Denied") with (statusString Denied). rewrite H1. cbn [snd w_store].
  pose proof (wf_store_update_status n Denied s Hwf) as Hwf1.
  assert (Hfind1 : find_application (with_applications (map (update_row n (set_status Denied))) s) n
                   = Some (set_status Denied a)).
  { rewrite find_application_map by (intros x; apply update_row_id; reflexivity).
    rewrite Hfind. cbn [fmap option_fmap option_map].
    destruct (find_application_In _ _ _ Hfind) as [_ Hid]. now rewrite update_row_hit. }
  destruct (update_status_run rt t id n (set_status Denied a) Pending _ log2 Hwf1 HN Hfind1)
    as (j2 & log2' & H2 & Hj2); [discriminate|exact HP|].
  change (JStr "Pending") with (statusString Pending). rewrite H2. cbn [fst snd w_store].
  split.
  - exists j2. split; [reflexivity|]. rewrite Hj2, <- Hst. apply set_status_back.
  - destruct s as [apps ls ps ts ms locs na nl]. unfold with_applications.
    cbn [s_applications s_leases s_properties s_tenants s_managers s_locations
         s_nextApplicationId s_nextLeaseId]. f_equal.
    rewrite List.map_map. rewrite <- (List.map_id apps) at 2.
    apply List.map_ext_in. intros x Hx. unfold update_row.
    destruct (bool_decide (a_id x = n)) eqn:Hb.
    + cbn [set_status a_id]. rewrite Hb. apply bool_decide_eq_true in Hb.
      rewrite (unique_application _ n a x Hwf Hfind Hx Hb), <- Hst.
      apply set_status_back.
    + rewrite Hb. reflexivity.
Qed.

Lemma asString_Some v x : asString v = Some x -> v = JStr x.
Proof. destruct v; try discriminate. intros H. injection H as ->. reflexivity. Qed.

Lemma asInt_Some v x : asInt v = Some x -> v = JNum x.
Proof. destruct v; try discriminate. intros H. injection H as ->. reflexivity. Qed.

Lemma decodeApplication_fields d row id :
  decodeApplication rt d = Some row ->
  c_applicationDate d = Some (a_applicationDate (row id))
  /\ c_name d = JStr (a_name (row id))
  /\ c_email d = JStr (a_email (row id))
  /\ c_phoneNumber d = JStr (a_phoneNumber (row id))
  /\ c_propertyId d = JNum (a_propertyId (row id))
  /\ c_tenantCognitoId d = JStr (a_tenantCognitoId (row id))
  /\ a_optional (row id) = c_optional d.
Proof.
  unfold decodeApplication.
  destruct (c_applicationDate d) as [date|]; [|discriminate].
  destruct (asStatus (c_status d)); [|discriminate].
  destruct (asString (c_name d)) as [nm|] eqn:H1; [|discriminate].
  destruct (asString (c_email d)) as [em|] eqn:H2; [|discriminate].
  destruct (asString (c_phoneNumber d)) as [ph|] eqn:H3; [|discriminate].
  destruct (asInt (c_propertyId d)) as [pid|] eqn:H4; [|discriminate].
  destruct (asString (c_tenantCognitoId d)) as [cid|] eqn:H5; [|discriminate].
  destruct (schema_accepts rt (c_optional d)); [|discriminate].
  intros H. injection H as <-.
  cbn [a_applicationDate a_name a_email a_phoneNumber a_propertyId a_tenantCognitoId
       a_optional].
  apply asString_Some in H1, H2, H3, H5. apply asInt_Some in H4.
  split; [reflexivity|]. split; [exact H1|]. split; [exact H2|]. split; [exact H3|].
  split; [exact H4|]. split; [exact H5|reflexivity].
Qed.

(** X21.  What an accepted submission stores is what was sent: the name,
    e-mail address and phone number are the strings of the body, the
    property key its number and the tenant its string (a body with another
    type there is never accepted); the optional columns are those of the
    body with their fallbacks; and the application is dated with the
    [applicationDate] sent, or with the clock when none was sent. *)
Theorem createApplication_stores_body now body s log j :
  fst (createApplication rt now body {| w_store := s; w_log := log |}) = Ok j ->
  field body "name" = JStr (a_name (j_app j))
  /\ field body "email" = JStr (a_email (j_app j))
  /\ field body "phoneNumber" = JStr (a_phoneNumber (j_app j))
  /\ field body "propertyId" = JNum (a_propertyId (j_app j))
  /\ field body "tenantCognitoId" = JStr (a_tenantCognitoId (j_app j))
  /\ a_optional (j_app j) = optionalData rt body
  /\ (truthy (field body "applicationDate") = false -> a_applicationDate (j_app j) = now)
  /\ (truthy (field body "applicationDate") = true ->
      newDate rt (field body "applicationDate") = Some (a_applicationDate (j_app j))).
Proof.
  destruct (createApplication_cases rt now body s log)
    as (r & s' & log' & -> & [(_ & f & ->)|(row & j' & Hrow & -> & Hja & _)]);
    cbn [fst]; intros H; [discriminate H|]. injection H as ->.
  destruct (decodeApplication_fields _ _ (s_nextApplicationId s) Hrow)
    as (Hd & H1 & H2 & H3 & H4 & H5 & H6).
  rewrite <- Hja in *. cbn [createData c_applicationDate c_name c_email c_phoneNumber
    c_propertyId c_tenantCognitoId c_optional] in Hd, H1, H2, H3, H4, H5, H6.
  split; [exact H1|]. split; [exact H2|]. split; [exact H3|]. split; [exact H4|].
  split; [exact H5|]. split; [exact H6|].
  split; intros Ht; rewrite Ht in Hd; [now injection Hd|exact Hd].
Qed.

End MoreExtras.

(** ** The e-mail pattern *)
Module RegexFacts.
Import Regex RegexSem.

Lemma append_nil_inv s1 s2 : String.append s1 s2 = EmptyString -> s1 = EmptyString /\ s2 = EmptyString.
Proof. destruct s1; [auto|discriminate]. Qed.

Lemma denotes_nil_nullable r s : denotes r s -> s = EmptyString -> nullable r = true.
Proof.
  induction 1 as [|p c Hp|r1 r2 s1 s2 _ IH1 _ IH2|r1 r2 s _ IH|r1 r2 s _ IH| |];
    intros Hs; cbn [nullable]; try reflexivity.
  - discriminate Hs.
  - apply append_nil_inv in Hs as [-> ->]. now rewrite IH1, IH2.
  - now rewrite IH.
  - rewrite IH by assumption. apply orb_true_r.
Qed.

Lemma nullable_denotes r : nullable r = true <-> denotes r EmptyString.
Proof.
  split; [|intros H; now apply (denotes_nil_nullable r EmptyString)].
  induction r as [| |p|r1 IH1 r2 IH2|r1 IH1 r2 IH2|r IH]; cbn [nullable]; intros H.
  - discriminate H.
  - constructor.
  - discriminate H.
  - apply andb_true_iff in H as [H1 H2].
    exact (denotes_cat r1 r2 EmptyString EmptyString (IH1 H1) (IH2 H2)).
  - apply orb_true_iff in H as [H|H]; [apply denotes_alt_l|apply denotes_alt_r]; auto.
  - constructor.
Qed.

Lemma deriv_sound c r : forall s, denotes (deriv c r) s -> denotes r (String c s).
Proof.
  induction r as [| |p|r1 IH1 r2 IH2|r1 IH1 r2 IH2|r IH]; cbn [deriv]; intros s H.
  - inversion H.
  - inversion H.
  - destruct (p c) eqn:Hp; inversion H; subst. now constructor.
  - destruct (nullable r1) eqn:Hn.
    + inversion H as [| | | ? ? ? Hl | ? ? ? Hr | |]; subst.
      * inversion Hl as [| |? ? s1 s2 H1 H2| | | |]; subst.
        exact (denotes_cat r1 r2 (String c s1) s2 (IH1 _ H1) H2).
      * apply nullable_denotes in Hn.
        exact (denotes_cat r1 r2 EmptyString (String c s) Hn (IH2 _ Hr)).
    + inversion H as [| |? ? s1 s2 H1 H2| | | |]; subst.
      exact (denotes_cat r1 r2 (String c s1) s2 (IH1 _ H1) H2).
  - inversion H; subst; [apply denotes_alt_l|apply denotes_alt_r]; auto.
  - inversion H as [| |? ? s1 s2 H1 H2| | | |]; subst.
    exact (denotes_star_cons r (String c s1) s2 (IH _ H1) H2).
Qed.

Lemma deriv_complete c r w :
  denotes r w -> forall s, w = String c s -> denotes (deriv c r) s.
Proof.
  induction 1 as [|p c0 Hp|r1 r2 s1 s2 H1 IH1 H2 IH2|r1 r2 s0 _ IH|r1 r2 s0 _ IH
                 |r|r s1 s2 H1 IH1 H2 IH2]; intros s Hs; cbn [deriv].
  - discriminate Hs.
  - injection Hs as -> <-. rewrite Hp. constructor.
  - destruct s1 as [|c1 s1'].
    + cbn [String.append] in Hs. rewrite (denotes_nil_nullable r1 EmptyString H1 eq_refl).
      apply denotes_alt_r. auto.
    + cbn [String.append] in Hs. injection Hs as -> <-.
      pose proof (denotes_cat _ r2 _ _ (IH1 s1' eq_refl) H2) as Hc.
      destruct (nullable r1); [apply denotes_alt_l|]; exact Hc.
  - apply denotes_alt_l. auto.
  - apply denotes_alt_r. auto.
  - discriminate Hs.
  - destruct s1 as [|c1 s1'].
    + cbn [String.append] in Hs. exact (IH2 s Hs).
    + cbn [String.append] in Hs. injection Hs as -> <-.
      exact (denotes_cat _ (Star r) _ _ (IH1 s1' eq_refl) H2).
Qed.

(** The matcher decides the language of the expression. *)
Lemma matches_denotes s : forall r, matches r s = true <-> denotes r s.
Proof.
  induction s as [|c s IH]; intros r; cbn [matches].
  - apply nullable_denotes.
  - rewrite IH. split; [apply deriv_sound|].
    intros H. exact (deriv_complete c r _ H s eq_refl).
Qed.

Lemma denotes_cat_inv r1 r2 s :
  denotes (Cat r1 r2) s
  <-> exists s1 s2, s = String.append s1 s2 /\ denotes r1 s1 /\ denotes r2 s2.
Proof.
  split.
  - intros H. inversion H; subst. eauto.
  - intros (s1 & s2 & -> & H1 & H2). now constructor.
Qed.

Lemma denotes_chr_inv c s : denotes (Chr c) s <-> s = String c EmptyString.
Proof.
  unfold Chr. split.
  - intros H. inversion H as [|? c0 Hc| | | | |]; subst.
    apply Ascii.eqb_eq in Hc. now subst.
  - intros ->. constructor. apply Ascii.eqb_refl.
Qed.

Lemma denotes_star_class p r s :
  denotes r s -> r = Star (Class p) -> allChars p s = true.
Proof.
  induction 1 as [| | | | | |r0 s1 s2 H1 _ _ IH2]; intros Hr; try discriminate Hr;
    [reflexivity|].
  injection Hr as ->. inversion H1 as [|? c Hc| | | | |]; subst.
  change (String c EmptyString +:+ s2) with (String c s2).
  cbn [allChars]. now rewrite Hc, IH2.
Qed.

Lemma allChars_star p s : allChars p s = true -> denotes (Star (Class p)) s.
Proof.
  induction s as [|c s IH]; cbn [allChars]; intros H; [constructor|].
  apply andb_true_iff in H as [Hc Hs].
  exact (denotes_star_cons (Class p) (String c EmptyString) s (denotes_class p c Hc) (IH Hs)).
Qed.

Lemma denotes_plus_class p s :
  denotes (Plus (Class p)) s
  <-> negb (String.eqb s EmptyString) && allChars p s = true.
Proof.
  unfold Plus. rewrite denotes_cat_inv. split.
  - intros (s1 & s2 & -> & H1 & H2). inversion H1 as [|? c Hc| | | | |]; subst.
    change (String c EmptyString +:+ s2) with (String c s2).
    cbn [String.eqb negb allChars andb].
    now rewrite Hc, (denotes_star_class p _ _ H2 eq_refl).
  - destruct s as [|c s]; [discriminate|]. cbn [String.eqb negb allChars andb].
    intros H. apply andb_true_iff in H as [Hc Hs].
    exists (String c EmptyString), s. split; [reflexivity|].
    split; [now constructor|now apply allChars_star].
Qed.

End RegexFacts.

(** X22.  The e-mail check accepts exactly the strings [a@b.c] in which
    [a], [b] and [c] are not empty and have no white space and no [@] (so
    one [@] only, and a dot after it with something on either side); a
    value that is not a string is checked as the string it converts to. *)
Theorem emailRegex_test_iff v :
  emailRegex_test v = true
  <-> exists a b c,
        ToString v = a +:+ "@" +:+ b +:+ "." +:+ c
        /\ emailPart a = true /\ emailPart b = true /\ emailPart c = true.
Proof.
  unfold emailRegex_test, emailRegex, emailPart. cbv zeta.
  rewrite RegexFacts.matches_denotes, RegexFacts.denotes_cat_inv.
  split.
  - intros (a & s1 & Hs & Ha & H1).
    apply RegexFacts.denotes_cat_inv in H1 as (at_ & s2 & -> & Hat & H2).
    apply RegexFacts.denotes_chr_inv in Hat as ->.
    apply RegexFacts.denotes_cat_inv in H2 as (b & s3 & -> & Hb & H3).
    apply RegexFacts.denotes_cat_inv in H3 as (dot & c & -> & Hdot & Hc).
    apply RegexFacts.denotes_chr_inv in Hdot as ->.
    apply RegexFacts.denotes_plus_class in Ha, Hb, Hc.
    exists a, b, c. auto.
  - intros (a & b & c & Hs & Ha & Hb & Hc).
    apply RegexFacts.denotes_plus_class in Ha, Hb, Hc.
    exists a, ("@" +:+ b +:+ "." +:+ c). split; [exact Hs|]. split; [exact Ha|].
    apply RegexFacts.denotes_cat_inv. exists "@", (b +:+ "." +:+ c).
    split; [reflexivity|]. split; [now apply RegexFacts.denotes_chr_inv|].
    apply RegexFacts.denotes_cat_inv. exists b, ("." +:+ c).
    split; [reflexivity|]. split; [exact Hb|].
    apply RegexFacts.denotes_cat_inv. exists ".", c.
    split; [reflexivity|]. split; [now apply RegexFacts.denotes_chr_inv|exact Hc].
Qed.

(** ** The steps of the application form *)
Section FormExtras.

Import ApplicationForm.

Lemma steps_at c :
  1 <= c <= Z.of_nat (length steps) ->
  exists st, at_index steps (c - 1) = Some st /\ number st = c.
Proof.
  change (Z.of_nat (length steps)) with 6. intros Hc.
  assert (H : c = 1 \/ c = 2 \/ c = 3 \/ c = 4 \/ c = 5 \/ c = 6) by lia.
  destruct H as [-> | [-> | [-> | [-> | [-> | ->]]]]]; eexists; split; reflexivity.
Qed.

(** X23.  The step of the form never leaves the table of steps: whatever
    handlers run, in whatever order and from whatever render, every value of
    [currentStep] that is rendered lies between 1 and the number of steps,
    so that [steps[currentStep - 1]] is the step of that number and its
    fields are defined; and a step is only shown after the validation has
    passed for each step before it, so the submit button of the last step
    too. *)
Theorem renders_step_in_range h vs :
  renders h vs ->
  Forall (fun c =>
            1 <= c <= Z.of_nat (length steps)
            /\ (exists st, at_index steps (c - 1) = Some st /\ number st = c)
            /\ is_Some (currentStepFields c)
            /\ forall i, 1 <= i < c -> In i vs)
    h.
Proof.
  assert (Hstep : forall c (vs : list Z),
             1 <= c <= Z.of_nat (length steps) ->
             (forall i, 1 <= i < c -> In i vs) ->
             1 <= c <= Z.of_nat (length steps)
             /\ (exists st, at_index steps (c - 1) = Some st /\ number st = c)
             /\ is_Some (currentStepFields c)
             /\ forall i, 1 <= i < c -> In i vs).
  { intros c vs0 Hc Hv. destruct (steps_at c Hc) as (st & Hst & Hn).
    split; [exact Hc|]. split; [eauto|]. split; [|exact Hv].
    unfold currentStepFields. rewrite Hst. cbn. eauto. }
  induction 1 as [|h vs c e _ IH Hin].
  - apply List.Forall_cons; [|apply List.Forall_nil].
    apply Hstep; [change (Z.of_nat (length steps)) with 6; lia|intros i Hi; lia].
  - rewrite List.Forall_forall in IH.
    destruct (IH c Hin) as (Hc & _ & _ & Hv).
    assert (Hold : forall vs', (forall i, In i vs -> In i vs') ->
                     Forall (fun c0 =>
                               1 <= c0 <= Z.of_nat (length steps)
                               /\ (exists st, at_index steps (c0 - 1) = Some st
                                              /\ number st = c0)
                               /\ is_Some (currentStepFields c0)
                               /\ forall i, 1 <= i < c0 -> In i vs') h).
    { intros vs' Hsub. apply List.Forall_forall. intros c0 Hc0.
      destruct (IH c0 Hc0) as (H1 & H2 & H3 & H4).
      split; [exact H1|]. split; [exact H2|]. split; [exact H3|]. auto. }
    destruct e as [[|]|]; unfold handle, handleNext, handlePrevious; cbn [andb].
    + destruct (Z.ltb_spec c (Z.of_nat (length steps))) as [Hlt|Hge].
      * apply List.Forall_cons; [|apply Hold; intros i Hi; right; exact Hi].
        apply Hstep; [lia|]. intros i Hi.
        destruct (Z.eq_dec i c) as [->|Hne]; [left; reflexivity|right; apply Hv; lia].
      * apply Hold. intros i Hi. right. exact Hi.
    + apply Hold. auto.
    + destruct (Z.gtb_spec c 1) as [Hgt|Hle].
      * apply List.Forall_cons; [|apply Hold; auto].
        apply Hstep; [lia|]. intros i Hi. apply Hv. lia.
      * apply Hold. auto.
Qed.

End FormExtras.

(** ** Approval, submission and the listing *)
Section ComposeExtras.

Variable rt : Runtime.

#[local] Opaque JSDate.setFullYear JSDate.getFullYear JSDate.setMonth JSDate.getMonth clock.

(** X24.  What an approval depends on: with an end date in the range of
    [Date] (the date [setFullYear] makes of the readings of the clock), the
    request to approve succeeds exactly when the application exists, has no
    lease yet, and its tenant has no lease in force on its property.  The
    status of the application plays no part: a denied application can be
    approved. *)
Theorem approval_succeeds_iff now id s log :
  wf_store s ->
  is_Some (JSDate.setFullYear (clock rt now 2) (JSDate.getFullYear (clock rt now 3) + 1)) ->
  (exists j, fst (updateApplicationStatus rt now id (JStr "Approved")
                    {| w_store := s; w_log := log |}) = Ok (Some j))
  <-> exists n a,
        Number rt id = Some n /\ find_application s n = Some a
        /\ a_leaseId a = None
        /\ active_leases s now (a_propertyId a) (a_tenantCognitoId a) = [].
Proof.
  intros Hwf [e0 He]. split.
  - intros [j0 H0].
    destruct (updateApplicationStatus_outcome rt now id (JStr "Approved") s log Hwf)
      as (r & s' & log' & Hrun & [(-> & f & ->)
           |[(n & a & st & j' & HN & Hs & Hfind & Ha & Hst & -> & -> & Hj)
            |(n & a & p & e & j' & HN & _ & Hfind & Hp & Hk & Hact & _)]]);
      rewrite Hrun in H0; cbn [fst] in H0.
    + discriminate H0.
    + exfalso. apply Hst. destruct st; [discriminate Hs|discriminate Hs|reflexivity].
    + exists n, a. auto.
  - intros (n & a & HN & Hfind & Hk & Hact).
    destruct (find_application_In _ _ _ Hfind) as [Hin _].
    destruct (wf_store_application s a Hwf Hin) as ([p Hp] & _).
    destruct (update_approve_run rt now id n a p e0 s log Hwf HN Hfind Hp Hk Hact He)
      as (j & log' & H & _).
    exists j. rewrite H. reflexivity.
Qed.

(** X25.  An accepted submission shows in the list of its tenant: the
    listing for [userType=tenant] and the tenant of the submission, on the
    store the submission leaves, succeeds and has the new application, and
    applications of that tenant only. *)
Theorem submitted_application_is_listed now body s log j t query log2 :
  wf_store s ->
  fst (createApplication rt now body {| w_store := s; w_log := log |}) = Ok j ->
  truthy (field query "userId") = true -> field query "userType" = JStr "tenant" ->
  ToString (field query "userId") = a_tenantCognitoId (j_app j) ->
  let s' := w_store (snd (createApplication rt now body {| w_store := s; w_log := log |})) in
  exists views log',
    listApplications t query {| w_store := s'; w_log := log2 |}
    = (Ok views, {| w_store := s'; w_log := log' |})
    /\ In (j_app j) (map (fun v => j_app (v_app v)) views)
    /\ forall a, In a (map (fun v => j_app (v_app v)) views) ->
                 a_tenantCognitoId a = a_tenantCognitoId (j_app j).
Proof.
  intros Hwf.
  destruct (createApplication_cases rt now body s log)
    as (r & s' & log' & -> & [[_ [f ->]]|(row & j' & Hrow & -> & Hja & _ & -> & Hp & Ht & _)]);
    cbv zeta; cbn [fst snd w_store]; intros Hj Hid Hty Hcid; [discriminate Hj|].
  injection Hj as <-.
  destruct (decodeApplication_row rt _ _ (s_nextApplicationId s) Hrow) as (Hrid & Hl & _).
  rewrite <- Hja in *.
  assert (Hwf' : wf_store (insert_application (j_app j') s))
    by (apply wf_store_insert_application; assumption).
  destruct (listApplications_views t query (insert_application (j_app j') s) log2
              (whereTenant (ToString (field query "userId"))) Hwf')
    as (views & log2' & H & Hmap & _).
  { rewrite Hid, Hty. reflexivity. }
  exists views, log2'. split; [exact H|]. rewrite Hmap. split.
  - apply List.filter_In. split.
    + cbn [insert_application s_applications]. apply List.in_or_app. right. left. reflexivity.
    + unfold whereTenant. apply bool_decide_eq_true. now rewrite Hcid.
  - intros a Ha. apply List.filter_In in Ha as [_ Ha]. unfold whereTenant in Ha.
    apply bool_decide_eq_true in Ha. now rewrite Ha, Hcid.
Qed.

(** X26.  After an approval the listing shows the lease: on the store a
    successful approval leaves, every listing succeeds, and each
    application of the tenant for the property it shows (the approved one
    and any other) comes with a lease, one that starts at the time of the
    approval or later. *)
Theorem approved_application_listed_with_lease now id s log j t query log2 :
  wf_store s ->
  fst (updateApplicationStatus rt now id (JStr "Approved") {| w_store := s; w_log := log |})
  = Ok (Some j) ->
  let s' := w_store (snd (updateApplicationStatus rt now id (JStr "Approved")
                            {| w_store := s; w_log := log |})) in
  exists views log',
    listApplications t query {| w_store := s'; w_log := log2 |}
    = (Ok views, {| w_store := s'; w_log := log' |})
    /\ Forall (fun v =>
                 a_propertyId (j_app (v_app v)) = a_propertyId (j_app j) ->
                 a_tenantCognitoId (j_app (v_app v)) = a_tenantCognitoId (j_app j) ->
                 exists lv, v_lease v = Some lv /\ now <= l_startDate (lv_lease lv))
         views.
Proof.
  intros Hwf H1.
  destruct (approval_outcome rt now id s log j Hwf H1)
    as (n & a & p & e & HN & Hfind & Hp & Hk & Hs' & Hja & Hjl).
  cbv zeta. rewrite Hs'.
  pose proof (wf_store_issue_lease (clock rt now 1) e n p a s Hwf Hfind) as Hwf'.
  destruct (listApplications_views t query (issue_lease (clock rt now 1) e n p a s) log2 _ Hwf' eq_refl)
    as (views & log' & H & _ & Hall).
  exists views, log'. split; [exact H|].
  eapply List.Forall_impl; [|exact Hall]. cbv beta. intros v -> Hvp Hvc.
  rewrite Hvp, Hvc, Hja. cbn [set_leaseId set_status a_propertyId a_tenantCognitoId].
  pose proof (fold_latest (leases_of (issue_lease (clock rt now 1) e n p a s) (a_propertyId a)
                             (a_tenantCognitoId a)) None) as HL.
  assert (Hin : In (issued_lease s (clock rt now 1) e p a)
                  (leases_of (issue_lease (clock rt now 1) e n p a s) (a_propertyId a)
                     (a_tenantCognitoId a))).
  { unfold leases_of. apply List.filter_In. split.
    - unfold issue_lease. cbn [with_applications with_properties insert_lease s_leases].
      apply List.in_or_app. right. left. reflexivity.
    - cbn [issued_lease l_tenantCognitoId l_propertyId].
      now rewrite !bool_decide_eq_true_2. }
  destruct (fold_left latest _ None) as [m|]; cbn [fmap option_fmap option_map].
  - destruct HL as (_ & Hmax & _). eexists. split; [reflexivity|].
    cbn [lv_lease]. specialize (Hmax _ Hin). cbn [issued_lease l_startDate] in Hmax.
    pose proof (clock_now rt now 1). lia.
  - destruct HL as [HL _]. rewrite HL in Hin. destruct Hin.
Qed.

End ComposeExtras.

(** * The further properties on the sample instance *)

Lemma createApplication_invalid_email_iff_witness :
  required_present (<["email" := JStr "nobody"]> (Sample.submission 1 "T1")) = true
  /\ fst (createApplication Sample.rt Sample.jan31
            (<["email" := JStr "nobody"]> (Sample.submission 1 "T1")) Sample.world0)
     = Fail InvalidEmail.
Proof.
  assert (Hreq : required_present (<["email" := JStr "nobody"]> (Sample.submission 1 "T1"))
                 = true) by (vm_compute; reflexivity).
  assert (Hbad : emailRegex_test
                   (field (<["email" := JStr "nobody"]> (Sample.submission 1 "T1")) "email")
                 = false) by (vm_compute; reflexivity).
  split; [exact Hreq|].
  exact (proj2 (proj1 (createApplication_invalid_email_iff Sample.rt Sample.jan31 _
                         Sample.world0 Hreq)) Hbad).
Defined.

Lemma createApplication_unknown_entity_witness :
  passes_validation (Sample.submission 2147483648 "T1")
  /\ find_property Sample.store0 2147483648 = None
  /\ isInt 2147483648 = false
  /\ fst (createApplication Sample.rt Sample.jan31 (Sample.submission 2147483648 "T1")
            Sample.world0)
     = Fail ServerError
  /\ passes_validation (Sample.submission 7 "T1")
  /\ find_property Sample.store0 7 = None
  /\ isInt 7 = true
  /\ fst (createApplication Sample.rt Sample.jan31 (Sample.submission 7 "T1") Sample.world0)
     = Fail PropertyNotFound.
Proof.
  assert (Hval : forall pid, pid <> 0 -> passes_validation (Sample.submission pid "T1")).
  { intros pid Hpid. repeat split; try (vm_compute; reflexivity).
    unfold Sample.submission, field. cbn. now apply negb_true_iff, Z.eqb_neq. }
  assert (Hpid : forall pid, field (Sample.submission pid "T1") "propertyId" = JNum pid)
    by (intros pid; reflexivity).
  assert (Hcid : forall pid, field (Sample.submission pid "T1") "tenantCognitoId" = JStr "T1")
    by (intros pid; reflexivity).
  assert (Hbig : find_property Sample.store0 2147483648 = None) by (vm_compute; reflexivity).
  assert (Hp : find_property Sample.store0 7 = None) by (vm_compute; reflexivity).
  assert (Hout : isInt 2147483648 = false) by (vm_compute; reflexivity).
  assert (Hint : isInt 7 = true) by (vm_compute; reflexivity).
  assert (H0 : (2147483648 : Z) <> 0) by discriminate.
  assert (H7 : (7 : Z) <> 0) by discriminate.
  split; [exact (Hval _ H0)|]. split; [exact Hbig|]. split; [exact Hout|].
  split.
  { exact (proj1 (proj1 (proj2 (createApplication_unknown_entity Sample.rt Sample.jan31
                                  (Sample.submission 2147483648 "T1") 2147483648 "T1"
                                  Sample.store0 [] (Hval _ H0) (Hpid _) (Hcid _)))
                    Hbig Hout)). }
  split; [exact (Hval _ H7)|]. split; [exact Hp|]. split; [exact Hint|].
  exact (proj1 (proj1 (createApplication_unknown_entity Sample.rt Sample.jan31
                         (Sample.submission 7 "T1") 7 "T1" Sample.store0 []
                         (Hval _ H7) (Hpid _) (Hcid _)) Hp Hint)).
Defined.

Lemma createApplication_then_find_witness :
  wf_store Sample.store0
  /\ fst (createApplication Sample.rt Sample.jan31 (Sample.submission 1 "T1") Sample.world0)
     = Ok Sample.created
  /\ find_application
       (w_store (snd (createApplication Sample.rt Sample.jan31 (Sample.submission 1 "T1")
                        Sample.world0)))
       (a_id (j_app Sample.created))
     = Some (j_app Sample.created).
Proof.
  assert (Hwf : wf_store Sample.store0) by wf_by_computation.
  assert (H : fst (createApplication Sample.rt Sample.jan31 (Sample.submission 1 "T1")
                     Sample.world0) = Ok Sample.created) by (vm_compute; reflexivity).
  split; [exact Hwf|]. split; [exact H|].
  exact (proj1 (proj2 (createApplication_then_find Sample.rt Sample.jan31
                         (Sample.submission 1 "T1") Sample.store0 [] Sample.created Hwf H))).
Defined.

Lemma updateApplicationStatus_unknown_id_witness :
  Number Sample.rt "9" = Some 9
  /\ find_application Sample.submitted 9 = None
  /\ fst (updateApplicationStatus Sample.rt Sample.mar10 "9" (statusString Denied)
            {| w_store := Sample.submitted; w_log := [] |})
     = Fail ApplicationNotFound
  /\ Number Sample.rt "2147483648" = Some 2147483648
  /\ find_application Sample.submitted 2147483648 = None
  /\ fst (updateApplicationStatus Sample.rt Sample.mar10 "2147483648" (statusString Denied)
            {| w_store := Sample.submitted; w_log := [] |})
     = Fail ServerError.
Proof.
  assert (HN : Number Sample.rt "9" = Some 9) by (vm_compute; reflexivity).
  assert (Hfind : find_application Sample.submitted 9 = None) by (vm_compute; reflexivity).
  assert (HN' : Number Sample.rt "2147483648" = Some 2147483648)
    by (vm_compute; reflexivity).
  assert (Hfind' : find_application Sample.submitted 2147483648 = None)
    by (vm_compute; reflexivity).
  split; [exact HN|]. split; [exact Hfind|].
  split.
  { exact (proj1 (updateApplicationStatus_unknown_id Sample.rt Sample.mar10 "9" 9 Denied
                    Sample.submitted [] HN Hfind)). }
  split; [exact HN'|]. split; [exact Hfind'|].
  exact (proj1 (updateApplicationStatus_unknown_id Sample.rt Sample.mar10 "2147483648"
                  2147483648 Denied Sample.submitted [] HN' Hfind')).
Defined.

Lemma updateApplicationStatus_all_or_nothing_witness :
  wf_store Sample.approved
  /\ fst (updateApplicationStatus Sample.rt Sample.mar10 "1" (JStr "Pending")
            {| w_store := Sample.approved; w_log := [] |})
     = Fail CannotModifyApproved
  /\ w_store (snd (updateApplicationStatus Sample.rt Sample.mar10 "1" (JStr "Pending")
                     {| w_store := Sample.approved; w_log := [] |}))
     = Sample.approved.
Proof.
  assert (Hwf : wf_store Sample.approved) by wf_by_computation.
  assert (Hf : fst (updateApplicationStatus Sample.rt Sample.mar10 "1" (JStr "Pending")
                      {| w_store := Sample.approved; w_log := [] |})
               = Fail CannotModifyApproved) by (vm_compute; reflexivity).
  split; [exact Hwf|]. split; [exact Hf|].
  exact (proj1 (updateApplicationStatus_all_or_nothing Sample.rt Sample.mar10 "1"
                  (JStr "Pending") Sample.approved [] Hwf) CannotModifyApproved Hf).
Defined.

Lemma serve_keeps_integrity_witness :
  wf_store Sample.submitted
  /\ wf_store (serve Sample.rt Sample.jan31
                 (UpdateApplicationStatus "1" (JStr "Approved")) Sample.submitted).
Proof.
  assert (Hwf : wf_store Sample.submitted) by wf_by_computation.
  split; [exact Hwf|].
  exact (serve_keeps_integrity Sample.rt Sample.jan31
           (UpdateApplicationStatus "1" (JStr "Approved")) Sample.submitted Hwf).
Defined.

Lemma reachable_lease_implies_approved_witness :
  reachable Sample.rt Sample.jan31 Sample.approved
  /\ (a_leaseId <$> find_application Sample.approved 1) = Some (Some 1)
  /\ is_Some (find_lease Sample.approved 1).
Proof.
  assert (Hinit : initial Sample.store0).
  { split; [reflexivity|]. split; [reflexivity|]. wf_by_computation. }
  assert (Hle : Sample.jan31 <= Sample.jan31) by (vm_compute; discriminate).
  assert (H : reachable Sample.rt Sample.jan31 Sample.approved).
  { unfold Sample.approved, Sample.submitted.
    apply reachable_serve with Sample.jan31; [|exact Hle].
    apply reachable_serve with Sample.jan31; [|exact Hle].
    apply reachable_initial. exact Hinit. }
  assert (Hfind : find_application Sample.approved 1
                  = Some (set_leaseId (Some 1)
                            (set_status Approved (Sample.application 1 "T1" Pending))))
    by (vm_compute; reflexivity).
  assert (Hin : In (set_leaseId (Some 1)
                      (set_status Approved (Sample.application 1 "T1" Pending)))
                  (s_applications Sample.approved))
    by (apply (find_application_In _ _ _ Hfind)).
  split; [exact H|]. split; [rewrite Hfind; reflexivity|].
  exact (proj2 (reachable_lease_implies_approved Sample.rt Sample.jan31 Sample.approved _
                  H Hin 1 eq_refl)).
Defined.

Lemma serve_keeps_rows_witness :
  wf_store Sample.submitted
  /\ s_leases Sample.submitted
     ⊆+ s_leases (serve Sample.rt Sample.jan31
                    (UpdateApplicationStatus "1" (JStr "Approved"))
                    Sample.submitted).
Proof.
  assert (Hwf : wf_store Sample.submitted) by wf_by_computation.
  split; [exact Hwf|].
  exact (proj1 (serve_keeps_rows Sample.rt Sample.jan31
                  (UpdateApplicationStatus "1" (JStr "Approved")) Sample.submitted Hwf)).
Defined.

Lemma approve_twice_rejected_witness :
  wf_store Sample.submitted
  /\ fst (updateApplicationStatus Sample.rt Sample.mar10 "1" (JStr "Approved")
            {| w_store :=
                 w_store (snd (updateApplicationStatus Sample.rt Sample.jan31 "1"
                                 (JStr "Approved")
                                 {| w_store := Sample.submitted; w_log := [] |}));
               w_log := [] |})
     = Fail LeaseAlreadyExists.
Proof.
  assert (Hwf : wf_store Sample.submitted) by wf_by_computation.
  assert (H1 : exists j,
             fst (updateApplicationStatus Sample.rt Sample.jan31 "1" (JStr "Approved")
                    {| w_store := Sample.submitted; w_log := [] |}) = Ok (Some j))
    by (vm_compute; eexists; reflexivity).
  destruct H1 as [j H1].
  split; [exact Hwf|].
  exact (proj1 (approve_twice_rejected Sample.rt Sample.jan31 "1" Sample.submitted [] j
                  Sample.mar10 [] Hwf H1)).
Defined.

Lemma resubmission_after_approval_witness :
  wf_store Sample.submitted
  /\ passes_validation (Sample.submission 1 "T1")
  /\ fst (createApplication Sample.rt Sample.mar10 (Sample.submission 1 "T1")
            {| w_store :=
                 w_store (snd (updateApplicationStatus Sample.rt Sample.jan31 "1"
                                 (JStr "Approved")
                                 {| w_store := Sample.submitted; w_log := [] |}));
               w_log := [] |})
     = Fail DuplicateApproved.
Proof.
  assert (Hwf : wf_store Sample.submitted) by wf_by_computation.
  assert (Hval : passes_validation (Sample.submission 1 "T1"))
    by (repeat split; vm_compute; reflexivity).
  assert (H1 : exists j,
             fst (updateApplicationStatus Sample.rt Sample.jan31 "1" (JStr "Approved")
                    {| w_store := Sample.submitted; w_log := [] |}) = Ok (Some j)
             /\ field (Sample.submission 1 "T1") "propertyId" = JNum (a_propertyId (j_app j))
             /\ field (Sample.submission 1 "T1") "tenantCognitoId"
                = JStr (a_tenantCognitoId (j_app j)))
    by (vm_compute; eexists; split; [reflexivity|split; reflexivity]).
  destruct H1 as (j & H1 & Hpid & Hcid).
  split; [exact Hwf|]. split; [exact Hval|].
  exact (proj1 (resubmission_after_approval Sample.rt Sample.jan31 "1" Sample.submitted []
                  j Sample.mar10 (Sample.submission 1 "T1") [] Hwf H1 Hval Hpid Hcid)).
Defined.

Lemma rival_of_same_tenant_rejected_witness :
  wf_store Sample.reapplied
  /\ map (fun a => (a_id a, a_status a, a_leaseId a)) (s_applications Sample.reapplied)
     = [(1, Denied, None); (2, Pending, None)]
  /\ fst (updateApplicationStatus Sample.rt Sample.mar31 "1" (JStr "Approved")
            {| w_store :=
                 w_store (snd (updateApplicationStatus Sample.rt Sample.mar10 "2"
                                 (JStr "Approved")
                                 {| w_store := Sample.reapplied; w_log := [] |}));
               w_log := [] |})
     = Fail ActiveLeaseExists.
Proof.
  assert (Hwf : wf_store Sample.reapplied) by wf_by_computation.
  assert (H1 : exists j l,
             fst (updateApplicationStatus Sample.rt Sample.mar10 "2" (JStr "Approved")
                    {| w_store := Sample.reapplied; w_log := [] |}) = Ok (Some j)
             /\ j_lease j = Some l
             /\ (Sample.mar31 <=? l_endDate l) = true
             /\ a_id (j_app j) = 2
             /\ a_propertyId (j_app j) = 1
             /\ a_tenantCognitoId (j_app j) = "T1"%string)
    by (vm_compute; do 2 eexists; split; [reflexivity|];
        split; [reflexivity|]; repeat split; reflexivity).
  destruct H1 as (j & l & H1 & Hl & Ht & Hjid & Hjp & Hjc).
  apply Z.leb_le in Ht.
  assert (HM : Number Sample.rt "1" = Some 1) by (vm_compute; reflexivity).
  assert (Hb : find_application Sample.reapplied 1
               = Some (set_status Denied (Sample.application 1 "T1" Pending)))
    by (vm_compute; reflexivity).
  assert (Hne : a_id (set_status Denied (Sample.application 1 "T1" Pending))
                <> a_id (j_app j)) by (rewrite Hjid; discriminate).
  assert (Hbp : a_propertyId (set_status Denied (Sample.application 1 "T1" Pending))
                = a_propertyId (j_app j)) by (rewrite Hjp; reflexivity).
  assert (Hbc : a_tenantCognitoId (set_status Denied (Sample.application 1 "T1" Pending))
                = a_tenantCognitoId (j_app j)) by (rewrite Hjc; reflexivity).
  split; [exact Hwf|]. split; [vm_compute; reflexivity|].
  exact (proj1 (rival_of_same_tenant_rejected Sample.rt Sample.mar10 "2" Sample.reapplied []
                  j l Sample.mar31 "1" 1 _ [] Hwf H1 Hl Ht HM Hb Hne Hbp Hbc eq_refl)).
Defined.

Lemma resubmission_after_denial_witness :
  wf_store Sample.submitted
  /\ find_application Sample.submitted 1 = Some (Sample.application 1 "T1" Pending)
  /\ passes_validation (Sample.submission 1 "T1")
  /\ exists j,
       fst (createApplication Sample.rt Sample.mar10 (Sample.submission 1 "T1")
              {| w_store :=
                   w_store (snd (updateApplicationStatus Sample.rt Sample.jan31 "1"
                                   (JStr "Denied")
                                   {| w_store := Sample.submitted; w_log := [] |}));
                 w_log := [] |})
       = Ok j.
Proof.
  assert (Hwf : wf_store Sample.submitted) by wf_by_computation.
  assert (HN : Number Sample.rt "1" = Some 1) by (vm_compute; reflexivity).
  assert (Hfind : find_application Sample.submitted 1
                  = Some (Sample.application 1 "T1" Pending)) by (vm_compute; reflexivity).
  assert (Hst : a_status (Sample.application 1 "T1" Pending) <> Approved) by discriminate.
  assert (Hothers : forall x,
             In x (applications_of Sample.submitted
                     (a_propertyId (Sample.application 1 "T1" Pending))
                     (a_tenantCognitoId (Sample.application 1 "T1" Pending))) ->
             a_id x <> 1 -> a_status x = Denied).
  { intros x Hx Hne. exfalso. vm_compute in Hx. destruct Hx as [<-|[]].
    apply Hne. reflexivity. }
  assert (Hval : passes_validation (Sample.submission 1 "T1"))
    by (repeat split; vm_compute; reflexivity).
  assert (Hpid : field (Sample.submission 1 "T1") "propertyId"
                 = JNum (a_propertyId (Sample.application 1 "T1" Pending)))
    by (vm_compute; reflexivity).
  assert (Hcid : field (Sample.submission 1 "T1") "tenantCognitoId"
                 = JStr (a_tenantCognitoId (Sample.application 1 "T1" Pending)))
    by (vm_compute; reflexivity).
  assert (Hdec : is_Some (decodeApplication Sample.rt
                            (createData Sample.rt Sample.mar10 (Sample.submission 1 "T1"))))
    by (vm_compute; eexists; reflexivity).
  split; [exact Hwf|]. split; [exact Hfind|]. split; [exact Hval|].
  destruct (resubmission_after_denial Sample.rt Sample.jan31 "1" 1
              (Sample.application 1 "T1" Pending) Sample.submitted [] Sample.mar10
              (Sample.submission 1 "T1") [] Hwf HN Hfind Hst Hothers Hval Hpid Hcid Hdec)
    as (j & Hj & _).
  exists j. exact Hj.
Defined.

Lemma listApplications_of_tenant_witness :
  wf_store Sample.rivals
  /\ exists views log',
       listApplications Sample.mar10
         (list_to_map [("userId", JStr "T2"); ("userType", JStr "tenant")]%string)
         {| w_store := Sample.rivals; w_log := [] |}
       = (Ok views, {| w_store := Sample.rivals; w_log := log' |})
       /\ map (fun v => a_id (j_app (v_app v))) views ≡ₚ [2].
Proof.
  assert (Hwf : wf_store Sample.rivals) by wf_by_computation.
  assert (Hid : truthy (field (list_to_map [("userId", JStr "T2");
                                            ("userType", JStr "tenant")]%string) "userId")
                = true) by (vm_compute; reflexivity).
  assert (Hty : field (list_to_map [("userId", JStr "T2");
                                    ("userType", JStr "tenant")]%string) "userType"
                = JStr "tenant") by (vm_compute; reflexivity).
  split; [exact Hwf|].
  destruct (listApplications_of_tenant Sample.mar10 _ Sample.rivals [] Hwf Hid Hty)
    as (views & log' & H & Hmap).
  exists views, log'. split; [exact H|].
  rewrite <- (List.map_map (fun v => j_app (v_app v)) a_id).
  apply (Permutation_map a_id) in Hmap.
  etransitivity; [exact Hmap|]. vm_compute. reflexivity.
Defined.

Lemma listApplications_of_manager_witness :
  wf_store Sample.rivals
  /\ exists views log',
       listApplications Sample.mar10
         (list_to_map [("userId", JStr "M1"); ("userType", JStr "manager")]%string)
         {| w_store := Sample.rivals; w_log := [] |}
       = (Ok views, {| w_store := Sample.rivals; w_log := log' |})
       /\ map (fun v => a_id (j_app (v_app v))) views ≡ₚ [1; 2].
Proof.
  assert (Hwf : wf_store Sample.rivals) by wf_by_computation.
  assert (Hid : truthy (field (list_to_map [("userId", JStr "M1");
                                            ("userType", JStr "manager")]%string) "userId")
                = true) by (vm_compute; reflexivity).
  assert (Hty : field (list_to_map [("userId", JStr "M1");
                                    ("userType", JStr "manager")]%string) "userType"
                = JStr "manager") by (vm_compute; reflexivity).
  split; [exact Hwf|].
  destruct (listApplications_of_manager Sample.mar10 _ Sample.rivals [] Hwf Hid Hty)
    as (views & log' & H & Hmap & _).
  exists views, log'. split; [exact H|].
  rewrite <- (List.map_map (fun v => j_app (v_app v)) a_id).
  apply (Permutation_map a_id) in Hmap.
  etransitivity; [exact Hmap|]. vm_compute. reflexivity.
Defined.


Lemma next_payment_date_window_witness :
  - JSDate.maxTime <= Sample.jan31
  /\ Sample.mar10 + 31 * JSDate.msPerDay <= JSDate.maxTime
  /\ exists d,
       calculateNextPaymentDate Sample.mar10 Sample.jan31 = Some d
       /\ Sample.mar10 < d <= Sample.mar10 + 31 * JSDate.msPerDay.
Proof.
  assert (Hlo : - JSDate.maxTime <= Sample.jan31) by (vm_compute; discriminate).
  assert (Hhi : Sample.mar10 + 31 * JSDate.msPerDay <= JSDate.maxTime)
    by (vm_compute; discriminate).
  assert (Hle : Sample.jan31 <= Sample.mar10) by (vm_compute; discriminate).
  split; [exact Hlo|]. split; [exact Hhi|].
  destruct (next_payment_date_window Sample.mar10 Sample.jan31 Hlo Hhi)
    as (d & Hd & Hgt & _ & _ & Hup & _).
  exists d. split; [exact Hd|]. split; [exact Hgt|exact (Hup Hle)].
Defined.

Lemma deny_then_reopen_restores_witness :
  wf_store Sample.submitted
  /\ find_application Sample.submitted 1 = Some (Sample.application 1 "T1" Pending)
  /\ w_store (snd (updateApplicationStatus Sample.rt Sample.mar31 "1" (JStr "Pending")
                     {| w_store :=
                          w_store (snd (updateApplicationStatus Sample.rt Sample.mar10 "1"
                                          (JStr "Denied")
                                          {| w_store := Sample.submitted; w_log := [] |}));
                        w_log := [] |}))
     = Sample.submitted.
Proof.
  assert (Hwf : wf_store Sample.submitted) by wf_by_computation.
  assert (HN : Number Sample.rt "1" = Some 1) by (vm_compute; reflexivity).
  assert (Hfind : find_application Sample.submitted 1
                  = Some (Sample.application 1 "T1" Pending)) by (vm_compute; reflexivity).
  split; [exact Hwf|]. split; [exact Hfind|].
  exact (proj2 (deny_then_reopen_restores Sample.rt Sample.mar10 "1" 1
                  (Sample.application 1 "T1" Pending) Sample.submitted [] Sample.mar31 []
                  Hwf HN Hfind eq_refl)).
Defined.

Lemma createApplication_stores_body_witness :
  fst (createApplication Sample.rt Sample.jan31 (Sample.submission 1 "T1") Sample.world0)
  = Ok Sample.created
  /\ field (Sample.submission 1 "T1") "name" = JStr (a_name (j_app Sample.created))
  /\ a_applicationDate (j_app Sample.created) = Sample.jan31.
Proof.
  assert (H : fst (createApplication Sample.rt Sample.jan31 (Sample.submission 1 "T1")
                     Sample.world0) = Ok Sample.created) by (vm_compute; reflexivity).
  assert (Hd : truthy (field (Sample.submission 1 "T1") "applicationDate") = false)
    by (vm_compute; reflexivity).
  split; [exact H|].
  destruct (createApplication_stores_body Sample.rt Sample.jan31 (Sample.submission 1 "T1")
              Sample.store0 [] Sample.created H) as (Hn & _ & _ & _ & _ & _ & Hdate & _).
  split; [exact Hn|exact (Hdate Hd)].
Defined.

Lemma renders_step_in_range_witness :
  ApplicationForm.renders [2; 1] [1]
  /\ Forall (fun c => 1 <= c <= Z.of_nat (length ApplicationForm.steps)) [2; 1].
Proof.
  assert (H : ApplicationForm.renders [2; 1] [1])
    by exact (ApplicationForm.renders_event [1] [] 1 (ApplicationForm.Next true)
                ApplicationForm.renders_mount (or_introl eq_refl)).
  split; [exact H|].
  eapply List.Forall_impl; [|exact (renders_step_in_range [2; 1] [1] H)].
  intros c Hc. exact (proj1 Hc).
Defined.

Lemma approval_succeeds_iff_witness :
  wf_store Sample.denied
  /\ (a_status <$> find_application Sample.denied 1) = Some Denied
  /\ exists j,
       fst (updateApplicationStatus Sample.rt Sample.mar10 "1" (JStr "Approved")
              {| w_store := Sample.denied; w_log := [] |})
       = Ok (Some j).
Proof.
  assert (Hwf : wf_store Sample.denied) by wf_by_computation.
  assert (He : is_Some (JSDate.setFullYear (clock Sample.rt Sample.mar10 2)
                          (JSDate.getFullYear (clock Sample.rt Sample.mar10 3) + 1)))
    by (vm_compute; eexists; reflexivity).
  assert (Hpre : exists n a,
             Number Sample.rt "1" = Some n /\ find_application Sample.denied n = Some a
             /\ a_leaseId a = None
             /\ active_leases Sample.denied Sample.mar10 (a_propertyId a)
                  (a_tenantCognitoId a) = []).
  { exists 1, (set_status Denied (Sample.application 1 "T1" Pending)).
    split; [vm_compute; reflexivity|]. split; [vm_compute; reflexivity|].
    split; vm_compute; reflexivity. }
  split; [exact Hwf|]. split; [vm_compute; reflexivity|].
  exact (proj2 (approval_succeeds_iff Sample.rt Sample.mar10 "1" Sample.denied []
                  Hwf He) Hpre).
Defined.

Lemma submitted_application_is_listed_witness :
  wf_store Sample.store0
  /\ fst (createApplication Sample.rt Sample.jan31 (Sample.submission 1 "T1") Sample.world0)
     = Ok Sample.created
  /\ exists views log',
       listApplications Sample.mar10
         (list_to_map [("userId", JStr "T1"); ("userType", JStr "tenant")]%string)
         {| w_store :=
              w_store (snd (createApplication Sample.rt Sample.jan31
                              (Sample.submission 1 "T1") Sample.world0));
            w_log := [] |}
       = (Ok views,
          {| w_store :=
               w_store (snd (createApplication Sample.rt Sample.jan31
                               (Sample.submission 1 "T1") Sample.world0));
             w_log := log' |})
       /\ In (j_app Sample.created) (map (fun v => j_app (v_app v)) views).
Proof.
  assert (Hwf : wf_store Sample.store0) by wf_by_computation.
  assert (H : fst (createApplication Sample.rt Sample.jan31 (Sample.submission 1 "T1")
                     Sample.world0) = Ok Sample.created) by (vm_compute; reflexivity).
  assert (Hid : truthy (field (list_to_map [("userId", JStr "T1");
                                            ("userType", JStr "tenant")]%string) "userId")
                = true) by (vm_compute; reflexivity).
  assert (Hty : field (list_to_map [("userId", JStr "T1");
                                    ("userType", JStr "tenant")]%string) "userType"
                = JStr "tenant") by (vm_compute; reflexivity).
  assert (Hcid : ToString (field (list_to_map [("userId", JStr "T1");
                                               ("userType", JStr "tenant")]%string)
                             "userId")
                 = a_tenantCognitoId (j_app Sample.created)) by (vm_compute; reflexivity).
  split; [exact Hwf|]. split; [exact H|].
  destruct (submitted_application_is_listed Sample.rt Sample.jan31
              (Sample.submission 1 "T1") Sample.store0 [] Sample.created Sample.mar10
              _ [] Hwf H Hid Hty Hcid) as (views & log' & Hrun & Hin & _).
  exists views, log'. split; [exact Hrun|exact Hin].
Defined.

Lemma approved_application_listed_with_lease_witness :
  wf_store Sample.submitted
  /\ exists views log',
       listApplications Sample.mar10 ∅
         {| w_store :=
              w_store (snd (updateApplicationStatus Sample.rt Sample.jan31 "1"
                              (JStr "Approved")
                              {| w_store := Sample.submitted; w_log := [] |}));
            w_log := [] |}
       = (Ok views,
          {| w_store :=
               w_store (snd (updateApplicationStatus Sample.rt Sample.jan31 "1"
                               (JStr "Approved")
                               {| w_store := Sample.submitted; w_log := [] |}));
             w_log := log' |}).
Proof.
  assert (Hwf : wf_store Sample.submitted) by wf_by_computation.
  assert (H1 : exists j,
             fst (updateApplicationStatus Sample.rt Sample.jan31 "1" (JStr "Approved")
                    {| w_store := Sample.submitted; w_log := [] |}) = Ok (Some j))
    by (vm_compute; eexists; reflexivity).
  destruct H1 as [j H1].
  split; [exact Hwf|].
  destruct (approved_application_listed_with_lease Sample.rt Sample.jan31 "1"
              Sample.submitted [] j Sample.mar10 ∅ [] Hwf H1) as (views & log' & H & _).
  exists views, log'. exact H.
Defined.
